(** * Survey databook generator: a shallow embedding and its verified properties

    The development follows [survey_databook_api_v3.py]:
    - [PyStr]: the Python string primitives the program relies on;
    - [Re]: the fragment of Python's [re] the program's patterns use;
    - [Cleaning]: step 1, the question-structure inference;
    - [Tabulation]: step 2, option loading and the tabulation engine;
    - [Cuts]: the formula-mutation helpers and the cut layout.

    Texts are modelled as ASCII strings (type [string]).  A missing pandas
    value (NaN / None) is [None]; a present cell is [Some s] where [s] is what
    Python's [str()] returns for it. *)

From Stdlib Require Import String Ascii List Arith Lia Bool.
From Stdlib Require Import DecimalString.
From Stdlib Require DecimalNat DecimalFacts.
From stdpp Require Import gmap strings list.

Open Scope string_scope.
Open Scope nat_scope.

(* ===================================================================== *)
(** * Python string primitives *)
(* ===================================================================== *)

Module PyStr.

(** [str.isspace] on one ASCII character: TAB, LF, VT, FF, CR, the four
    separators 0x1c-0x1f and the blank. *)
Definition py_isspace (c : ascii) : bool :=
  let n := nat_of_ascii c in
  (9 <=? n) && (n <=? 13) || (28 <=? n) && (n <=? 32).

Definition is_upper (c : ascii) : bool :=
  let n := nat_of_ascii c in (65 <=? n) && (n <=? 90).

Definition is_lower (c : ascii) : bool :=
  let n := nat_of_ascii c in (97 <=? n) && (n <=? 122).

Definition is_digit (c : ascii) : bool :=
  let n := nat_of_ascii c in (48 <=? n) && (n <=? 57).

Definition lower_char (c : ascii) : ascii :=
  if is_upper c then ascii_of_nat (nat_of_ascii c + 32) else c.

Definition upper_char (c : ascii) : ascii :=
  if is_lower c then ascii_of_nat (nat_of_ascii c - 32) else c.

Fixpoint smap (f : ascii -> ascii) (s : string) : string :=
  match s with
  | EmptyString => EmptyString
  | String c s' => String (f c) (smap f s')
  end.

(** [s.lower()] and [s.upper()] *)
Definition lower (s : string) : string := smap lower_char s.
Definition upper (s : string) : string := smap upper_char s.

Fixpoint sall (p : ascii -> bool) (s : string) : bool :=
  match s with
  | EmptyString => true
  | String c s' => p c && sall p s'
  end.

(** [s.isdigit()]: non-empty and made of digits only *)
Definition isdigit (s : string) : bool :=
  match s with
  | EmptyString => false
  | _ => sall is_digit s
  end.

Fixpoint srev_onto (s acc : string) : string :=
  match s with
  | EmptyString => acc
  | String c s' => srev_onto s' (String c acc)
  end.

Definition srev (s : string) : string := srev_onto s EmptyString.

Fixpoint lstrip (s : string) : string :=
  match s with
  | EmptyString => EmptyString
  | String c s' => if py_isspace c then lstrip s' else s
  end.

Definition rstrip (s : string) : string := srev (lstrip (srev s)).

(** [s.strip()] *)
Definition strip (s : string) : string := rstrip (lstrip s).

(** [s.startswith(p)] *)
Definition startswith (s p : string) : bool := String.prefix p s.

(** [s.endswith(p)] *)
Definition endswith (s p : string) : bool := String.prefix (srev p) (srev s).

Fixpoint sdrop (n : nat) (s : string) : string :=
  match n, s with
  | 0, _ => s
  | S n', String _ s' => sdrop n' s'
  | S _, EmptyString => EmptyString
  end.

Fixpoint stake (n : nat) (s : string) : string :=
  match n, s with
  | 0, _ => EmptyString
  | S n', String c s' => String c (stake n' s')
  | S _, EmptyString => EmptyString
  end.

(** [s[:-n]] for a positive [n] *)
Definition drop_end (n : nat) (s : string) : string :=
  stake (String.length s - n) s.

(** [sub in s] *)
Fixpoint contains (sub s : string) : bool :=
  String.prefix sub s ||
  match s with
  | EmptyString => false
  | String _ s' => contains sub s'
  end.

(** The straight double quote *)
Definition dquote : ascii := "034"%char.

(** [s] between straight double quotes *)
Definition quoted_text (s : string) : string :=
  String dquote (String.append s (String dquote EmptyString)).

(** [str(n)] for a non-negative integer *)
Definition str_of_nat (n : nat) : string :=
  NilZero.string_of_uint (Nat.to_uint n).

(** [sep.join(l)] *)
Definition join (sep : string) (l : list string) : string := String.concat sep l.

(** Python truthiness of a string, and of an optional string *)
Definition truthy (s : string) : bool := negb (String.eqb s EmptyString).

Definition truthy_opt (o : option string) : bool :=
  match o with
  | Some s => truthy s
  | None => false
  end.

(** [x in l] for a list of strings *)
Definition mem (x : string) (l : list string) : bool :=
  existsb (String.eqb x) l.

End PyStr.

(* ===================================================================== *)
(** * The regular-expression fragment used by the program *)
(* ===================================================================== *)

(** A backtracking matcher returns its successes in the order in which
    Python's engine would try them; the first success is the match.  Every
    repetition in the program's patterns ranges over a character class, so
    [Star] and [Plus] take a class. *)

Module Re.
Import PyStr.

Inductive regex : Type :=
| Eps                                   (* the empty pattern *)
| Chr (p : ascii -> bool)               (* one character of a class *)
| Seq (r1 r2 : regex)                   (* r1 r2 *)
| Star (p : ascii -> bool)              (* [p]*  , greedy *)
| Plus (p : ascii -> bool)              (* [p]+  , greedy *)
| Opt (r : regex)                       (* r?    , greedy *)
| Grp (n : nat) (r : regex)             (* capturing group number n *)
| NotAhead (r : regex)                  (* (?!r) *)
| Eos.                                  (* $ without MULTILINE *)

(** Character classes *)
Definition lit (c : ascii) : ascii -> bool := Ascii.eqb c.
Definition lit_ci (c : ascii) : ascii -> bool :=
  fun a => Ascii.eqb (lower_char a) (lower_char c).
Definition one_of (cs : string) : ascii -> bool :=
  fun a => contains (String a EmptyString) cs.
Definition none_of (cs : string) : ascii -> bool :=
  fun a => negb (one_of cs a).
(** [.] matches everything but a line feed *)
Definition dot : ascii -> bool := fun a => negb (Ascii.eqb a "010"%char).

(** A literal word, matched exactly or ignoring case *)
Fixpoint word (s : string) : regex :=
  match s with
  | EmptyString => Eps
  | String c s' => Seq (Chr (lit c)) (word s')
  end.

Fixpoint word_ci (s : string) : regex :=
  match s with
  | EmptyString => Eps
  | String c s' => Seq (Chr (lit_ci c)) (word_ci s')
  end.

Fixpoint rseq (rs : list regex) : regex :=
  match rs with
  | [] => Eps
  | r :: rs' => Seq r (rseq rs')
  end.

(** Captured groups, most recent first *)
Definition caps : Type := list (nat * string).

Fixpoint group (n : nat) (c : caps) : option string :=
  match c with
  | [] => None
  | (k, v) :: c' => if Nat.eqb k n then Some v else group n c'
  end.

(** The suffixes left after [p]*, longest repetition first *)
Fixpoint star_rests (p : ascii -> bool) (s : string) : list string :=
  match s with
  | EmptyString => [EmptyString]
  | String c s' => if p c then star_rests p s' ++ [s] else [s]
  end.

(** What a match consumed, given the text before and the text left *)
Definition consumed (s rest : string) : string :=
  stake (String.length s - String.length rest) s.

(** All ways of matching [r] at the head of [s], in priority order *)
Fixpoint run (r : regex) (c : caps) (s : string) : list (caps * string) :=
  match r with
  | Eps => [(c, s)]
  | Chr p =>
      match s with
      | String a s' => if p a then [(c, s')] else []
      | EmptyString => []
      end
  | Seq r1 r2 => flat_map (fun x => run r2 (fst x) (snd x)) (run r1 c s)
  | Star p => map (fun rest => (c, rest)) (star_rests p s)
  | Plus p =>
      match s with
      | String a s' => if p a then map (fun rest => (c, rest)) (star_rests p s') else []
      | EmptyString => []
      end
  | Opt r1 => run r1 c s ++ [(c, s)]
  | Grp n r1 => map (fun x => ((n, consumed s (snd x)) :: fst x, snd x)) (run r1 c s)
  | NotAhead r1 =>
      match run r1 c s with
      | [] => [(c, s)]
      | _ :: _ => []
      end
  | Eos =>
      match s with
      | EmptyString => [(c, s)]
      | String "010" EmptyString => [(c, s)]
      | _ => []
      end
  end.

(** [re.match]: the groups of the first success at the start of the text *)
Definition re_match (r : regex) (s : string) : option (caps * string) :=
  head (run r [] s).

(** [re.search]: the leftmost position with a success; returns the text
    before the match, the groups, and the text after the match *)
Fixpoint search_from (r : regex) (before s : string) : option (string * caps * string) :=
  match head (run r [] s) with
  | Some (c, rest) => Some (srev before, c, rest)
  | None =>
      match s with
      | EmptyString => None
      | String a s' => search_from r (String a before) s'
      end
  end.

Definition re_search (r : regex) (s : string) : option (string * caps * string) :=
  search_from r EmptyString s.

(** [re.split(r, s, maxsplit=1)] for a pattern without groups *)
Definition re_split1 (r : regex) (s : string) : list string :=
  match re_search r s with
  | Some (pre, _, post) => [pre; post]
  | None => [s]
  end.

(** [re.split(r, s)] for a pattern without groups whose matches are never
    empty; the fuel bounds the number of pieces by the length of the text *)
Fixpoint split_fuel (fuel : nat) (r : regex) (s : string) : list string :=
  match fuel with
  | 0 => [s]
  | S fuel' =>
      match re_search r s with
      | Some (pre, _, post) => pre :: split_fuel fuel' r post
      | None => [s]
      end
  end.

Definition re_split (r : regex) (s : string) : list string :=
  split_fuel (String.length s) r s.

End Re.

(* ===================================================================== *)
(** * Tables read by pandas *)
(* ===================================================================== *)

Module Pandas.

(** A cell of a pandas table: [None] for NaN, otherwise the text that
    [str()] gives for the value *)
Definition pdcell : Type := option string.

(** [row.iloc[col_idx]].  Tables are rectangular and the program takes its
    column indices from the table itself, so it never indexes outside a row;
    the model reads such a position as a missing value. *)
Definition iloc (row : list pdcell) (col_idx : nat) : pdcell :=
  match row !! col_idx with
  | Some v => v
  | None => None
  end.

(** [series.dropna()] *)
Definition dropna (series : list pdcell) : list string :=
  omap id series.

End Pandas.

(* ===================================================================== *)
(** * Step 1: question-structure inference *)
(* ===================================================================== *)

Module Cleaning.
Import PyStr Re Pandas.

(** [METADATA_TOKENS] *)
Definition METADATA_TOKENS : list string :=
  [ "answer choices"; "answered"; "skipped"; "responses"; "response";
    "average"; "total"; "base"; "count"; "%"; "weighted base";
    "unweighted base" ].

(** [is_metadata_text] *)
Definition is_metadata_text (s : string) : bool :=
  if negb (truthy s) then false
  else mem (lower (strip s)) METADATA_TOKENS.

(** [QUESTION_RE], compiled with IGNORECASE: optional blanks, the letter Q,
    optional blanks, group 1 of one or more digits, optional blanks, at most
    one of the punctuation marks . ) : - , optional blanks, group 2 of any
    characters but a line feed, end of text. *)
Definition QUESTION_RE : regex :=
  rseq [ Star py_isspace; Chr (lit_ci "Q"); Star py_isspace;
        Grp 1 (Plus is_digit); Star py_isspace;
        Opt (Chr (one_of ".):-")); Star py_isspace;
        Grp 2 (Star dot); Eos ].

(** [is_question_row] *)
Definition is_question_row (text : string) : bool :=
  match re_match QUESTION_RE text with
  | Some _ => true
  | None => false
  end.

(** [parse_question_row], second component: the question text.  [None] is
    Python's [None]. *)
Definition parse_question_row (text : string) : option string :=
  match re_match QUESTION_RE text with
  | None => None
  | Some (c, _) =>
      match group 2 c with
      | Some g => Some (strip g)
      | None => None
      end
  end.

Definition SINGLE_KEYWORDS : list string :=
  [ "single selection"; "single choice"; "single select";
    "select one"; "[single"; "unaided single" ].

Definition MULTIPLE_KEYWORDS : list string :=
  [ "multiple selection"; "multiple choice"; "multiple select";
    "multi selection"; "multi select"; "[multiple"; "[multi";
    "aided multiple"; "unaided multiple" ].

(** [for keyword in kws: if keyword in q_lower] *)
Definition any_keyword (kws : list string) (q_lower : string) : bool :=
  existsb (fun keyword => contains keyword q_lower) kws.

(** [get_auto_type] *)
Definition get_auto_type (q_text : string) (rank_labels options : list string)
    (is_bipolar : bool) : string :=
  if is_bipolar then "Bipolar"
  else match rank_labels with
  | _ :: _ => "Matrix"
  | [] =>
      let q_lower := lower q_text in
      if any_keyword SINGLE_KEYWORDS q_lower then "Single"
      else if any_keyword MULTIPLE_KEYWORDS q_lower then "Multiple"
      else ""
  end.

(** The two endpoint patterns of [expand_nps_if_needed], compiled with
    IGNORECASE: the numeral, one or more blanks, the word mean with an
    optional s, one or more blanks, an optional opening quote, and group 1 of
    one or more characters other than a closing quote.  The typographic
    quotes U+201C and U+201D do not occur in ASCII text, which leaves the
    straight quote in both classes. *)
Definition MEANS_RE (numeral : string) : regex :=
  rseq [ word numeral; Plus py_isspace; word_ci "mean"; Opt (Chr (lit_ci "s"));
        Plus py_isspace; Opt (Chr (lit dquote));
        Grp 1 (Plus (none_of (String dquote EmptyString))) ].

(** [labels[key] = f"{key}- {match.group(1).strip()}"] when the pattern is found *)
Definition endpoint_label (key q_text : string) (labels : gmap string string)
    : gmap string string :=
  match re_search (MEANS_RE key) q_text with
  | Some (_, c, _) =>
      match group 1 c with
      | Some g => <[ key := key +:+ "- " +:+ strip g ]> labels
      | None => labels
      end
  | None => labels
  end.

(** [expand_nps_if_needed] *)
Definition expand_nps_if_needed (q_text : string) (options : list string)
    : list string :=
  let q_lower := lower q_text in
  if contains "1 to 10" q_lower || contains "1-10" q_lower
     || contains "scale of 0 to 10" q_lower
  then
    let labels := endpoint_label "10" q_text (endpoint_label "1" q_text ∅) in
    map (fun i =>
           let key := str_of_nat i in
           match labels !! key with
           | Some l => l
           | None => key
           end)
        (List.seq 1 10)
  else options.

(** ** The segmenter *)

(** What Python's [float(s)] makes of a text that it accepts *)
Inductive float_kind : Type :=
| FloatIntegral      (* a finite value without fractional part *)
| FloatFractional    (* a finite value with a fractional part *)
| FloatInf           (* an infinity *)
| FloatNan.          (* a NaN *)

(** A parsed question, as appended to [questions] *)
Record question : Type := mk_question {
  q_text : string;
  options : list string;
  rank_labels : list string;
  is_bipolar : bool
}.

(** The variables of the main loop *)
Record seg_state : Type := mk_seg_state {
  questions : list question;
  current_q_text : option string;
  current_options : list string;
  current_rank_labels : list string;
  current_is_bipolar : bool;
  in_question : bool;
  idx : nat
}.

Definition nonempty {A : Type} (l : list A) : bool :=
  match l with
  | [] => false
  | _ :: _ => true
  end.

(** [str(row.iloc[0]).strip() if pd.notna(row.iloc[0]) else ""] *)
Definition first_text (row : list pdcell) : string :=
  match iloc row 0 with
  | Some v => strip v
  | None => ""
  end.

(** The flush written out three times in [clean_and_convert] and named
    [_flush] in [_parse_questions_from_file]: the list of questions after it *)
Definition flush (st : seg_state) : list question :=
  match current_q_text st with
  | Some text =>
      if truthy text && (nonempty (current_options st) || nonempty (current_rank_labels st))
      then
        let opts :=
          if nonempty (current_rank_labels st) then current_options st
          else expand_nps_if_needed text (current_options st) in
        questions st ++ [mk_question text opts (current_rank_labels st)
                                     (current_is_bipolar st)]
      else questions st
  | None => questions st
  end.

Section Segmenter.

(** Python's [float]: [None] is ValueError *)
Variable parse_float : string -> option float_kind.

(** [is_bipolar_sub_label] *)
Definition is_bipolar_sub_label (first_cell : string) (next_row : list pdcell) : bool :=
  if negb (truthy first_cell) || is_question_row first_cell then false
  else if negb (contains " or " (lower first_cell)) then false
  else
    let next_col0 := first_text next_row in
    let next_col1 :=
      if 1 <? length next_row then
        match iloc next_row 1 with
        | Some v => strip v
        | None => ""
        end
      else "" in
    if truthy next_col0 then false
    else if negb (truthy next_col1) then false
    else
      match parse_float next_col1 with
      | Some _ => false
      | None => true
      end.

(** The pole scan of [detect_bipolar_question] over the cells of columns 1
    to 19 of the row below the first sub-label *)
Fixpoint scan_poles (cells : list pdcell) : list string :=
  match cells with
  | [] => []
  | None :: rest => scan_poles rest
  | Some v :: rest =>
      let val_str := strip v in
      if String.eqb (lower val_str) "total" then []
      else if negb (is_metadata_text val_str) then
        match parse_float val_str with
        | Some _ => scan_poles rest
        | None => val_str :: scan_poles rest
        end
      else scan_poles rest
  end.

(** [cells] of columns 1 to [bound - 1], what [range(1, min(bound, len(row)))] visits *)
Definition columns_upto (bound : nat) (row : list pdcell) : list pdcell :=
  take (bound - 1) (drop 1 row).

(** The loop of [detect_bipolar_question] over the rows below the header *)
Fixpoint bipolar_scan (rows : list (list pdcell)) (sub_labels : list string)
    (poles : option (string * string)) : list string * option (string * string) :=
  match rows with
  | [] => (sub_labels, poles)
  | row :: rest =>
      let first := first_text row in
      if is_question_row first then (sub_labels, poles)
      else
        match rest with
        | next :: _ =>
            if is_bipolar_sub_label first next then
              let poles' :=
                match poles with
                | Some _ => poles
                | None =>
                    match scan_poles (columns_upto 20 next) with
                    | p1 :: p2 :: _ => Some (p1, p2)
                    | _ => None
                    end
                end in
              bipolar_scan rest (sub_labels ++ [first]) poles'
            else bipolar_scan rest sub_labels poles
        | [] => bipolar_scan rest sub_labels poles
        end
  end.

(** [detect_bipolar_question] *)
Definition detect_bipolar_question (df : list (list pdcell)) (q_start_idx : nat)
    : list string * option (string * string) :=
  bipolar_scan (drop (q_start_idx + 1) df) [] None.

(** [is_scale_value]; [None] is the OverflowError that [int(f)] raises on an
    infinity, which the function does not catch *)
Definition is_scale_value (val_clean : string) : option bool :=
  if isdigit val_clean then Some true
  else if contains "-" val_clean then Some true
  else
    match parse_float val_clean with
    | Some FloatIntegral => Some true
    | Some FloatFractional => Some false
    | Some FloatNan => Some false
    | Some FloatInf => None
    | None => Some false
    end.

(** [extract_scale] of [detect_horizontal_scale], over the cells of columns
    1 to 29 *)
Fixpoint extract_scale (cells : list pdcell) : option (list string) :=
  match cells with
  | [] => Some []
  | None :: rest => extract_scale rest
  | Some v :: rest =>
      let val_clean := strip v in
      if mem (lower val_clean) ["total"; "weighted average"] then Some []
      else
        match is_scale_value val_clean with
        | None => None
        | Some true =>
            match extract_scale rest with
            | Some scale_values => Some (val_clean :: scale_values)
            | None => None
            end
        | Some false => extract_scale rest
        end
  end.

(** [detect_horizontal_scale] *)
Definition detect_horizontal_scale (df : list (list pdcell)) (idx : nat)
    : option (list string) :=
  match df !! idx with
  | None => Some []
  | Some row =>
      match extract_scale (columns_upto 30 row) with
      | None => None
      | Some scale =>
          if 3 <=? length scale then Some scale
          else
            match df !! (idx + 1) with
            | None => Some []
            | Some next =>
                match extract_scale (columns_upto 30 next) with
                | None => None
                | Some scale' => if 3 <=? length scale' then Some scale' else Some []
                end
            end
      end
  end.

(** The rank scan of the matrix detection over the cells of columns 1 to 29
    of the row below the header *)
Fixpoint scan_ranks (cells : list pdcell) : list string :=
  match cells with
  | [] => []
  | None :: rest => scan_ranks rest
  | Some v :: rest =>
      let val_clean := strip v in
      if String.eqb (lower val_clean) "total" then []
      else if negb (is_metadata_text val_clean) then val_clean :: scan_ranks rest
      else scan_ranks rest
  end.

(** The attribute scan of the matrix detection over the rows from [idx + 2] *)
Fixpoint scan_attributes (rows : list (list pdcell)) : list string :=
  match rows with
  | [] => []
  | row :: rest =>
      match iloc row 0 with
      | None => []
      | Some v =>
          let attr := strip v in
          if is_question_row attr then []
          else if negb (is_metadata_text attr) then attr :: scan_attributes rest
          else scan_attributes rest
      end
  end.

(** The matrix detection: the options and rank labels it assigns *)
Definition detect_matrix (df : list (list pdcell)) (idx : nat)
    : list string * list string :=
  match df !! (idx + 1) with
  | None => ([], [])
  | Some next_row =>
      let ranks := scan_ranks (columns_upto 30 next_row) in
      if 2 <=? length ranks then
        let attributes := scan_attributes (drop (idx + 2) df) in
        if 2 <=? length attributes then (attributes, ranks) else ([], [])
      else ([], [])
  end.

(** The look-ahead loop of the bipolar branch: the index of the next header
    row, or [len(df)] *)
Fixpoint skip_to_question (rows : list (list pdcell)) (skip_to : nat) : nat :=
  match rows with
  | [] => skip_to
  | row :: rest =>
      if is_question_row (first_text row) then skip_to
      else skip_to_question rest (skip_to + 1)
  end.

(** [pole or default] *)
Definition or_default (pole : option string) (default : string) : string :=
  match pole with
  | Some p => if truthy p then p else default
  | None => default
  end.

(** The header branch of the loop body, after the flush *)
Definition header_step (df : list (list pdcell)) (st : seg_state) (first_cell : string)
    : option seg_state :=
  let qs := flush st in
  let text := parse_question_row first_cell in
  let bipolar := detect_bipolar_question df (idx st) in
  let bipolar_labels := fst bipolar in
  if nonempty bipolar_labels then
    let ranks := [ or_default (fst <$> snd bipolar) "Pole_1";
                   or_default (snd <$> snd bipolar) "Pole_2" ] in
    Some (mk_seg_state qs text bipolar_labels ranks true true
            (skip_to_question (drop (idx st + 1) df) (idx st + 1)))
  else
    let matrix := detect_matrix df (idx st) in
    if nonempty (snd matrix) then
      Some (mk_seg_state qs text (fst matrix) (snd matrix) false true (idx st + 1))
    else
      match detect_horizontal_scale df (idx st) with
      | None => None
      | Some scale =>
          let opts := if nonempty scale then scale else fst matrix in
          Some (mk_seg_state qs text opts [] false true (idx st + 1))
      end.

(** One iteration of [while idx < len(df)]; [None] is an exception *)
Definition step (df : list (list pdcell)) (st : seg_state) : option seg_state :=
  match df !! idx st with
  | None => Some st
  | Some row =>
      let first_cell := first_text row in
      if negb (truthy first_cell) then
        Some (mk_seg_state (flush st) None [] [] false false (idx st + 1))
      else if is_question_row first_cell then header_step df st first_cell
      else if in_question st && negb (nonempty (current_rank_labels st)) then
        let opts :=
          if negb (is_metadata_text first_cell)
             && negb (String.eqb (lower first_cell) "answer choices")
          then (current_options st ++ [first_cell])%list
          else current_options st in
        Some (mk_seg_state (questions st) (current_q_text st) opts
                (current_rank_labels st) (current_is_bipolar st) (in_question st)
                (idx st + 1))
      else
        Some (mk_seg_state (questions st) (current_q_text st) (current_options st)
                (current_rank_labels st) (current_is_bipolar st) (in_question st)
                (idx st + 1))
  end.

(** The loop; every iteration advances [idx], so [len(df)] iterations are
    enough (see [segment_loop_reaches_end]) *)
Fixpoint segment_loop (fuel : nat) (df : list (list pdcell)) (st : seg_state)
    : option seg_state :=
  if length df <=? idx st then Some st
  else
    match fuel with
    | 0 => Some st
    | S fuel' =>
        match step df st with
        | Some st' => segment_loop fuel' df st'
        | None => None
        end
    end.

Definition initial_state : seg_state :=
  mk_seg_state [] None [] [] false false 0.

(** The question list that both [clean_and_convert] and
    [_parse_questions_from_file] build from the grid *)
Definition parse_questions (df : list (list pdcell)) : option (list question) :=
  match segment_loop (length df) df initial_state with
  | Some st => Some (flush st)
  | None => None
  end.

(** [_parse_questions_from_file]: each question with its [auto_type] *)
Definition _parse_questions_from_file (df : list (list pdcell))
    : option (list (question * string)) :=
  match parse_questions df with
  | Some qs =>
      Some (map (fun q => (q, get_auto_type (q_text q) (rank_labels q) (options q)
                                            (is_bipolar q))) qs)
  | None => None
  end.

End Segmenter.

End Cleaning.

(* ===================================================================== *)
(** * Step 2: option loading and the tabulation engine *)
(* ===================================================================== *)

Module Tabulation.
Import PyStr Re Pandas.

(** The separator pattern of [load_options_file], compiled with IGNORECASE:
    one or more blanks, the word or, one or more blanks. *)
Definition OR_RE : regex :=
  rseq [ Plus py_isspace; word_ci "or"; Plus py_isspace ].

(** One iteration of the pole-pair loop of [load_options_file].  [None] is
    the IndexError of [parts[1]] when the split finds no separator. *)
Definition pole_pair (opt : string) : option (string * string) :=
  if contains " or " (lower opt) then
    match re_split1 OR_RE opt with
    | p0 :: p1 :: _ => Some (strip p0, strip p1)
    | _ => None
    end
  else Some (opt, "").

(** The pole-pair loop of [load_options_file] for a Bipolar question *)
Fixpoint pole_pairs (options : list string) : option (list (string * string)) :=
  match options with
  | [] => Some []
  | opt :: rest =>
      match pole_pair opt, pole_pairs rest with
      | Some pp, Some pps => Some (pp :: pps)
      | _, _ => None
      end
  end.

(** [group.drop_duplicates(subset=['Option'], keep='first')] on the Option
    column of the group; pandas counts two missing values as duplicates *)
Fixpoint drop_duplicates (column : list pdcell) : list pdcell :=
  match column with
  | [] => []
  | v :: rest =>
      v :: List.filter (fun w => negb (bool_decide (w = v))) (drop_duplicates rest)
  end.

(** [options = [str(opt).strip() for opt in group['Option'].dropna().tolist()]]
    on the Option column of the de-duplicated group *)
Definition load_options (column : list pdcell) : list string :=
  map strip (dropna (drop_duplicates column)).

(** The splitting pattern of [split_multi_select_options]: a comma,
    optional blanks, and a negative look-ahead for a run of characters other
    than parentheses followed by a closing parenthesis. *)
Definition SPLIT_RE : regex :=
  rseq [ Chr (lit ","); Star py_isspace;
         NotAhead (Seq (Star (none_of "()")) (Chr (lit ")"))) ].

(** [split_multi_select_options] *)
Definition split_multi_select_options (text : string) : list string :=
  let parts := re_split SPLIT_RE text in
  List.filter truthy (map strip parts).

(** ** The respondent table *)

(** [question_info]: the main column and its continuation columns *)
Record question_info : Type := mk_question_info {
  main_col_idx : nat;
  unnamed_cols : list nat
}.

(** [pd.notna(v) and str(v).strip()] as a condition, with the stripped text *)
Definition stripped_text (v : pdcell) : option string :=
  match v with
  | Some t => if truthy (strip t) then Some (strip t) else None
  | None => None
  end.

(** One row of [merge_unnamed_columns] *)
Definition merge_row (q : question_info) (row : list pdcell) : pdcell :=
  let values :=
    omap (fun idx => stripped_text (iloc row idx)) (main_col_idx q :: unnamed_cols q) in
  match values with
  | [] => None
  | _ :: _ => Some (join ", " values)
  end.

(** [merge_unnamed_columns] *)
Definition merge_unnamed_columns (df : list (list pdcell)) (q : question_info)
    : list pdcell :=
  map (merge_row q) df.

(** [option_counts.get(option, 0)] for [option_counts = values.value_counts()] *)
Definition count_of (opt : string) (values : list string) : nat :=
  length (List.filter (fun v => String.eqb v opt) values).

(** The keys of [value_counts()]: distinct values, by first occurrence *)
Fixpoint distinct (values : list string) : list string :=
  match values with
  | [] => []
  | v :: rest => v :: List.filter (fun w => negb (String.eqb w v)) (distinct rest)
  end.

(** A stable insertion of [x] in a list kept by decreasing key *)
Fixpoint insert_desc {A : Type} (key : A -> nat) (x : A) (l : list A) : list A :=
  match l with
  | [] => [x]
  | y :: l' => if key y <=? key x then x :: l else y :: insert_desc key x l'
  end.

(** [l.sort(key=key, reverse=True)], which is stable *)
Definition sort_desc {A : Type} (key : A -> nat) (l : list A) : list A :=
  fold_right (insert_desc key) [] l.

(** [values.value_counts()]: the distinct values with their counts, most
    frequent first *)
Definition value_counts (values : list string) : list (string * nat) :=
  sort_desc snd (map (fun v => (v, count_of v values)) (distinct values)).

(** ** Matrix column mapping *)

(** [raw.split(sep, 1)] when [sep] occurs: the text before the first
    occurrence and the text after it *)
Fixpoint split_first (sep s : string) : option (string * string) :=
  if String.prefix sep s then Some ("", sdrop (String.length sep) s)
  else
    match s with
    | EmptyString => None
    | String c s' =>
        match split_first sep s' with
        | Some (a, b) => Some (String c a, b)
        | None => None
        end
    end.

(** An entry of [column_mapping]; the rank label is [None] for a
    single-select matrix *)
Record column_map : Type := mk_column_map {
  cm_col_idx : nat;
  cm_attribute : string;
  cm_rank_label : option string
}.

(** [is_multi_select_matrix]: at least one of the first ten columns, and at
    least half of them, carry the separator in their sub-header *)
Definition is_multi_select_matrix (sub_headers : list pdcell) (all_cols : list nat)
    : bool :=
  let sample_cols := take (Nat.min 10 (length all_cols)) all_cols in
  let combined_separators :=
    length (List.filter (fun col_idx =>
                           match iloc sub_headers col_idx with
                           | Some h => contains " - " h
                           | None => false
                           end) sample_cols) in
  (1 <=? combined_separators) && (length sample_cols <=? 2 * combined_separators).

(** The mapping loop of a multi-select matrix *)
Definition map_combined (rank_labels : list string) (sub_headers : list pdcell)
    (col_idx : nat) : option column_map :=
  match iloc sub_headers col_idx with
  | None => None
  | Some header_val =>
      let raw := strip header_val in
      match split_first " - " raw with
      | None => None
      | Some (l, r) =>
          let left := strip l in
          let right := strip r in
          if mem left rank_labels then Some (mk_column_map col_idx right (Some left))
          else if mem right rank_labels then Some (mk_column_map col_idx left (Some right))
          else Some (mk_column_map col_idx right (Some left))
      end
  end.

(** The mapping loop of a single-select matrix *)
Definition map_simple (sub_headers : list pdcell) (col_idx : nat) : option column_map :=
  match iloc sub_headers col_idx with
  | None => None
  | Some header_val =>
      let attribute := strip header_val in
      if truthy attribute then Some (mk_column_map col_idx attribute None) else None
  end.

(** [column_mapping] *)
Definition column_mapping (multi : bool) (rank_labels : list string)
    (sub_headers : list pdcell) (all_cols : list nat) : list column_map :=
  if multi then omap (map_combined rank_labels sub_headers) all_cols
  else omap (map_simple sub_headers) all_cols.

(** [count] of one matrix cell: the double loop over rows and matching columns *)
Definition matrix_count (multi : bool) (df : list (list pdcell))
    (mapping : list column_map) (option_attribute rank_label : string) : nat :=
  let matching_cols :=
    if multi then
      map cm_col_idx
        (List.filter (fun cm => String.eqb (cm_attribute cm) option_attribute
                                && match cm_rank_label cm with
                                   | Some l => String.eqb l rank_label
                                   | None => false
                                   end) mapping)
    else
      map cm_col_idx
        (List.filter (fun cm => String.eqb (cm_attribute cm) option_attribute) mapping) in
  let hit (val : pdcell) : bool :=
    match val with
    | None => false
    | Some t => if multi then truthy (strip t) else String.eqb (strip t) rank_label
    end in
  length (flat_map (fun row =>
                      List.filter (fun col_idx => hit (iloc row col_idx)) matching_cols)
                   df).

(** ** Percentages *)

(** Binary floating point is kept abstract: the development holds for every
    interpretation of the float type, of the quotient of two integers, of
    the product with 100 and of [round(x, 1)]. *)

Section Percent.

Context {F : Type}.
Variable float_zero : F.               (* the literal 0.0 *)
Variable fdiv : nat -> nat -> F.       (* a / b for a non-zero b *)
Variable fmul100 : F -> F.             (* x * 100 *)
Variable round1 : F -> F.              (* round(x, 1) *)

(** [a / b]; [None] is ZeroDivisionError *)
Definition truediv (a b : nat) : option F :=
  if b =? 0 then None else Some (fdiv a b).

(** [round((count / base) * 100, 1) if base > 0 else 0.0] *)
Definition percentage (count base : nat) : option F :=
  if 0 <? base then
    match truediv count base with
    | Some q => Some (round1 (fmul100 q))
    | None => None
    end
  else Some float_zero.

(** An entry of the result list of a flat question *)
Record result : Type := mk_result {
  r_option : string;
  r_count : nat;
  r_percentage : F;
  r_base : nat
}.

Definition make_result (opt : string) (count total_base : nat) : option result :=
  match percentage count total_base with
  | Some pct => Some (mk_result opt count pct total_base)
  | None => None
  end.

(** The two result loops shared by [process_single_select] and
    [process_multi_select] *)
Definition build_results (values : list string) (total_base : nat)
    (options : list string) : option (list result) :=
  match options with
  | _ :: _ =>
      mapM (fun opt => make_result opt (count_of opt values) total_base) options
  | [] =>
      match mapM (fun oc => make_result (fst oc) (snd oc) total_base)
                 (value_counts values) with
      | Some results => Some (sort_desc r_count results)
      | None => None
      end
  end.

(** [series_clean] of [process_single_select] *)
Definition series_clean (series : list pdcell) : list string :=
  List.filter (fun v => truthy (strip v))
    (List.filter (fun v => negb (String.eqb v "Open-Ended Response"))
       (List.filter (fun v => negb (String.eqb v "Response")) (dropna series))).

(** [process_single_select] *)
Definition process_single_select (series : list pdcell) (options : list string)
    : option (list result) :=
  let clean := series_clean series in
  let total_base := length clean in
  build_results clean total_base options.

(** The cells of [process_multi_select] whose tokens are counted *)
Definition countable_cell (val : string) : bool :=
  let val_str := strip val in
  truthy val_str && negb (mem val_str ["Response"; "Open-Ended Response"]).

(** [all_options] of [process_multi_select] *)
Definition all_options (series : list pdcell) : list string :=
  flat_map (fun val =>
              if countable_cell val then split_multi_select_options (strip val) else [])
           (dropna series).

(** [process_multi_select] *)
Definition process_multi_select (series : list pdcell) (options : list string)
    : option (list result) :=
  let total_base := length (dropna series) in
  build_results (all_options series) total_base options.

(** A cell of the matrix table *)
Record matrix_cell : Type := mk_matrix_cell {
  m_count : nat;
  m_percentage : F
}.

(** The result of [process_matrix]; each row of [m_data] lists its cells in
    the order of the rank labels *)
Record matrix_result : Type := mk_matrix_result {
  m_attributes : list string;
  m_rank_labels : list string;
  m_data : list (string * list (string * matrix_cell));
  m_base : nat;
  m_column_mapping : list column_map;
  m_is_multi : bool
}.

(** [process_matrix]; [sub_headers] is row 1 of [df_full] *)
Definition process_matrix (df : list (list pdcell)) (sub_headers : list pdcell)
    (q : question_info) (options rank_labels : list string) : option matrix_result :=
  let all_cols := main_col_idx q :: unnamed_cols q in
  let multi := is_multi_select_matrix sub_headers all_cols in
  let mapping := column_mapping multi rank_labels sub_headers all_cols in
  let total_responses := length df in
  let matrix_data :=
    mapM (fun option_attribute =>
            match
              mapM (fun rank_label =>
                      let count := matrix_count multi df mapping option_attribute rank_label in
                      match percentage count total_responses with
                      | Some pct => Some (rank_label, mk_matrix_cell count pct)
                      | None => None
                      end) rank_labels
            with
            | Some row_data => Some (option_attribute, row_data)
            | None => None
            end) options in
  match matrix_data with
  | Some data =>
      Some (mk_matrix_result options rank_labels data total_responses mapping multi)
  | None => None
  end.

End Percent.

End Tabulation.

(* ===================================================================== *)
(** * The cuts engine: formula mutation and column layout *)
(* ===================================================================== *)

Module Cuts.
Import PyStr Re.

(** [get_column_letter] of openpyxl, computed by the bijective base-26 loop
    of the program's own [get_excel_column_letter]; the two agree on the
    column numbers 1 to 18278 that openpyxl accepts.  The fuel bounds the
    number of letters. *)
Fixpoint column_letter_fuel (fuel col_num : nat) (letter : string) : string :=
  match fuel with
  | 0 => letter
  | S fuel' =>
      if col_num =? 0 then letter
      else
        let q := (col_num - 1) / 26 in
        let remainder := (col_num - 1) mod 26 in
        column_letter_fuel fuel' q (String (ascii_of_nat (65 + remainder)) letter)
  end.

Definition get_column_letter (col_num : nat) : string :=
  column_letter_fuel col_num col_num "".

(** The range of the cut column on the raw-data sheet, rows 3 to 8000 *)
Definition raw_range (col_letter : string) : string :=
  "'Raw Data'!$" +:+ col_letter +:+ "$3:$" +:+ col_letter +:+ "$8000".

(** [add_demographic_filter_to_formula] *)
Definition add_demographic_filter_to_formula
    (formula cut_raw_col_letter header_cell_ref : string) : string :=
  if negb (truthy formula) then formula
  else
    let f_str := formula in
    let f_str_body := if startswith f_str "=" then sdrop 1 f_str else f_str in
    if negb (endswith f_str_body ")") then formula
    else
      let extra := ", " +:+ raw_range cut_raw_col_letter +:+ "," +:+ header_cell_ref +:+ ")" in
      "=" +:+ drop_end 1 f_str_body +:+ extra.

(** [modify_multiple_select_n_formula] *)
Definition modify_multiple_select_n_formula
    (base_formula cut_raw_col_letter header_cell_ref : string) : string :=
  if negb (truthy base_formula) then base_formula
  else
    let f_str := strip base_formula in
    if negb (startswith (upper f_str) "=SUMPRODUCT") then base_formula
    else if negb (endswith f_str "*1)") then base_formula
    else
      let formula_body := drop_end 3 f_str in
      let demographic_filter :=
        "*(" +:+ raw_range cut_raw_col_letter +:+ "=" +:+ header_cell_ref +:+ ")" in
      formula_body +:+ demographic_filter +:+ "*1)".

(** ** The results sheet *)

(** A cell value: a text (label or formula) or an integer.  An empty cell
    (Python's [None]) is the absence of a binding.  Styles are not modelled. *)
Inductive value : Type :=
| VStr (s : string)
| VInt (n : nat).

Abbreviation sheet := (gmap (nat * nat) value).

(** [ws.cell(row, col).value] *)
Definition cell (ws : sheet) (row col : nat) : option value := ws !! (row, col).

(** [ws.cell(row, col).value = v] *)
Definition assign (ws : sheet) (row col : nat) (v : option value) : sheet :=
  match v with
  | Some x => <[ (row, col) := x ]> ws
  | None => delete (row, col) ws
  end.

(** [ws.cell(row, col, value=v)]: openpyxl leaves the cell as it is when
    [v] is [None] *)
Definition cell_with (ws : sheet) (row col : nat) (v : option value) : sheet :=
  match v with
  | Some x => <[ (row, col) := x ]> ws
  | None => ws
  end.

(** [isinstance(v, str) and v.startswith(p)] *)
Definition str_startswith (v : option value) (p : string) : bool :=
  match v with
  | Some (VStr s) => startswith s p
  | _ => false
  end.

(** [str(v or "")] *)
Definition str_or_empty (v : option value) : string :=
  match v with
  | Some (VStr s) => s
  | Some (VInt 0) => ""
  | Some (VInt n) => str_of_nat n
  | None => ""
  end.

(** [range(a, b)] *)
Definition range (a b : nat) : list nat := List.seq a (b - a).

(** A question block as [find_question_blocks] records it *)
Record block : Type := mk_block {
  header_row : nat;
  first_option_row : nat;
  last_option_row : nat;
  n_row : nat;
  q_type : string;
  is_matrix : bool;
  is_bipolar : bool;
  num_rating_cols : nat
}.

(** A cut as [load_cuts_from_template] returns it *)
Record cut : Type := mk_cut {
  cut_index : option nat;
  cut_raw_col_index : nat;
  cut_categories : list string
}.

(** An entry of [cut_blocks] *)
Record cut_block : Type := mk_cut_block {
  raw_col_index : nat;
  raw_col_letter : string;
  categories : list string;
  num_cat : nat;
  start_col : nat;
  end_col : nat;
  max_width : nat
}.

(** The inner loop over [blocks] that widens [max_cut_width] *)
Definition widen (max_cut_width : nat) (b : block) : nat :=
  if is_matrix b then
    let nr := num_rating_cols b in
    Nat.max max_cut_width (nr + 1 + nr)
  else if is_bipolar b then Nat.max max_cut_width 5
  else max_cut_width.

Definition cut_width (blocks : list block) (num_cat : nat) : nat :=
  fold_left widen blocks (2 * num_cat).

(** The allocation loop [for cut_idx, cut in enumerate(cuts, start=1)] *)
Fixpoint allocate (blocks : list block) (cuts : list cut) (current_start_col : nat)
    : list cut_block :=
  match cuts with
  | [] => []
  | c :: cuts' =>
      let num_cat := length (cut_categories c) in
      let start_col := current_start_col in
      let max_cut_width := cut_width blocks num_cat in
      let end_col := start_col + max_cut_width - 1 in
      mk_cut_block (cut_raw_col_index c) (get_column_letter (cut_raw_col_index c))
                   (cut_categories c) num_cat start_col end_col max_cut_width
      :: allocate blocks cuts' (end_col + 7)
  end.

(** [cut_blocks] of [apply_cuts_to_databook], from the widest base question *)
Definition cut_blocks (max_question_width : nat) (blocks : list block)
    (cuts : list cut) : list cut_block :=
  let cuts_start_col := max_question_width + 7 in
  allocate blocks cuts cuts_start_col.

(** ** Writing the cut columns *)

(** The pattern that recognises a COUNTA over one raw-data column: the text
    COUNTA('Raw Data'!$ , group 1 of capital letters, the text $3:$ , group 2
    of capital letters, the text $8000 and a closing parenthesis. *)
Definition COUNTA_RE : regex :=
  rseq [ word "COUNTA('Raw Data'!$"; Grp 1 (Plus is_upper); word "$3:$";
         Grp 2 (Plus is_upper); word "$8000)" ].

(** [dropdown_ref = f"${dropdown_col_letter}$1"] *)
Definition dropdown_ref (cb : cut_block) : string :=
  "$" +:+ get_column_letter (start_col cb) +:+ "$1".

(** The dropdown loop: [dropdown_cell.value = "<>"] at row 1 of each cut *)
Definition write_dropdowns (ws : sheet) (cbs : list cut_block) : sheet :=
  fold_left (fun ws cb => assign ws 1 (start_col cb) (Some (VStr "<>"))) cbs ws.

(** *** Bipolar blocks *)

(** [mod_p1] and [mod_p2] *)
Definition bipolar_mod_pole (base : option value) (cut_raw_col_letter ref : string)
    : option value :=
  match base with
  | Some (VStr f) =>
      if startswith f "="
      then Some (VStr (add_demographic_filter_to_formula f cut_raw_col_letter ref))
      else base
  | _ => base
  end.

(** [mod_n] *)
Definition bipolar_mod_n (base_n : option value) (cut_raw_col_letter ref : string)
    : option value :=
  match base_n with
  | Some (VStr f) =>
      if startswith f "=COUNTA" then
        match re_search COUNTA_RE f with
        | Some (_, c, _) =>
            match group 1 c with
            | Some raw_col =>
                Some (VStr ("=COUNTIFS(" +:+ raw_range raw_col +:+ "," +:+ quoted_text "<>"
                            +:+ "," +:+ raw_range cut_raw_col_letter +:+ ","
                            +:+ ref +:+ ")"))
            | None => base_n
            end
        | None => base_n
        end
      else base_n
  | _ => base_n
  end.

(** [f"=IFERROR({num}{row}/{den}{row}*100,0)"] *)
Definition pct_formula (num_col : string) (num_row : nat) (den_col : string)
    (den_row : nat) : string :=
  "=IFERROR(" +:+ num_col +:+ str_of_nat num_row +:+ "/" +:+ den_col
  +:+ str_of_nat den_row +:+ "*100,0)".

(** The body of [for data_row in range(first_opt, last_opt + 1)] *)
Definition bipolar_row (cb : cut_block) (ws : sheet) (data_row : nat) : sheet :=
  let ref := dropdown_ref cb in
  let base_p1 := cell ws data_row 2 in
  let base_p2 := cell ws data_row 3 in
  let base_n := cell ws data_row 4 in
  let mod_p1 := bipolar_mod_pole base_p1 (raw_col_letter cb) ref in
  let mod_p2 := bipolar_mod_pole base_p2 (raw_col_letter cb) ref in
  let mod_n := bipolar_mod_n base_n (raw_col_letter cb) ref in
  let ws := cell_with ws data_row (start_col cb) mod_p1 in
  let ws := cell_with ws data_row (start_col cb + 1) mod_p2 in
  let ws := cell_with ws data_row (start_col cb + 2) mod_n in
  let p1_col := get_column_letter (start_col cb) in
  let p2_col := get_column_letter (start_col cb + 1) in
  let n_col := get_column_letter (start_col cb + 2) in
  let ws := cell_with ws data_row (start_col cb + 3)
              (Some (VStr (pct_formula p1_col data_row n_col data_row))) in
  cell_with ws data_row (start_col cb + 4)
    (Some (VStr (pct_formula p2_col data_row n_col data_row))).

(** The body of [for cb in cut_blocks] in the bipolar branch *)
Definition bipolar_cut (b : block) (ws : sheet) (cb : cut_block) : sheet :=
  let ws :=
    fold_left (fun ws offset =>
                 assign ws (header_row b) (start_col cb + offset)
                        (cell ws (header_row b) (2 + offset)))
              (range 0 5) ws in
  fold_left (bipolar_row cb) (range (first_option_row b) (last_option_row b + 1)) ws.

(** *** Matrix blocks *)

(** The copy of header and data cells into the cut columns *)
Definition matrix_copy (b : block) (cb : cut_block) (ws : sheet) : sheet :=
  let total_matrix_cols := num_rating_cols b + 1 + num_rating_cols b in
  fold_left (fun ws row_offset =>
               let src_row := header_row b + row_offset in
               fold_left (fun ws col_offset =>
                            assign ws src_row (start_col cb + col_offset)
                                   (cell ws src_row (2 + col_offset)))
                         (range 0 total_matrix_cols) ws)
            (range 0 (last_option_row b + 1 - header_row b)) ws.

(** [cut_cond] *)
Definition cut_cond (cb : cut_block) : string :=
  "," +:+ raw_range (raw_col_letter cb) +:+ "," +:+ dropdown_ref cb +:+ ")".

(** The rewrite of one copied rating cell *)
Definition matrix_rating_cell (cb : cut_block) (rating_col : nat) (ws : sheet)
    (data_row : nat) : sheet :=
  match cell ws data_row rating_col with
  | Some (VStr formula) =>
      if startswith formula "=" && endswith formula ")"
      then assign ws data_row rating_col
             (Some (VStr (drop_end 1 formula +:+ cut_cond cb)))
      else ws
  | _ => ws
  end.

Definition matrix_ratings (b : block) (cb : cut_block) (ws : sheet) : sheet :=
  fold_left (fun ws rating_offset =>
               let rating_col := start_col cb + rating_offset in
               fold_left (matrix_rating_cell cb rating_col)
                         (range (first_option_row b) (last_option_row b + 1)) ws)
            (range 0 (num_rating_cols b)) ws.

(** The rewrite of the N column of one data row *)
Definition matrix_n_cell (b : block) (cb : cut_block) (ws : sheet) (data_row : nat)
    : sheet :=
  let base_n_col_pos := 1 + num_rating_cols b + 1 in
  let n_col_idx := start_col cb + num_rating_cols b in
  let base_formula := str_or_empty (cell ws data_row base_n_col_pos) in
  if contains "SUMPRODUCT" (upper base_formula) && endswith base_formula "*1)" then
    let formula_body := drop_end 3 base_formula in
    let demographic_filter :=
      "*(" +:+ raw_range (raw_col_letter cb) +:+ "=" +:+ dropdown_ref cb +:+ ")" in
    assign ws data_row n_col_idx
           (Some (VStr (formula_body +:+ demographic_filter +:+ "*1)")))
  else ws.

(** The body of [for cb in cut_blocks] in the matrix branch *)
Definition matrix_cut (b : block) (ws : sheet) (cb : cut_block) : sheet :=
  let ws := matrix_copy b cb ws in
  let ws := matrix_ratings b cb ws in
  fold_left (matrix_n_cell b cb)
            (range (first_option_row b) (last_option_row b + 1)) ws.

(** *** Flat (single and multiple) blocks *)

(** [enumerate(l)] *)
Definition enumerate {A : Type} (l : list A) : list (nat * A) :=
  combine (List.seq 0 (length l)) l.

(** [header_cell_ref = f"${hdr_col_letter}${header_row}"] *)
Definition header_cell_ref (n_col header_row : nat) : string :=
  "$" +:+ get_column_letter n_col +:+ "$" +:+ str_of_nat header_row.

(** The header loop: the category name over its N column and its % column *)
Definition flat_headers (b : block) (cb : cut_block) (ws : sheet) : sheet :=
  fold_left (fun ws ic =>
               let i := fst ic in
               let cat := snd ic in
               let ws := assign ws (header_row b) (start_col cb + i) (Some (VStr cat)) in
               assign ws (header_row b) (start_col cb + num_cat cb + i) (Some (VStr cat)))
            (enumerate (categories cb)) ws.

(** [modified_formula] for one category column *)
Definition flat_count_formula (base_formula cut_raw_col_letter ref : string) : string :=
  let is_counta := startswith (upper base_formula) "=COUNTA" in
  if is_counta then
    match re_search COUNTA_RE base_formula with
    | Some (_, c, _) =>
        match group 1 c with
        | Some other_col =>
            "=COUNTIFS(" +:+ raw_range other_col +:+ "," +:+ quoted_text "<>" +:+ ")"
            +:+ "," +:+ raw_range cut_raw_col_letter +:+ "," +:+ ref +:+ ")"
        | None => base_formula
        end
    | None => base_formula
    end
  else add_demographic_filter_to_formula base_formula cut_raw_col_letter ref.

(** The body of [for data_row in range(first_opt, last_opt + 1)] *)
Definition flat_row (b : block) (cb : cut_block) (ws : sheet) (data_row : nat) : sheet :=
  match cell ws data_row 2 with
  | Some (VStr base_formula) =>
      if startswith base_formula "=" then
        fold_left (fun ws ic =>
                     let i := fst ic in
                     let n_col := start_col cb + i in
                     let hdr_col_letter := get_column_letter n_col in
                     let ref := header_cell_ref n_col (header_row b) in
                     let modified_formula :=
                       flat_count_formula base_formula (raw_col_letter cb) ref in
                     let ws := assign ws data_row n_col (Some (VStr modified_formula)) in
                     let pct_col := start_col cb + num_cat cb + i in
                     assign ws data_row pct_col
                            (Some (VStr (pct_formula hdr_col_letter data_row
                                                     hdr_col_letter (n_row b)))))
                  (enumerate (categories cb)) ws
      else ws
  | _ => ws
  end.

(** The N-row loop *)
Definition flat_totals (b : block) (cb : cut_block) (ws : sheet) : sheet :=
  fold_left (fun ws ic =>
               let i := fst ic in
               let n_col := start_col cb + i in
               let n_col_letter := get_column_letter n_col in
               let total :=
                 match cell ws (n_row b) 2 with
                 | Some (VStr base_n_formula) =>
                     if contains "SUMPRODUCT" (upper base_n_formula) then
                       modify_multiple_select_n_formula base_n_formula
                         (raw_col_letter cb) (header_cell_ref n_col (header_row b))
                     else
                       "=SUM(" +:+ n_col_letter +:+ str_of_nat (first_option_row b) +:+ ":"
                       +:+ n_col_letter +:+ str_of_nat (last_option_row b) +:+ ")"
                 | _ =>
                     "=SUM(" +:+ n_col_letter +:+ str_of_nat (first_option_row b) +:+ ":"
                     +:+ n_col_letter +:+ str_of_nat (last_option_row b) +:+ ")"
                 end in
               assign ws (n_row b) n_col (Some (VStr total)))
            (enumerate (categories cb)) ws.

(** The body of [for cb in cut_blocks] in the single/multiple branch *)
Definition flat_cut (b : block) (ws : sheet) (cb : cut_block) : sheet :=
  let ws := flat_headers b cb ws in
  let ws :=
    fold_left (flat_row b cb) (range (first_option_row b) (last_option_row b + 1)) ws in
  flat_totals b cb ws.

(** The body of [for q_idx, block in enumerate(blocks, start=1)] *)
Definition block_cuts (cbs : list cut_block) (ws : sheet) (b : block) : sheet :=
  if is_bipolar b then fold_left (bipolar_cut b) cbs ws
  else if is_matrix b then fold_left (matrix_cut b) cbs ws
  else if contains "single" (q_type b) || contains "multiple" (q_type b)
          || contains "multi-select" (q_type b)
  then fold_left (flat_cut b) cbs ws
  else ws.

(** [apply_cuts_to_databook] on the cell values of the Output sheet, given
    the width of the widest base question, the blocks found on the sheet and
    a non-empty list of cuts *)
Definition apply_cuts (max_question_width : nat) (blocks : list block)
    (cuts : list cut) (ws : sheet) : sheet :=
  let cbs := cut_blocks max_question_width blocks cuts in
  let ws := write_dropdowns ws cbs in
  fold_left (block_cuts cbs) blocks ws.

End Cuts.

(* ===================================================================== *)
(** * Column letters *)
(* ===================================================================== *)

Module Letters.
Import PyStr.

(** [get_excel_column_letter] of [SurveyDatabookV2]: the loop
    [while col_num > 0: col_num, remainder = divmod(col_num - 1, 26)] that
    prepends [chr(65 + remainder)]; the fuel bounds the number of letters. *)
Definition get_excel_column_letter (col_num : nat) : string :=
  Cuts.column_letter_fuel col_num col_num "".

(** The column number that a run of capital letters denotes, most
    significant letter first *)
Fixpoint column_index_from (s : string) (acc : nat) : nat :=
  match s with
  | EmptyString => acc
  | String c s' => column_index_from s' (acc * 26 + (nat_of_ascii c - 64))
  end.

Definition column_index (s : string) : nat := column_index_from s 0.

End Letters.

(* ===================================================================== *)
(** * Step 2: mapping the respondent columns to questions *)
(* ===================================================================== *)

Module Structure.
Import PyStr Tabulation.

Definition exact_metadata : list string :=
  ["respondent id"; "collector id"; "start date"; "end date";
   "ip address"; "email address"; "first name"; "last name";
   "custom data 1"; "custom data 2"; "custom data"].

Definition exact_exclude : list string :=
  ["status"; "test/garbage entry"; "reason for rejection";
   "contact no."; "contact no"; "surveyor name"; "tiers"].

(** A value of [question_map] *)
Record mapped_question : Type := mk_mapped_question {
  question_text : string;
  info : question_info
}.

(** [question_map]: a dict from question number to entry, in insertion
    order *)
Definition question_dict : Type := list (nat * mapped_question).

(** What [identify_structure] keeps between two columns *)
Record structure : Type := mk_structure {
  metadata_columns : list string;
  question_map : question_dict;
  current_question : option nat;
  question_counter : nat
}.

(** [question_map[k]['unnamed_cols'].append(idx)]; [None] stands for the
    KeyError of a missing key *)
Fixpoint append_unnamed (k idx : nat) (m : question_dict) : option question_dict :=
  match m with
  | [] => None
  | (k', e) :: m' =>
      if k' =? k then
        Some ((k', mk_mapped_question (question_text e)
                     (mk_question_info (main_col_idx (info e))
                                       (unnamed_cols (info e) ++ [idx]))) :: m')
      else
        match append_unnamed k idx m' with
        | Some m'' => Some ((k', e) :: m'')
        | None => None
        end
  end.

(** [question_map[k] = e]: a present key keeps its place, a new key goes
    last *)
Fixpoint dict_set (k : nat) (e : mapped_question) (m : question_dict) : question_dict :=
  match m with
  | [] => [(k, e)]
  | (k', e') :: m' =>
      if k' =? k then (k', e) :: m' else (k', e') :: dict_set k e m'
  end.

(** One turn of [for idx, col in enumerate(self.df.columns)] *)
Definition identify_step (st : structure) (idx : nat) (col : string) : option structure :=
  let col_lower := strip (lower col) in
  if mem col_lower exact_metadata || mem col_lower exact_exclude then
    Some (mk_structure (metadata_columns st ++ [col]) (question_map st)
                       (current_question st) (question_counter st))
  else if contains "unnamed" col_lower then
    match current_question st with
    | Some k =>
        match append_unnamed k idx (question_map st) with
        | Some m => Some (mk_structure (metadata_columns st) m
                                       (current_question st) (question_counter st))
        | None => None
        end
    | None => Some st
    end
  else
    let question_counter := question_counter st + 1 in
    let current_question := question_counter in
    Some (mk_structure (metadata_columns st)
            (dict_set current_question
               (mk_mapped_question col (mk_question_info idx [])) (question_map st))
            (Some current_question) question_counter).

Fixpoint identify_loop (idx : nat) (columns : list string) (st : structure)
    : option structure :=
  match columns with
  | [] => Some st
  | col :: rest =>
      match identify_step st idx col with
      | Some st' => identify_loop (S idx) rest st'
      | None => None
      end
  end.

(** [identify_structure] on a fresh generator, from the column labels of the
    respondent table *)
Definition identify_structure (columns : list string) : option structure :=
  identify_loop 0 columns (mk_structure [] [] None 0).

End Structure.

(* ===================================================================== *)
(** * Step 3: locating the question blocks of the results sheet *)
(* ===================================================================== *)

Module Blocks.
Import PyStr Re Cuts.

(** The pattern of the type line: the text Type: , optional white space,
    group 1 made of letters, white space, hyphens and parentheses, optional
    white space and a vertical bar. *)
Definition TYPE_RE : regex :=
  rseq [ word "Type:"; Star py_isspace;
         Grp 1 (Plus (fun a => is_upper a || is_lower a || py_isspace a || one_of "-()" a));
         Star py_isspace; Chr (lit "|") ].

(** The pattern of a question title: a capital Q followed by digits, at the
    start of the text. *)
Definition TITLE_RE : regex := rseq [ Chr (lit "Q"); Plus is_digit ].

(** [v == s] for a cell value and a text *)
Definition value_is (v : option value) (s : string) : bool :=
  match v with
  | Some (VStr t) => String.eqb t s
  | _ => false
  end.

(** [v is None] *)
Definition is_none (v : option value) : bool :=
  match v with
  | None => true
  | Some _ => false
  end.

(** [isinstance(a_val, str) and re.match(TITLE_RE, a_val.strip())] *)
Definition is_title (a_val : option value) : bool :=
  match a_val with
  | Some (VStr s) =>
      match re_match TITLE_RE (strip s) with
      | Some _ => true
      | None => false
      end
  | _ => false
  end.

(** [a_val and isinstance(a_val, str)] *)
Definition is_text (a_val : option value) : bool :=
  match a_val with
  | Some (VStr s) => truthy s
  | _ => false
  end.

(** Truthiness of a row number that may be [None] *)
Definition truthy_row (n : option nat) : option nat :=
  match n with
  | Some (S k) => Some (S k)
  | _ => None
  end.

(** [q_type]: group 1 of the type line, stripped and lowered, or the empty
    text *)
Definition block_type (type_text : string) : string :=
  match re_search TYPE_RE type_text with
  | Some (_, c, _) =>
      match group 1 c with
      | Some g => lower (strip g)
      | None => ""
      end
  | None => ""
  end.

(** The loop [while col_idx <= 200] that counts the rating columns up to
    the first N header; [remaining] is the number of turns left. *)
Fixpoint count_ratings (ws : sheet) (header_row remaining col_idx num_rating_cols : nat)
    : nat :=
  match remaining with
  | 0 => num_rating_cols
  | S remaining' =>
      if value_is (cell ws header_row col_idx) "N" then num_rating_cols
      else count_ratings ws header_row remaining' (S col_idx) (S num_rating_cols)
  end.

(** The loop [while cur <= max_row] that looks for the N row; [remaining]
    is the number of rows from [cur] to [max_row].  The result is [n_row]. *)
Fixpoint scan_block (ws : sheet) (is_matrix is_bipolar : bool)
    (remaining cur : nat) (last_data_row : option nat) : option nat :=
  match remaining with
  | 0 => None
  | S remaining' =>
      let a_val := cell ws cur 1 in
      if value_is a_val "N" && negb is_matrix && negb is_bipolar then Some cur
      else if is_none a_val && is_none (cell ws cur 2) then
        if is_matrix || is_bipolar then truthy_row last_data_row else None
      else if is_title a_val then
        if is_matrix || is_bipolar then truthy_row last_data_row else None
      else
        let last_data_row := if is_text a_val then Some cur else last_data_row in
        scan_block ws is_matrix is_bipolar remaining' (S cur) last_data_row
  end.

(** The block that starts at the title row [r], if there is one *)
Definition block_at (ws : sheet) (max_row r : nat) : option block :=
  let type_text := str_or_empty (cell ws (r + 1) 1) in
  let q_type := block_type type_text in
  let header_row := r + 2 in
  let header_val := cell ws header_row 1 in
  let is_matrix := contains "matrix" q_type in
  let is_bipolar := contains "bipolar" q_type in
  if value_is header_val "Response Option" then
    let num_rating_cols :=
      if is_matrix then count_ratings ws header_row 199 2 0
      else if is_bipolar then 2
      else 0 in
    let cur := header_row + 1 in
    match truthy_row (scan_block ws is_matrix is_bipolar (S max_row - cur) cur None) with
    | None => None
    | Some n_row =>
        let first_option_row := header_row + 1 in
        let last_option_row := if is_matrix || is_bipolar then n_row else n_row - 1 in
        Some (mk_block header_row first_option_row last_option_row n_row q_type
                       is_matrix is_bipolar num_rating_cols)
    end
  else None.

(** The loop [while r <= max_row]; [None] when the fuel runs out *)
Fixpoint blocks_loop (fuel : nat) (ws : sheet) (max_row r : nat) (blocks : list block)
    : option (list block) :=
  match fuel with
  | 0 => None
  | S fuel' =>
      if max_row <? r then Some blocks
      else
        match cell ws r 1 with
        | Some (VStr cell_val) =>
            if startswith (strip cell_val) "Q" then
              match block_at ws max_row r with
              | Some b => blocks_loop fuel' ws max_row (n_row b + 3) (blocks ++ [b])
              | None => blocks_loop fuel' ws max_row (r + 1) blocks
              end
            else blocks_loop fuel' ws max_row (r + 1) blocks
        | _ => blocks_loop fuel' ws max_row (r + 1) blocks
        end
  end.

(** [find_question_blocks], for a sheet whose [max_row] is given *)
Definition find_question_blocks (ws : sheet) (max_row : nat) : option (list block) :=
  blocks_loop (S max_row) ws max_row 6 [].

End Blocks.

(* ===================================================================== *)
(** * Step 3: the cuts template *)
(* ===================================================================== *)

Module Template.
Import PyStr Re Cuts.

(** An entry of [cuts_config] *)
Record cut_config : Type := mk_cut_config {
  cfg_index : nat;
  cfg_raw_col_index : nat;
  cfg_categories : list string
}.

(** The loop [for cat_idx, category in enumerate(cut['categories'], start=4)] *)
Fixpoint write_categories (ws : sheet) (row cat_idx : nat) (categories : list string)
    : sheet :=
  match categories with
  | [] => ws
  | category :: rest =>
      write_categories (cell_with ws row cat_idx (Some (VStr category)))
                       row (S cat_idx) rest
  end.

(** The body of [for cut in cuts_config]; openpyxl raises ValueError for
    row 0, which is [None] here *)
Definition write_cut (ws : sheet) (ct : cut_config) : option sheet :=
  let row := cfg_index ct in
  if row =? 0 then None
  else
    let ws := cell_with ws row 1
                (Some (VStr ("Cut #" +:+ str_of_nat (cfg_index ct) +:+ " column ="))) in
    let ws := cell_with ws row 2 (Some (VInt (cfg_raw_col_index ct))) in
    let ws := cell_with ws row 3
                (Some (VStr ("Cut #" +:+ str_of_nat (cfg_index ct) +:+ " parameter ="))) in
    Some (write_categories ws row 4 (cfg_categories ct)).

Fixpoint write_cuts (ws : sheet) (cuts_config : list cut_config) : option sheet :=
  match cuts_config with
  | [] => Some ws
  | ct :: rest =>
      match write_cut ws ct with
      | Some ws' => write_cuts ws' rest
      | None => None
      end
  end.

(** [create_cuts_template_from_config] and [_build_cuts_template]: the cell
    values of the workbook that is saved *)
Definition create_cuts_template_from_config (cuts_config : list cut_config)
    : option sheet :=
  write_cuts ∅ cuts_config.

(** The pattern of a cut label: the text Cut, optional white space, a hash
    sign and group 1 of digits. *)
Definition CUT_RE : regex :=
  rseq [ word "Cut"; Star py_isspace; Chr (lit "#"); Grp 1 (Plus is_digit) ].

(** [int(s)] for a run of digits *)
Definition int_of_digits (s : string) : option nat :=
  option_map Nat.of_uint (NilZero.uint_of_string s).

(** [str(val)] *)
Definition str_of_value (v : value) : string :=
  match v with
  | VStr s => s
  | VInt n => str_of_nat n
  end.

(** [val in (None, "")] *)
Definition is_blank (v : option value) : bool :=
  match v with
  | None => true
  | Some (VStr s) => negb (truthy s)
  | Some (VInt _) => false
  end.

(** The loop [for col in range(4, 4 + 15)] over the columns left *)
Fixpoint read_categories (ws : sheet) (row : nat) (cols : list nat) : list string :=
  match cols with
  | [] => []
  | col :: cols' =>
      let val := cell ws row col in
      if is_blank val then []
      else
        match val with
        | Some v => strip (str_of_value v) :: read_categories ws row cols'
        | None => []
        end
  end.

(** [cut_index]: the number after the hash sign of a text label *)
Definition label_index (label : option value) : option nat :=
  match label with
  | Some (VStr l) =>
      match re_search CUT_RE l with
      | Some (_, c, _) =>
          match group 1 c with
          | Some g => int_of_digits g
          | None => None
          end
      | None => None
      end
  | _ => None
  end.

Section Loader.

(** [int(s)] for the text of a cell, [None] for ValueError.  The column
    index of a [cut] is a natural number, as the cells of a sheet are; the
    texts that denote a negative integer are left to this parameter. *)
Variable int_of_text : string -> option nat.

(** [int(raw_col_val)] *)
Definition int_of_value (v : value) : option nat :=
  match v with
  | VInt n => Some n
  | VStr s => int_of_text s
  end.

(** The body of [for row in range(1, 9)]: the cut of a row, or [None] when
    the row is skipped *)
Definition load_row (ws : sheet) (row : nat) : option cut :=
  let label := cell ws row 1 in
  let raw_col_val := cell ws row 2 in
  if is_blank raw_col_val then None
  else
    match raw_col_val with
    | None => None
    | Some v =>
        match int_of_value v with
        | None => None
        | Some raw_col_index =>
            let categories := read_categories ws row (range 4 (4 + 15)) in
            match categories with
            | [] => None
            | _ :: _ => Some (mk_cut (label_index label) raw_col_index categories)
            end
        end
    end.

(** [load_cuts_from_template] on the cell values of the active sheet *)
Definition load_cuts_from_template (ws : sheet) : list cut :=
  omap (load_row ws) (range 1 9).

End Loader.

End Template.

(* ===================================================================== *)
(** * Step 2: the bipolar processor *)
(* ===================================================================== *)

Module Bipolar.
Import PyStr Pandas Tabulation.

(** A present cell of the respondent table, with what [str()] gives for it:
    a text, or a value of another type, which no pole label equals *)
Inductive raw_value : Type :=
| Text (s : string)
| Other (s : string).

Definition raw_str (v : raw_value) : string :=
  match v with
  | Text s => s
  | Other s => s
  end.

(** [v == pole] for a pole label *)
Definition equals (pole : string) (v : raw_value) : bool :=
  match v with
  | Text s => String.eqb s pole
  | Other _ => false
  end.

(** [self.df.iloc[:, col_idx]] *)
Definition column (df : list (list (option raw_value))) (col_idx : nat)
    : list (option raw_value) :=
  map (fun row => match row !! col_idx with
                  | Some v => v
                  | None => None
                  end) df.

(** [dim_to_col[k] = v] on a dict kept in insertion order *)
Fixpoint dict_put (k : string) (v : nat) (d : list (string * nat)) : list (string * nat) :=
  match d with
  | [] => [(k, v)]
  | (k', v') :: d' =>
      if String.eqb k' k then (k', v) :: d' else (k', v') :: dict_put k v d'
  end.

(** [dim_to_col.get(k)] *)
Fixpoint dict_get (k : string) (d : list (string * nat)) : option nat :=
  match d with
  | [] => None
  | (k', v) :: d' => if String.eqb k' k then Some v else dict_get k d'
  end.

(** The dimension named by a stripped sub-header *)
Definition dimension_of (sub_hdr_str : string) : string :=
  match split_first " - " sub_hdr_str with
  | Some (_, rest) => strip rest
  | None => sub_hdr_str
  end.

(** The loop that builds [dim_to_col]; [sub_headers] is row 1 of [df_full] *)
Definition dim_to_col (sub_headers : list pdcell) (all_col_idxs : list nat)
    : list (string * nat) :=
  fold_left (fun d col_idx =>
               if length sub_headers <=? col_idx then d
               else
                 match iloc sub_headers col_idx with
                 | None => d
                 | Some sub_hdr =>
                     let sub_hdr_str := strip sub_hdr in
                     dict_put (dimension_of sub_hdr_str) col_idx d
                 end)
            all_col_idxs [].

(** The column of a dimension: the exact entry, or else the first entry
    whose key contains the option or is contained in it, ignoring case *)
Definition find_col (d : list (string * nat)) (opt : string) : option nat :=
  match dict_get opt d with
  | Some col_idx => Some col_idx
  | None =>
      option_map snd
        (List.find (fun kv => contains (lower opt) (lower (fst kv))
                              || contains (lower (fst kv)) (lower opt)) d)
  end.

(** An entry of [bipolar_rows] *)
Record bipolar_entry : Type := mk_bipolar_entry {
  b_option : string;
  b_pole_1 : string;
  b_pole_2 : string;
  b_col_idx : option nat;
  b_count_p1 : nat;
  b_count_p2 : nat;
  b_n : nat
}.

Record bipolar_result : Type := mk_bipolar_result {
  b_rows : list bipolar_entry;
  b_base : nat
}.

(** The body of [for opt, (pole_1, pole_2) in zip(options, pole_pairs)] *)
Definition bipolar_entry_of (df : list (list (option raw_value)))
    (d : list (string * nat)) (opt : string) (poles : string * string) : bipolar_entry :=
  let pole_1 := fst poles in
  let pole_2 := snd poles in
  match find_col d opt with
  | None => mk_bipolar_entry opt pole_1 pole_2 None 0 0 0
  | Some col_idx =>
      let col_data := omap id (column df col_idx) in
      let col_data := List.filter (fun v => truthy (strip (raw_str v))) col_data in
      let count_p1 := length (List.filter (equals pole_1) col_data) in
      let count_p2 := length (List.filter (equals pole_2) col_data) in
      let n := length col_data in
      mk_bipolar_entry opt pole_1 pole_2 (Some col_idx) count_p1 count_p2 n
  end.

(** [process_bipolar] *)
Definition process_bipolar (df : list (list (option raw_value)))
    (sub_headers : list pdcell) (q : question_info)
    (options : list string) (pole_pairs : list (string * string)) : bipolar_result :=
  let all_col_idxs := main_col_idx q :: unnamed_cols q in
  let total_responses := length df in
  let d := dim_to_col sub_headers all_col_idxs in
  mk_bipolar_result
    (map (fun op => bipolar_entry_of df d (fst op) (snd op)) (combine options pole_pairs))
    total_responses.

End Bipolar.

(* ===================================================================== *)
(** * The API layer: sessions and type confirmation *)
(* ===================================================================== *)

Module Api.
Import PyStr Pandas Cleaning.

(** An entry of [_SESSIONS]: the owner, the parsed questions with their
    [auto_type], and the confirmed types.  The file paths and the column
    preview of a session play no part in the checks of the endpoints. *)
Record session : Type := mk_session {
  user_id : string;
  questions : list (question * string);
  confirmed_types : gmap string string
}.

(** [_SESSIONS] *)
Abbreviation sessions := (gmap string session).

(** A dict of counts, in insertion order *)
Fixpoint bump (t : string) (type_counts : list (string * nat)) : list (string * nat) :=
  match type_counts with
  | [] => [(t, 0 + 1)]
  | (t', n) :: rest =>
      if String.eqb t' t then (t', n + 1) :: rest else (t', n) :: bump t rest
  end.

(** [{item.q_text: item.q_type for item in request.question_types}] *)
Definition types_of_items (question_types : list (string * string)) : gmap string string :=
  fold_left (fun m item => <[fst item := snd item]> m) question_types ∅.

(** [confirmed_types.get(q["q_text"], q.get("auto_type", ""))] *)
Definition submitted_or_auto (confirmed : gmap string string) (q : question * string)
    : string :=
  default (snd q) (confirmed !! q_text (fst q)).

(** [confirmed_types.get(q["q_text"], q.get("auto_type") or "Single")] *)
Definition resolved_type (confirmed : gmap string string) (q : question * string)
    : string :=
  default (if truthy (snd q) then snd q else "Single") (confirmed !! q_text (fst q)).

(** What an endpoint answers *)
Inductive response : Type :=
| Uploaded (total_questions auto_detected needs_review : nat)
| Confirmed (total : nat) (type_summary : list (string * nat))
| Pipeline (written_types : list string)
| Cleaned
| HTTPException (status_code : nat).

Section Endpoints.

Variable parse_float : string -> option float_kind.

(** [upload_files]: [session_id] is the fresh uuid, [df] the grid of the
    questions file, [raw_columns] the columns of the raw data, or [None] when
    reading them raises *)
Definition upload_files (st : sessions) (session_id user : string)
    (df : list (list pdcell)) (raw_columns : option (list string))
    : response * sessions :=
  match _parse_questions_from_file parse_float df with
  | None => (HTTPException 400, st)
  | Some qs =>
      match raw_columns with
      | None => (HTTPException 400, st)
      | Some _ =>
          let st := <[session_id := mk_session user qs ∅]> st in
          let auto_detected := length (List.filter (fun q => truthy (snd q)) qs) in
          let needs_review := length qs - auto_detected in
          (Uploaded (length qs) auto_detected needs_review, st)
      end
  end.

(** [confirm_types] *)
Definition confirm_types (st : sessions) (session_id user : string)
    (question_types : list (string * string)) : response * sessions :=
  match st !! session_id with
  | None => (HTTPException 404, st)
  | Some session =>
      if negb (String.eqb (user_id session) user) then (HTTPException 403, st)
      else
        let confirmed := types_of_items question_types in
        let missing :=
          List.filter (fun q => negb (truthy (submitted_or_auto confirmed q)))
                      (questions session) in
        match missing with
        | _ :: _ => (HTTPException 400, st)
        | [] =>
            let st :=
              <[session_id := mk_session (user_id session) (questions session) confirmed]>
                st in
            let type_counts :=
              fold_left (fun counts q => bump (resolved_type confirmed q) counts)
                        (questions session) [] in
            (Confirmed (length (questions session)) type_counts, st)
        end
  end.

(** [generate_databook], up to the start of the pipeline: the types that
    [_write_options_file] writes, question by question.  What the pipeline
    then returns, a file or error 500, is outside this model. *)
Definition generate_databook (st : sessions) (session_id user : string)
    : response * sessions :=
  match st !! session_id with
  | None => (HTTPException 404, st)
  | Some session =>
      if negb (String.eqb (user_id session) user) then (HTTPException 403, st)
      else
        (Pipeline (map (resolved_type (confirmed_types session)) (questions session)), st)
  end.

(** [cleanup_session] *)
Definition cleanup_session (st : sessions) (session_id user : string)
    : response * sessions :=
  match st !! session_id with
  | None => (HTTPException 404, st)
  | Some session =>
      if negb (String.eqb (user_id session) user) then (HTTPException 403, st)
      else (Cleaned, delete session_id st)
  end.

(** A request, with the session it names and the authenticated user *)
Inductive request : Type :=
| Upload (session_id user : string) (df : list (list pdcell))
         (raw_columns : option (list string))
| Confirm (session_id user : string) (question_types : list (string * string))
| Generate (session_id user : string)
| Cleanup (session_id user : string).

Definition handle (st : sessions) (req : request) : response * sessions :=
  match req with
  | Upload session_id user df raw_columns => upload_files st session_id user df raw_columns
  | Confirm session_id user question_types => confirm_types st session_id user question_types
  | Generate session_id user => generate_databook st session_id user
  | Cleanup session_id user => cleanup_session st session_id user
  end.

(** The server handling requests one after the other *)
Fixpoint serve (st : sessions) (reqs : list request) : list response * sessions :=
  match reqs with
  | [] => ([], st)
  | req :: reqs' =>
      let '(resp, st') := handle st req in
      let '(resps, st'') := serve st' reqs' in
      (resp :: resps, st'')
  end.

End Endpoints.

End Api.

(* ===================================================================== *)
(** * Step 2: the Output sheet of the databook *)
(* ===================================================================== *)

Module Databook.
Import PyStr Tabulation Cuts Letters Bipolar.

(** [s.title()]: the first letter of every run of letters in upper case,
    the other letters in lower case *)
Fixpoint title_from (prev_cased : bool) (s : string) : string :=
  match s with
  | EmptyString => EmptyString
  | String c s' =>
      if is_upper c || is_lower c
      then String (if prev_cased then lower_char c else upper_char c) (title_from true s')
      else String c (title_from false s')
  end.

Definition title (s : string) : string := title_from false s.

(** What [create_databook] reads of [question['data']]: the option of every
    item of a single or multiple question; the rank labels, the attribute of
    every item, the column mapping and the multi-select flag of a matrix; the
    rows of a bipolar question *)
Inductive question_data : Type :=
| FlatData (item_options : list string)
| MatrixData (rank_labels : list string) (attributes : list string)
             (column_mapping : list column_map) (is_multi_select_matrix : bool)
| BipolarData (rows : list bipolar_entry).

(** An entry of [analysis['questions']], with the continuation columns that
    [question_map] holds for its number.  [analyze_survey] sets [is_bipolar]
    and [is_matrix] together with the data of the matching processor, so the
    constructor of [data] stands for the two flags. *)
Record analysed : Type := mk_analysed {
  question_number : nat;
  question_text : string;
  question_type : string;
  data : question_data;
  raw_data_col_letter : string;
  raw_data_col_index : nat;
  a_unnamed_cols : list nat
}.

Definition a_is_bipolar (q : analysed) : bool :=
  match data q with
  | BipolarData _ => true
  | _ => false
  end.

Definition a_is_matrix (q : analysed) : bool :=
  match data q with
  | MatrixData _ _ _ _ => true
  | _ => false
  end.

(** [for col_idx, header in enumerate(headers, start)]: a row of texts *)
Fixpoint write_texts (ws : sheet) (row col_idx : nat) (texts : list string) : sheet :=
  match texts with
  | [] => ws
  | t :: rest => write_texts (cell_with ws row col_idx (Some (VStr t))) row (S col_idx) rest
  end.

(** [COUNTIFS] of a raw-data column against a criterion *)
Definition countifs (col_letter criterion : string) : string :=
  "COUNTIFS(" +:+ raw_range col_letter +:+ "," +:+ criterion +:+ ")".

(** [COUNTA] of a raw-data column *)
Definition counta (col_letter : string) : string :=
  "=COUNTA(" +:+ raw_range col_letter +:+ ")".

(** ** Bipolar table *)

Definition bipolar_headers (bipolar_rows : list bipolar_entry) : list string :=
  let hdr_pole_1 := match bipolar_rows with
                    | first_row :: _ => b_pole_1 first_row
                    | [] => "Pole 1"
                    end in
  let hdr_pole_2 := match bipolar_rows with
                    | first_row :: _ => b_pole_2 first_row
                    | [] => "Pole 2"
                    end in
  ["Response Option"; hdr_pole_1; hdr_pole_2; "N"; hdr_pole_1; hdr_pole_2].

(** The body of [for brow in bipolar_rows] *)
Definition write_bipolar_row (ws : sheet) (row : nat) (brow : bipolar_entry) : sheet :=
  let ws := cell_with ws row 1 (Some (VStr (b_option brow))) in
  let ws :=
    match b_col_idx brow with
    | Some col_idx_raw =>
        let raw_col_letter := get_excel_column_letter (col_idx_raw + 1) in
        let p1_formula := "=" +:+ countifs raw_col_letter (quoted_text (b_pole_1 brow)) in
        let ws := cell_with ws row 2 (Some (VStr p1_formula)) in
        let p2_formula := "=" +:+ countifs raw_col_letter (quoted_text (b_pole_2 brow)) in
        let ws := cell_with ws row 3 (Some (VStr p2_formula)) in
        let n_formula := counta raw_col_letter in
        cell_with ws row 4 (Some (VStr n_formula))
    | None =>
        let ws := cell_with ws row 2 (Some (VInt 0)) in
        let ws := cell_with ws row 3 (Some (VInt 0)) in
        cell_with ws row 4 (Some (VInt 0))
    end in
  let ws := cell_with ws row 5 (Some (VStr (pct_formula "B" row "D" row))) in
  cell_with ws row 6 (Some (VStr (pct_formula "C" row "D" row))).

Fixpoint write_bipolar_rows (ws : sheet) (row : nat) (bipolar_rows : list bipolar_entry)
    : sheet * nat :=
  match bipolar_rows with
  | [] => (ws, row)
  | brow :: rest => write_bipolar_rows (write_bipolar_row ws row brow) (row + 1) rest
  end.

Definition write_bipolar (ws : sheet) (row : nat) (bipolar_rows : list bipolar_entry)
    : sheet * nat :=
  let ws := write_texts ws row 1 (bipolar_headers bipolar_rows) in
  write_bipolar_rows ws (row + 1) bipolar_rows.

(** ** Matrix table *)

(** [matching_cols] of a rating cell *)
Definition rating_cols (column_mapping : list column_map) (is_multi : bool)
    (attribute rank_label : string) : list nat :=
  map cm_col_idx
    (List.filter (fun cm =>
                    String.eqb (cm_attribute cm) attribute
                    && ((is_multi && match cm_rank_label cm with
                                     | Some l => String.eqb l rank_label
                                     | None => false
                                     end)
                        || negb is_multi))
                 column_mapping).

(** [matching_cols] of the N cell *)
Definition attribute_cols (column_mapping : list column_map) (attribute : string)
    : list nat :=
  map cm_col_idx
    (List.filter (fun cm => String.eqb (cm_attribute cm) attribute) column_mapping).

(** The loop [for col_idx, rank_label in enumerate(rank_labels, 2)] *)
Fixpoint write_ratings (ws : sheet) (row header_row_num col_idx : nat)
    (column_mapping : list column_map) (is_multi : bool) (attribute : string)
    (rank_labels : list string) : sheet :=
  match rank_labels with
  | [] => ws
  | rank_label :: rest =>
      let header_col_letter := get_excel_column_letter col_idx in
      let header_cell_ref := header_cell_ref col_idx header_row_num in
      let matching_cols := rating_cols column_mapping is_multi attribute rank_label in
      let formulas :=
        map (fun raw_col_idx =>
               countifs (get_excel_column_letter (raw_col_idx + 1)) header_cell_ref)
            matching_cols in
      let v := match formulas with
               | [] => VInt 0
               | _ :: _ => VStr ("=" +:+ join "+" formulas)
               end in
      write_ratings (cell_with ws row col_idx (Some v)) row header_row_num (S col_idx)
                    column_mapping is_multi attribute rest
  end.

(** The loop [for rank_idx in range(len(rank_labels))] *)
Definition write_rating_pcts (ws : sheet) (row n_col_idx num_ranks : nat) : sheet :=
  fold_left (fun ws rank_idx =>
               let pct_col_idx := n_col_idx + 1 + rank_idx in
               let rank_count_col := get_excel_column_letter (2 + rank_idx) in
               let n_col_letter := get_excel_column_letter n_col_idx in
               cell_with ws row pct_col_idx
                 (Some (VStr (pct_formula rank_count_col row n_col_letter row))))
            (range 0 num_ranks) ws.

(** The body of [for item in data['data']] *)
Definition write_matrix_row (ws : sheet) (row header_row_num : nat)
    (rank_labels : list string) (column_mapping : list column_map) (is_multi : bool)
    (attribute : string) : sheet :=
  let ws := cell_with ws row 1 (Some (VStr attribute)) in
  let ws := write_ratings ws row header_row_num 2 column_mapping is_multi attribute
                          rank_labels in
  let n_col_idx := length rank_labels + 2 in
  let matching_cols := attribute_cols column_mapping attribute in
  let len_parts :=
    map (fun ci => "LEN(" +:+ raw_range (get_excel_column_letter (ci + 1)) +:+ ")")
        matching_cols in
  let ws := cell_with ws row n_col_idx
              (Some (VStr ("=SUMPRODUCT((" +:+ join "+" len_parts +:+ ">0)*1)"))) in
  write_rating_pcts ws row n_col_idx (length rank_labels).

Fixpoint write_matrix_rows (ws : sheet) (row header_row_num : nat)
    (rank_labels : list string) (column_mapping : list column_map) (is_multi : bool)
    (attributes : list string) : sheet * nat :=
  match attributes with
  | [] => (ws, row)
  | attribute :: rest =>
      write_matrix_rows
        (write_matrix_row ws row header_row_num rank_labels column_mapping is_multi
                          attribute)
        (row + 1) header_row_num rank_labels column_mapping is_multi rest
  end.

Definition write_matrix (ws : sheet) (row : nat) (rank_labels attributes : list string)
    (column_mapping : list column_map) (is_multi : bool) : sheet * nat :=
  let headers := ("Response Option" :: rank_labels ++ "N" :: rank_labels)%list in
  let header_row_num := row in
  let ws := write_texts ws row 1 headers in
  write_matrix_rows ws (row + 1) header_row_num rank_labels column_mapping is_multi
                    attributes.

(** ** Single and multiple table *)

Definition is_other_option (opt : string) : bool :=
  mem (lower (strip opt)) ["other (please specify)"; "others (please specify)"].

(** [count_formula] of the item number [idx] *)
Definition count_formula (q : analysed) (is_multiple : bool) (all_cols : list nat)
    (idx current_row : nat) (opt : string) : string :=
  let is_other := is_other_option opt in
  let in_columns := if is_multiple then all_cols !! idx else None in
  match in_columns with
  | Some col =>
      let option_col := get_excel_column_letter (col + 1) in
      if is_other then
        let next_col_idx := col + 1 in
        counta (get_excel_column_letter (next_col_idx + 1))
      else "=" +:+ countifs option_col ("A" +:+ str_of_nat current_row)
  | None =>
      if is_other then
        let other_col_idx := raw_data_col_index q + 1 in
        counta (get_excel_column_letter (other_col_idx + 1))
      else "=" +:+ countifs (raw_data_col_letter q) ("A" +:+ str_of_nat current_row)
  end.

(** The loop [for idx, item in enumerate(question['data'])] *)
Fixpoint write_items (ws : sheet) (q : analysed) (is_multiple : bool)
    (all_cols : list nat) (row n_row_ref idx : nat) (item_options : list string) : sheet :=
  match item_options with
  | [] => ws
  | opt :: rest =>
      let current_row := row + idx in
      let ws := cell_with ws current_row 1 (Some (VStr opt)) in
      let ws := cell_with ws current_row 2
                  (Some (VStr (count_formula q is_multiple all_cols idx current_row opt))) in
      let ws := cell_with ws current_row 3
                  (Some (VStr (pct_formula "B" current_row "B$" n_row_ref))) in
      write_items ws q is_multiple all_cols row n_row_ref (S idx) rest
  end.

Definition write_flat (ws : sheet) (row : nat) (q : analysed)
    (item_options : list string) : sheet * nat :=
  let ws := write_texts ws row 1 ["Response Option"; "N"; "%"] in
  let row := row + 1 in
  let is_multiple := mem (question_type q) ["multiple"; "multi-select"; "multiple select"] in
  let all_cols := raw_data_col_index q :: a_unnamed_cols q in
  let n_row_ref := row + length item_options in
  let ws := write_items ws q is_multiple all_cols row n_row_ref 0 item_options in
  let row := row + length item_options in
  let ws := cell_with ws row 1 (Some (VStr "N")) in
  let first_opt := row - length item_options in
  let last_opt := row - 1 in
  let is_single := mem (question_type q) ["single"; "single-select"] in
  let n_formula :=
    if is_single then
      "=SUM(B" +:+ str_of_nat first_opt +:+ ":B" +:+ str_of_nat last_opt +:+ ")"
    else
      let len_parts :=
        map (fun ci => "LEN('Raw Data'!" +:+ get_excel_column_letter (ci + 1) +:+ "3:"
                       +:+ get_excel_column_letter (ci + 1) +:+ "8000)")
            all_cols in
      "=SUMPRODUCT((LEN('Raw Data'!$A$3:$A$8000)>0)*(" +:+ join "+" len_parts +:+ ">0)*1)" in
  let ws := cell_with ws row 2 (Some (VStr n_formula)) in
  (ws, row + 1).

(** ** The sheet *)

(** The body of [for question in analysis['questions']] *)
Definition write_question (ws : sheet) (row : nat) (q : analysed) : sheet * nat :=
  let ws := assign ws row 1
              (Some (VStr ("Q" +:+ str_of_nat (question_number q) +:+ ". "
                           +:+ question_text q))) in
  let row := row + 1 in
  let ws := assign ws row 1
              (Some (VStr ("Type: " +:+ title (question_type q) +:+ " | Base: "))) in
  let ws := assign ws row 2 (Some (VStr (counta "A"))) in
  let row := row + 1 in
  let '(ws, row) :=
    match data q with
    | BipolarData bipolar_rows => write_bipolar ws row bipolar_rows
    | MatrixData rank_labels attributes column_mapping is_multi =>
        write_matrix ws row rank_labels attributes column_mapping is_multi
    | FlatData item_options => write_flat ws row q item_options
    end in
  (ws, row + 2).

Fixpoint write_questions (ws : sheet) (row : nat) (qs : list analysed) : sheet * nat :=
  match qs with
  | [] => (ws, row)
  | q :: rest =>
      let '(ws', row') := write_question ws row q in
      write_questions ws' row' rest
  end.

(** The cell values of the Output sheet that [create_databook] builds *)
Definition output_sheet (survey_name : string) (qs : list analysed) : sheet :=
  let ws : sheet := ∅ in
  let ws := assign ws 1 1 (Some (VStr survey_name)) in
  let ws := assign ws 3 1 (Some (VStr "Total Responses: ")) in
  let ws := assign ws 3 2 (Some (VStr (counta "A"))) in
  let ws := assign ws 4 1
              (Some (VStr ("Total Questions: " +:+ str_of_nat (length qs)))) in
  fst (write_questions ws 6 qs).

End Databook.

(* ===================================================================== *)
(** * Facts about the string primitives *)
(* ===================================================================== *)

Module PyStrFacts.
Import PyStr.

(** stdpp keeps [String.append] from unfolding under [simpl]; these two
    equations replace it. *)
Lemma sapp_nil_l s : "" +:+ s = s.
Proof. reflexivity. Qed.

Lemma sapp_cons c a b : String c a +:+ b = String c (a +:+ b).
Proof. reflexivity. Qed.

Ltac sapp := rewrite ?sapp_cons, ?sapp_nil_l in *.

Lemma sapp_nil_r s : s +:+ "" = s.
Proof. induction s; sapp; congruence. Qed.

Lemma sapp_assoc a b c : (a +:+ b) +:+ c = a +:+ (b +:+ c).
Proof. induction a; sapp; congruence. Qed.

Lemma slength_app a b : String.length (a +:+ b) = String.length a + String.length b.
Proof. induction a; sapp; simpl; congruence. Qed.

Lemma sapp_inv_head a b c : a +:+ b = a +:+ c -> b = c.
Proof. induction a; sapp; intros H; [assumption | injection H; auto]. Qed.

Lemma sapp_inv_tail a b c : a +:+ c = b +:+ c -> a = b.
Proof.
  revert b. induction a as [|x a IH]; intros b H; sapp.
  - destruct b as [|y b]; [reflexivity|]. sapp.
    apply (f_equal String.length) in H. simpl in H.
    rewrite slength_app in H. lia.
  - destruct b as [|y b]; sapp.
    + apply (f_equal String.length) in H. simpl in H.
      rewrite slength_app in H. lia.
    + injection H as -> H. f_equal. now apply IH.
Qed.

Lemma srev_onto_app s : forall acc, srev_onto s acc = srev s +:+ acc.
Proof.
  unfold srev. induction s as [|c s IH]; intros acc; simpl; [reflexivity|].
  rewrite IH, (IH (String c "")), sapp_assoc. reflexivity.
Qed.

Lemma srev_cons c s : srev (String c s) = srev s +:+ String c "".
Proof. unfold srev at 1. simpl. apply srev_onto_app. Qed.

Lemma srev_app a b : srev (a +:+ b) = srev b +:+ srev a.
Proof.
  induction a as [|c a IH]; sapp.
  - now rewrite sapp_nil_r.
  - now rewrite !srev_cons, IH, sapp_assoc.
Qed.

Lemma srev_involutive s : srev (srev s) = s.
Proof.
  induction s as [|c s IH]; [reflexivity|].
  now rewrite srev_cons, srev_app, IH.
Qed.

Lemma slength_srev s : String.length (srev s) = String.length s.
Proof.
  induction s as [|c s IH]; [reflexivity|].
  rewrite srev_cons, slength_app, IH. simpl. lia.
Qed.

Lemma prefix_spec p : forall s, String.prefix p s = true <-> exists t, s = p +:+ t.
Proof.
  induction p as [|c p IH]; intros s.
  - destruct s; simpl; split; eauto.
  - destruct s as [|d s]; simpl;
      [split; [discriminate | intros [t Ht]; discriminate]|].
    destruct (ascii_dec c d) as [->|Hne].
    + rewrite IH. split; intros [t Ht]; exists t; sapp; congruence.
    + split; [discriminate | intros [t Ht]; sapp; congruence].
Qed.

Lemma startswith_spec s p : startswith s p = true <-> exists t, s = p +:+ t.
Proof. apply prefix_spec. Qed.

Lemma endswith_spec s suf : endswith s suf = true <-> exists t, s = t +:+ suf.
Proof.
  unfold endswith. rewrite prefix_spec. split.
  - intros [t Ht]. exists (srev t).
    rewrite <- (srev_involutive s), Ht, srev_app, srev_involutive. reflexivity.
  - intros [t ->]. exists (srev t). apply srev_app.
Qed.

Lemma stake_app a b : stake (String.length a) (a +:+ b) = a.
Proof. induction a; sapp; simpl; [now destruct b | congruence]. Qed.

Lemma sdrop_app a b : sdrop (String.length a) (a +:+ b) = b.
Proof. induction a; sapp; simpl; auto. Qed.

Lemma drop_end_app a b : drop_end (String.length b) (a +:+ b) = a.
Proof.
  unfold drop_end. rewrite slength_app.
  replace (String.length a + String.length b - String.length b)
    with (String.length a) by lia.
  apply stake_app.
Qed.

Lemma truthy_spec s : truthy s = true <-> s <> "".
Proof. unfold truthy. destruct s; simpl; split; congruence. Qed.

Lemma contains_spec sub : forall s,
  contains sub s = true <-> exists a b, s = a +:+ sub +:+ b.
Proof.
  induction s as [|c s IH].
  - cbn [contains]. rewrite orb_false_r, prefix_spec. split.
    + intros [t Ht]. exists "", t. assumption.
    + intros (a & b & H). destruct a; [eauto | discriminate].
  - cbn [contains]. rewrite orb_true_iff, prefix_spec, IH. split.
    + intros [[t Ht] | (a & b & ->)]; [exists "", t | exists (String c a), b]; auto.
    + intros (a & b & H). destruct a as [|d a]; sapp.
      * left. eauto.
      * right. injection H as -> ->. eauto.
Qed.

(** *** Stripping *)

(** The text does not begin with a blank *)
Definition no_lead (s : string) : bool :=
  match s with
  | EmptyString => true
  | String a _ => negb (py_isspace a)
  end.

(** The text does not end with a blank *)
Definition no_trail (s : string) : bool := no_lead (srev s).

Lemma lstrip_decomp s :
  exists w, s = w +:+ lstrip s /\ sall py_isspace w = true /\ no_lead (lstrip s) = true.
Proof.
  induction s as [|a s (w & Hs & Hw & Hl)]; simpl.
  - now exists "".
  - destruct (py_isspace a) eqn:Ha.
    + exists (String a w). sapp. simpl. rewrite Ha, Hw. repeat split; congruence.
    + exists "". simpl. now rewrite Ha.
Qed.

Lemma lstrip_fixed s : no_lead s = true -> lstrip s = s.
Proof. destruct s as [|a s]; simpl; [reflexivity|]. now destruct (py_isspace a). Qed.

Lemma sall_app p a b : sall p (a +:+ b) = sall p a && sall p b.
Proof. induction a as [|c a IH]; sapp; simpl; [reflexivity|]. now rewrite IH, andb_assoc. Qed.

Lemma sall_srev p s : sall p (srev s) = sall p s.
Proof.
  induction s as [|c s IH]; [reflexivity|].
  rewrite srev_cons, sall_app, IH. simpl. now rewrite andb_true_r, andb_comm.
Qed.

Lemma lstrip_blank s : lstrip s = "" <-> sall py_isspace s = true.
Proof.
  induction s as [|a s IH]; simpl; [tauto|].
  destruct (py_isspace a); simpl; [exact IH | split; discriminate].
Qed.

Lemma srev_empty s : srev s = "" <-> s = "".
Proof.
  split; [|now intros ->]. intros H.
  rewrite <- (srev_involutive s), H. reflexivity.
Qed.

Lemma rstrip_blank s : rstrip s = "" <-> sall py_isspace s = true.
Proof.
  unfold rstrip. rewrite srev_empty, lstrip_blank. now rewrite sall_srev.
Qed.

Lemma rstrip_decomp s :
  exists w, s = rstrip s +:+ w /\ sall py_isspace w = true /\ no_trail (rstrip s) = true.
Proof.
  unfold rstrip, no_trail.
  destruct (lstrip_decomp (srev s)) as (w & Hs & Hw & Hl).
  exists (srev w). rewrite srev_involutive, sall_srev. repeat split; try assumption.
  rewrite <- (srev_involutive s), Hs at 1. apply srev_app.
Qed.

Lemma rstrip_fixed s : no_trail s = true -> rstrip s = s.
Proof.
  unfold rstrip, no_trail. intros H. rewrite (lstrip_fixed _ H). apply srev_involutive.
Qed.

(** A blank text strips to nothing, and only a blank text does *)
Lemma strip_blank s : strip s = "" <-> sall py_isspace s = true.
Proof.
  unfold strip. rewrite rstrip_blank.
  destruct (lstrip_decomp s) as (w & Hs & Hw & _).
  rewrite Hs at 2. rewrite sall_app, Hw. reflexivity.
Qed.

Lemma no_lead_app a b : a <> "" -> no_lead (a +:+ b) = no_lead a.
Proof. destruct a; [congruence | reflexivity]. Qed.

Lemma no_trail_app a b : b <> "" -> no_trail (a +:+ b) = no_trail b.
Proof.
  intros H. unfold no_trail. rewrite srev_app. apply no_lead_app.
  now rewrite srev_empty.
Qed.

Lemma no_lead_rstrip s : no_lead s = true -> no_lead (rstrip s) = true.
Proof.
  intros H. destruct (rstrip_decomp s) as (w & Hs & Hw & _).
  destruct (rstrip s) as [|a t] eqn:Hr; [reflexivity|].
  rewrite Hs in H. exact H.
Qed.

(** What [strip] returns has no blank at either end *)
Lemma strip_trimmed s : no_lead (strip s) = true /\ no_trail (strip s) = true.
Proof.
  unfold strip. destruct (lstrip_decomp s) as (w & _ & _ & Hl).
  split; [now apply no_lead_rstrip|].
  now destruct (rstrip_decomp (lstrip s)) as (w' & _ & _ & Ht).
Qed.

Lemma strip_fixed s : no_lead s = true -> no_trail s = true -> strip s = s.
Proof.
  intros Hl Ht. unfold strip. rewrite (lstrip_fixed _ Hl). now apply rstrip_fixed.
Qed.

Lemma strip_idempotent s : strip (strip s) = strip s.
Proof. destruct (strip_trimmed s). now apply strip_fixed. Qed.

(** A text that begins with a character other than a blank does not strip
    to nothing; neither does one that ends with such a character *)
Lemma strip_nonempty_lead s : s <> "" -> no_lead s = true -> strip s <> "".
Proof.
  intros Hne Hl Hs. apply strip_blank in Hs.
  destruct s as [|a t]; [congruence|]. simpl in *.
  destruct (py_isspace a); discriminate.
Qed.

Lemma strip_nonempty_trail s : s <> "" -> no_trail s = true -> strip s <> "".
Proof.
  intros Hne Ht Hs. apply strip_blank in Hs. rewrite <- sall_srev in Hs.
  unfold no_trail in Ht. destruct (srev s) as [|a t] eqn:Hr.
  - apply (proj1 (srev_empty s)) in Hr. congruence.
  - simpl in *. destruct (py_isspace a); discriminate.
Qed.

End PyStrFacts.

(* ===================================================================== *)
(** * The matcher against a declarative reading of the patterns *)
(* ===================================================================== *)

Module ReFacts.
Import PyStr PyStrFacts Re.

(** [matches r s rest]: the pattern [r] can consume a prefix of [s] and
    leave [rest] *)
Fixpoint matches (r : regex) (s rest : string) : Prop :=
  match r with
  | Eps => rest = s
  | Chr p => exists a, s = String a rest /\ p a = true
  | Seq r1 r2 => exists mid, matches r1 s mid /\ matches r2 mid rest
  | Star p => exists w, s = w +:+ rest /\ sall p w = true
  | Plus p => exists a w, s = String a (w +:+ rest) /\ p a = true /\ sall p w = true
  | Opt r1 => matches r1 s rest \/ rest = s
  | Grp _ r1 => matches r1 s rest
  | NotAhead r1 => rest = s /\ ~ (exists x, matches r1 s x)
  | Eos => rest = s /\ (s = "" \/ s = String "010" "")
  end.

Lemma star_rests_spec p : forall s rest,
  In rest (star_rests p s) <-> exists w, s = w +:+ rest /\ sall p w = true.
Proof.
  induction s as [|c s IH]; intros rest; simpl.
  - split.
    + intros [<-|[]]. exists "". auto.
    + intros (w & H & _). destruct w; [left; exact H | discriminate].
  - destruct (p c) eqn:Hp.
    + rewrite in_app_iff, IH. simpl. split.
      * intros [(w & -> & Hw) | [<-|[]]].
        -- exists (String c w). sapp. simpl. now rewrite Hp.
        -- exists "". auto.
      * intros (w & H & Hw). destruct w as [|d w]; sapp.
        -- right. left. exact H.
        -- injection H as <- ->. simpl in Hw. apply andb_true_iff in Hw as [_ Hw].
           left. eauto.
    + simpl. split.
      * intros [<-|[]]. exists "". auto.
      * intros (w & H & Hw). destruct w as [|d w]; sapp; [left; exact H|].
        injection H as <- ->. simpl in Hw. rewrite Hp in Hw. discriminate.
Qed.

(** The matcher finds exactly the declarative matches *)
Theorem run_spec r : forall c s rest,
  (exists c', In (c', rest) (run r c s)) <-> matches r s rest.
Proof.
  induction r as [|p|r1 IH1 r2 IH2|p|p|r1 IH1|n r1 IH1|r1 IH1|]; intros c s rest;
    cbn [run matches].
  - split; [intros (c' & [H|[]]); congruence | intros ->; exists c; now left].
  - destruct s as [|a s].
    + split; [intros (c' & []) | intros (a & H & _); discriminate].
    + destruct (p a) eqn:Hp.
      * split.
        -- intros (c' & [H|[]]). injection H as _ <-. eauto.
        -- intros (b & H & _). injection H as _ <-. exists c. now left.
      * split; [intros (c' & []) | intros (b & H & Hb); congruence].
  - split.
    + intros (c' & Hin). apply in_flat_map in Hin as ([c1 mid] & H1 & H2).
      exists mid. split; [apply (IH1 c); eauto | apply (IH2 c1); eauto].
    + intros (mid & H1 & H2).
      apply (IH1 c) in H1 as (c1 & H1). apply (IH2 c1) in H2 as (c' & H2).
      exists c'. apply in_flat_map. exists (c1, mid). auto.
  - rewrite <- star_rests_spec. split.
    + intros (c' & Hin). apply in_map_iff in Hin as (x & H & Hx). congruence.
    + intros Hin. exists c. apply in_map_iff. eauto.
  - destruct s as [|a s].
    + split; [intros (c' & []) | intros (a & w & H & _); discriminate].
    + destruct (p a) eqn:Hp.
      * split.
        -- intros (c' & Hin). apply in_map_iff in Hin as (x & H & Hx).
           injection H as _ ->. apply star_rests_spec in Hx as (w & -> & Hw). eauto.
        -- intros (b & w & H & _ & Hw). injection H as _ ->.
           exists c. apply in_map_iff. exists rest. split; [reflexivity|].
           apply star_rests_spec. eauto.
      * split; [intros (c' & []) | intros (b & w & H & Hb & _); congruence].
  - split.
    + intros (c' & Hin). apply in_app_iff in Hin as [Hin | [H|[]]].
      * left. apply (IH1 c). eauto.
      * right. congruence.
    + intros [H | ->].
      * apply (IH1 c) in H as (c' & H). exists c'. apply in_app_iff. now left.
      * exists c. apply in_app_iff. right. now left.
  - split.
    + intros (c' & Hin). apply in_map_iff in Hin as ([c1 x] & H & Hx).
      injection H as _ <-. apply (IH1 c). eauto.
    + intros H. apply (IH1 c) in H as (c' & H).
      exists ((n, consumed s rest) :: c'). apply in_map_iff. exists (c', rest). auto.
  - destruct (run r1 c s) as [|[c1 x] l] eqn:Hrun.
    + split.
      * intros (c' & [H|[]]). injection H as _ <-. split; [reflexivity|].
        intros (x & Hx). apply (IH1 c) in Hx as (c1 & Hx). rewrite Hrun in Hx.
        destruct Hx.
      * intros [-> _]. exists c. now left.
    + split; [intros (c' & [])|]. intros [_ Hno]. exfalso. apply Hno.
      exists x. apply (IH1 c). exists c1. rewrite Hrun. now left.
  - destruct s as [|a s].
    + split; [intros (c' & [H|[]]); injection H as _ <-; auto|].
      intros [-> _]. exists c. now left.
    + destruct (ascii_dec a "010") as [->|Hne].
      * destruct s as [|b s].
        -- split; [intros (c' & [H|[]]); injection H as _ <-; auto|].
           intros [-> _]. exists c. now left.
        -- split; [intros (c' & []) | intros [_ [H|H]]; discriminate].
      * assert (Hrun : forall t : list (caps * string),
                  match a with
                  | "010"%char => match s with "" => t | _ => [] end
                  | _ => []
                  end = []).
        { intros t. destruct a as [[] [] [] [] [] [] [] []]; try reflexivity.
          now contradiction Hne. }
        rewrite Hrun.
        split; [intros (c' & []) | intros [_ [H|H]]; [discriminate | congruence]].
Qed.

Lemma run_nonempty r c s :
  run r c s <> [] <-> exists rest, matches r s rest.
Proof.
  split.
  - destruct (run r c s) as [|[c' rest] l] eqn:H; [congruence|]. intros _.
    exists rest. apply (run_spec r c). exists c'. rewrite H. now left.
  - intros (rest & H) Hnil. apply (run_spec r c) in H as (c' & H).
    rewrite Hnil in H. destruct H.
Qed.

(** [re.search] returns the leftmost position at which the pattern matches *)
Lemma search_from_spec r : forall s before pre c rest,
  search_from r before s = Some (pre, c, rest) ->
  exists a b,
    s = a +:+ b /\ pre = srev before +:+ a /\ matches r b rest
    /\ forall a' b', s = a' +:+ b' -> (exists x, matches r b' x) ->
                     String.length a <= String.length a'.
Proof.
  induction s as [|d s IH]; intros before pre c rest H; cbn [search_from] in H.
  - destruct (head (run r [] "")) as [[c0 rest0]|] eqn:Hh; [|discriminate].
    injection H as <- <- <-. exists "", "".
    split; [reflexivity|]. split; [now rewrite sapp_nil_r|].
    split; [|intros; apply Nat.le_0_l].
    apply (run_spec r []). exists c0. destruct (run r [] ""); [discriminate|].
    injection Hh as ->. now left.
  - destruct (head (run r [] (String d s))) as [[c0 rest0]|] eqn:Hh.
    + injection H as <- <- <-. exists "", (String d s).
      split; [reflexivity|]. split; [now rewrite sapp_nil_r|].
      split; [|intros; apply Nat.le_0_l].
      apply (run_spec r []). exists c0. destruct (run r [] (String d s)); [discriminate|].
      injection Hh as ->. now left.
    + apply IH in H as (a & b & -> & -> & Hm & Hleft).
      exists (String d a), b. sapp. split; [reflexivity|]. split.
      * rewrite srev_cons, sapp_assoc. reflexivity.
      * split; [exact Hm|]. intros a' b' Heq Hex.
        destruct a' as [|d' a']; sapp.
        -- exfalso. subst b'. destruct Hex as (x & Hx).
           apply (run_spec r []) in Hx as (c' & Hx).
           destruct (run r [] (String d (a +:+ b))); [destruct Hx | discriminate].
        -- injection Heq as _ Heq. simpl. apply le_n_S. eapply Hleft; eauto.
Qed.

(** What a match leaves is a suffix of the text *)
Lemma matches_suffix r : forall s rest,
  matches r s rest -> exists w, s = w +:+ rest.
Proof.
  induction r as [|p|r1 IH1 r2 IH2|p|p|r1 IH1|n r1 IH1|r1 IH1|]; intros s rest;
    cbn [matches].
  - intros ->. now exists "".
  - intros (a & -> & _). now exists (String a "").
  - intros (mid & H1 & H2). apply IH1 in H1 as (w1 & ->). apply IH2 in H2 as (w2 & ->).
    exists (w1 +:+ w2). now rewrite sapp_assoc.
  - intros (w & -> & _). eauto.
  - intros (a & w & -> & _). now exists (String a w).
  - intros [H | ->]; [now apply IH1 | now exists ""].
  - apply IH1.
  - intros [-> _]. now exists "".
  - intros [-> _]. now exists "".
Qed.

Lemma re_search_spec r s pre c rest :
  re_search r s = Some (pre, c, rest) ->
  exists sep,
    s = pre +:+ sep +:+ rest /\ matches r (sep +:+ rest) rest
    /\ forall a' b', s = a' +:+ b' -> (exists x, matches r b' x) ->
                     String.length pre <= String.length a'.
Proof.
  intros H. apply search_from_spec in H as (a & b & -> & -> & Hm & Hleft).
  destruct (matches_suffix _ _ _ Hm) as (sep & ->).
  exists sep. change (srev "") with "". sapp. auto.
Qed.

(** [re.search] fails only when the pattern matches nowhere *)
Lemma search_from_none r : forall s before,
  search_from r before s = None ->
  forall a b, s = a +:+ b -> ~ (exists x, matches r b x).
Proof.
  induction s as [|d s IH]; intros before H a b Heq Hex; cbn [search_from] in H.
  - destruct a; [|discriminate]. sapp. subst b.
    apply (run_nonempty r []) in Hex.
    destruct (run r [] "") as [|[? ?] ?]; [congruence | discriminate].
  - destruct (run r [] (String d s)) as [|[c0 rest0] l] eqn:Hrun; [|discriminate].
    cbn [head] in H.
    destruct a as [|d' a]; sapp.
    + subst b. apply (run_nonempty r []) in Hex. congruence.
    + injection Heq as _ Heq. eapply IH; eauto.
Qed.

Lemma re_search_some r s a b x :
  s = a +:+ b -> matches r b x -> re_search r s <> None.
Proof.
  intros Heq Hm Hnone. eapply search_from_none; eauto.
Qed.

End ReFacts.

(* ===================================================================== *)
(** * Properties of step 1 *)
(* ===================================================================== *)

Module CleaningProps.
Import PyStr Re Pandas Cleaning.

(** ** Type detection *)

(** The keyword scan that [get_auto_type] falls through to *)
Definition keyword_type (q_text : string) : string :=
  if any_keyword SINGLE_KEYWORDS (lower q_text) then "Single"
  else if any_keyword MULTIPLE_KEYWORDS (lower q_text) then "Multiple"
  else "".

Lemma get_auto_type_bipolar q_text rank_labels options :
  get_auto_type q_text rank_labels options true = "Bipolar".
Proof. reflexivity. Qed.

Lemma get_auto_type_matrix q_text r rank_labels options :
  get_auto_type q_text (r :: rank_labels) options false = "Matrix".
Proof. reflexivity. Qed.

Lemma get_auto_type_flat q_text options :
  get_auto_type q_text [] options false = keyword_type q_text.
Proof. reflexivity. Qed.

Lemma keyword_type_cases q_text :
  keyword_type q_text = "Single" \/ keyword_type q_text = "Multiple"
  \/ keyword_type q_text = "".
Proof.
  unfold keyword_type.
  destruct (any_keyword SINGLE_KEYWORDS _); [now left|].
  destruct (any_keyword MULTIPLE_KEYWORDS _); [right; now left | right; now right].
Qed.

Lemma ranked_type q_text rank_labels options is_bipolar :
  rank_labels <> [] ->
  get_auto_type q_text rank_labels options is_bipolar
  = if is_bipolar then "Bipolar" else "Matrix".
Proof.
  intros Hne. destruct is_bipolar; [reflexivity|].
  destruct rank_labels; [congruence | reflexivity].
Qed.

(** C6.  The type detector answers "Bipolar" whenever the bipolar flag is
    set, "Matrix" whenever the flag is not set and there is a rank label,
    and only otherwise the result of the keyword scan, which is "Single",
    "Multiple" or the empty text.  Hence every question that
    [_parse_questions_from_file] returns with a non-empty list of rank
    labels carries the type Matrix or Bipolar, never Single or Multiple. *)
Theorem ranked_questions_are_matrix_or_bipolar :
  (forall q_text rank_labels options,
      get_auto_type q_text rank_labels options true = "Bipolar")
  /\ (forall q_text r rank_labels options,
         get_auto_type q_text (r :: rank_labels) options false = "Matrix")
  /\ (forall q_text options,
         get_auto_type q_text [] options false = keyword_type q_text
         /\ (keyword_type q_text = "Single" \/ keyword_type q_text = "Multiple"
             \/ keyword_type q_text = ""))
  /\ (forall parse_float df qs q auto_type,
         _parse_questions_from_file parse_float df = Some qs ->
         In (q, auto_type) qs ->
         rank_labels q <> [] ->
         (auto_type = "Matrix" \/ auto_type = "Bipolar")
         /\ auto_type <> "Single" /\ auto_type <> "Multiple").
Proof.
  split; [exact get_auto_type_bipolar|].
  split; [exact get_auto_type_matrix|].
  split; [intros; split; [apply get_auto_type_flat | apply keyword_type_cases]|].
  intros pf df qs q t Hparse Hin Hne.
  unfold _parse_questions_from_file in Hparse.
  destruct (parse_questions pf df) as [l|]; [|discriminate].
  injection Hparse as <-.
  apply in_map_iff in Hin as [q' [Heq _]].
  injection Heq as -> <-.
  rewrite (ranked_type _ _ _ _ Hne).
  destruct (is_bipolar q); repeat split; try (now left); try (now right); discriminate.
Qed.

(** ** Scale normalisation *)

Definition nps_trigger (q_text : string) : bool :=
  contains "1 to 10" (lower q_text) || contains "1-10" (lower q_text)
  || contains "scale of 0 to 10" (lower q_text).

Lemma expand_nps_untriggered q_text options :
  nps_trigger q_text = false -> expand_nps_if_needed q_text options = options.
Proof.
  unfold nps_trigger, expand_nps_if_needed. intros ->. reflexivity.
Qed.

Lemma expand_nps_length q_text options :
  nps_trigger q_text = true -> length (expand_nps_if_needed q_text options) = 10.
Proof.
  unfold nps_trigger, expand_nps_if_needed. intros ->.
  rewrite length_map. reflexivity.
Qed.

(** With both meanings between straight quotes the expansion is the list
    of the specification. *)
Example expand_nps_quoted :
  expand_nps_if_needed
    ("On a scale of 0 to 10, where 1 means " +:+ quoted_text "Poor"
     +:+ " and 10 means " +:+ quoted_text "Excellent") ["x"]
  = ["1- Poor"; "2"; "3"; "4"; "5"; "6"; "7"; "8"; "9"; "10- Excellent"].
Proof. vm_compute. reflexivity. Qed.

(** C4.  On the text of the specification, whose meanings are not quoted,
    the first label runs on to the end of the text: the pattern stops a
    meaning only at a closing quote. *)
Theorem expand_nps_unquoted_overruns :
  expand_nps_if_needed
    "On a scale of 0 to 10, where 1 means Poor and 10 means Excellent" ["x"]
  = ["1- Poor and 10 means Excellent"; "2"; "3"; "4"; "5"; "6"; "7"; "8"; "9";
     "10- Excellent"].
Proof. vm_compute. reflexivity. Qed.

(** ** Segmentation *)

(** A float parser for examples: only runs of digits are numbers *)
Definition digits_float (s : string) : option float_kind :=
  if isdigit s then Some FloatIntegral else None.

(** A grid with a single-select question, a header without options, a
    matrix question and a bipolar question *)
Definition sample_grid : list (list pdcell) :=
  [ [Some "Q1. Favorite color [Single choice]"; None; None];
    [Some "Answer Choices"; Some "Responses"; None];
    [Some "Red"; Some "10"; None];
    [Some "Blue"; Some "5"; None];
    [Some "Total"; Some "15"; None];
    [None; None; None];
    [Some "Q2. No options"; None; None];
    [None; None; None];
    [Some "Q3. Rate"; None; None];
    [None; Some "Agree"; Some "Disagree"];
    [Some "Price"; Some "1"; Some "2"];
    [Some "Quality"; Some "1"; Some "2"];
    [Some "Q4. Which"; None; None];
    [Some "Cheap or Expensive"; None; None];
    [None; Some "Cheap"; Some "Expensive"];
    [None; None; None];
    [Some "Fast or Slow"; None; None];
    [None; Some "Fast"; Some "Slow"] ].

(** The condition under which a flush appends the current segment *)
Definition flushes (st : seg_state) : bool :=
  truthy_opt (current_q_text st)
  && (nonempty (current_options st) || nonempty (current_rank_labels st)).

(** The segment a flush appends *)
Definition segment (st : seg_state) : question :=
  let text := match current_q_text st with Some t => t | None => "" end in
  mk_question text
    (if nonempty (current_rank_labels st) then current_options st
     else expand_nps_if_needed text (current_options st))
    (current_rank_labels st) (current_is_bipolar st).


Lemma flush_spec st :
  flush st = (questions st ++ (if flushes st then [segment st] else []))%list.
Proof.
  unfold flush, flushes, segment.
  destruct (current_q_text st) as [text|]; simpl; [|now rewrite app_nil_r].
  destruct (truthy text); simpl; [|now rewrite app_nil_r].
  destruct (nonempty (current_options st) || nonempty (current_rank_labels st));
    [reflexivity | now rewrite app_nil_r].
Qed.


Section SegmenterProps.

Variable parse_float : string -> option float_kind.







(** *** The loop returns unless a scale cell parses to an infinity *)

Section NoInfinity.

Hypothesis no_infinity : forall s, parse_float s <> Some FloatInf.






End NoInfinity.


End SegmenterProps.



Lemma ranked_questions_are_matrix_or_bipolar_witness :
  _parse_questions_from_file digits_float sample_grid
  = Some [ (mk_question "Favorite color [Single choice]" ["Red"; "Blue"] [] false,
            "Single");
           (mk_question "Rate" ["Price"; "Quality"] ["Agree"; "Disagree"] false,
            "Matrix");
           (mk_question "Which" ["Cheap or Expensive"; "Fast or Slow"]
                        ["Cheap"; "Expensive"] true, "Bipolar") ]
  /\ ("Matrix" = "Matrix" \/ "Matrix" = "Bipolar")
  /\ "Matrix" <> "Single" /\ "Matrix" <> "Multiple".
Proof.
  assert (Hp : _parse_questions_from_file digits_float sample_grid
               = Some [ (mk_question "Favorite color [Single choice]"
                           ["Red"; "Blue"] [] false, "Single");
                        (mk_question "Rate" ["Price"; "Quality"]
                           ["Agree"; "Disagree"] false, "Matrix");
                        (mk_question "Which" ["Cheap or Expensive"; "Fast or Slow"]
                           ["Cheap"; "Expensive"] true, "Bipolar") ])
    by (vm_compute; reflexivity).
  split; [exact Hp|].
  destruct ranked_questions_are_matrix_or_bipolar as (_ & _ & _ & H).
  apply (H digits_float sample_grid _
           (mk_question "Rate" ["Price"; "Quality"] ["Agree"; "Disagree"] false)
           "Matrix" Hp).
  - right. left. reflexivity.
  - discriminate.
Defined.

End CleaningProps.

(* ===================================================================== *)
(** * Properties of the cuts engine *)
(* ===================================================================== *)

Module CutsProps.
Import PyStr PyStrFacts Re Cuts.

(** ** Column allocation *)

Lemma widen_ge w b : w <= widen w b.
Proof. unfold widen. destruct (is_matrix b), (is_bipolar b); lia. Qed.

Lemma fold_widen_ge blocks : forall w, w <= fold_left widen blocks w.
Proof.
  induction blocks as [|b blocks IH]; intros w; simpl; [lia|].
  etransitivity; [apply (widen_ge w b) | apply IH].
Qed.

Lemma fold_widen_matrix blocks : forall w b,
  In b blocks -> is_matrix b = true ->
  num_rating_cols b + 1 + num_rating_cols b <= fold_left widen blocks w.
Proof.
  induction blocks as [|b0 blocks IH]; intros w b Hin Hm; simpl; [destruct Hin|].
  destruct Hin as [->|Hin]; [|now apply IH].
  etransitivity; [|apply fold_widen_ge].
  unfold widen. rewrite Hm. lia.
Qed.

Lemma fold_widen_bipolar blocks : forall w b,
  In b blocks -> is_matrix b = false -> is_bipolar b = true ->
  5 <= fold_left widen blocks w.
Proof.
  induction blocks as [|b0 blocks IH]; intros w b Hin Hm Hb; simpl; [destruct Hin|].
  destruct Hin as [->|Hin]; [|now apply (IH _ b)].
  etransitivity; [|apply fold_widen_ge].
  unfold widen. rewrite Hm, Hb. lia.
Qed.

Lemma allocate_start_ge blocks cuts : forall s cb,
  In cb (allocate blocks cuts s) -> s <= start_col cb.
Proof.
  induction cuts as [|c cuts IH]; intros s cb Hin; simpl in Hin; [destruct Hin|].
  destruct Hin as [<-|Hin]; simpl; [lia|].
  apply IH in Hin. lia.
Qed.

Lemma allocate_shape blocks cuts : forall s cb,
  In cb (allocate blocks cuts s) ->
  num_cat cb = length (categories cb)
  /\ max_width cb = cut_width blocks (num_cat cb)
  /\ end_col cb = start_col cb + max_width cb - 1.
Proof.
  induction cuts as [|c cuts IH]; intros s cb Hin; simpl in Hin; [destruct Hin|].
  destruct Hin as [<-|Hin]; simpl; [auto|].
  now apply IH in Hin.
Qed.




(** ** The formula-mutation helpers *)

(** The text of a formula after its leading equals sign, if it has one *)
Definition formula_body (formula : string) : string :=
  if startswith formula "=" then sdrop 1 formula else formula.

(** The two arguments that [add_demographic_filter_to_formula] inserts *)
Definition filter_args (cut_raw_col_letter ref : string) : string :=
  ", " +:+ raw_range cut_raw_col_letter +:+ "," +:+ ref.

(** The factor that [modify_multiple_select_n_formula] inserts *)
Definition filter_factor (cut_raw_col_letter ref : string) : string :=
  "*(" +:+ raw_range cut_raw_col_letter +:+ "=" +:+ ref +:+ ")".

Lemma formula_body_nonempty formula :
  formula_body formula <> "" -> truthy formula = true.
Proof.
  intros H. apply truthy_spec. intros ->. now apply H.
Qed.

Lemma formula_body_eq rest : formula_body ("=" +:+ rest) = rest.
Proof.
  unfold formula_body.
  assert (H : startswith ("=" +:+ rest) "=" = true)
    by (apply startswith_spec; eauto).
  now rewrite H.
Qed.

Lemma add_filter_unchanged formula letter ref :
  endswith (formula_body formula) ")" = false ->
  add_demographic_filter_to_formula formula letter ref = formula.
Proof.
  intros H. unfold add_demographic_filter_to_formula.
  destruct (truthy formula); [|reflexivity]. cbn [negb].
  fold (formula_body formula). now rewrite H.
Qed.

Lemma add_filter_conforming formula pre letter ref :
  formula_body formula = pre +:+ ")" ->
  add_demographic_filter_to_formula formula letter ref
  = "=" +:+ pre +:+ filter_args letter ref +:+ ")".
Proof.
  intros H. unfold add_demographic_filter_to_formula.
  rewrite formula_body_nonempty by (rewrite H; now destruct pre). cbn [negb].
  fold (formula_body formula).
  assert (He : endswith (formula_body formula) ")" = true)
    by (apply endswith_spec; eauto).
  rewrite He. cbn [negb]. rewrite H.
  change 1 with (String.length ")"). rewrite drop_end_app.
  unfold filter_args. now rewrite !sapp_assoc.
Qed.

Lemma modify_n_unchanged base_formula letter ref :
  startswith (upper (strip base_formula)) "=SUMPRODUCT" = false
  \/ endswith (strip base_formula) "*1)" = false ->
  modify_multiple_select_n_formula base_formula letter ref = base_formula.
Proof.
  intros H. unfold modify_multiple_select_n_formula.
  destruct (truthy base_formula); [|reflexivity]. cbn [negb].
  destruct (startswith (upper (strip base_formula)) "=SUMPRODUCT"); [|reflexivity].
  destruct H as [H|H]; [discriminate|]. now rewrite H.
Qed.

Lemma strip_empty : strip "" = "".
Proof. reflexivity. Qed.

Lemma modify_n_conforming base_formula pre letter ref :
  startswith (upper (strip base_formula)) "=SUMPRODUCT" = true ->
  strip base_formula = pre +:+ "*1)" ->
  modify_multiple_select_n_formula base_formula letter ref
  = pre +:+ filter_factor letter ref +:+ "*1)".
Proof.
  intros Hs H. unfold modify_multiple_select_n_formula.
  assert (Ht : truthy base_formula = true).
  { apply truthy_spec. intros ->. rewrite strip_empty in H. now destruct pre. }
  rewrite Ht, Hs. cbn [negb].
  assert (He : endswith (strip base_formula) "*1)" = true)
    by (apply endswith_spec; eauto).
  rewrite He. cbn [negb]. rewrite H.
  change 3 with (String.length "*1)"). rewrite drop_end_app.
  reflexivity.
Qed.

(** C10, amended.  [add_demographic_filter_to_formula] returns its input
    unchanged when the text after the leading equals sign does not end with
    a closing parenthesis; otherwise it returns an equals sign, that text
    without its last character, the two filter arguments and a closing
    parenthesis, which for an input that starts with an equals sign is the
    input with the arguments inserted before the final parenthesis.
    [modify_multiple_select_n_formula] tests the formula with the blanks at
    both ends removed: it returns its input unchanged when that text does not
    start with =SUMPRODUCT (ignoring case) or does not end with the suffix;
    otherwise it returns that text with the filter factor inserted before the
    suffix. *)
Theorem formula_helpers_conservative (formula letter ref : string) :
  (endswith (formula_body formula) ")" = false ->
   add_demographic_filter_to_formula formula letter ref = formula)
  /\ (forall pre, formula_body formula = pre +:+ ")" ->
        add_demographic_filter_to_formula formula letter ref
        = "=" +:+ pre +:+ filter_args letter ref +:+ ")")
  /\ (forall pre, formula = "=" +:+ pre +:+ ")" ->
        add_demographic_filter_to_formula formula letter ref
        = "=" +:+ pre +:+ filter_args letter ref +:+ ")")
  /\ (startswith (upper (strip formula)) "=SUMPRODUCT" = false
      \/ endswith (strip formula) "*1)" = false ->
      modify_multiple_select_n_formula formula letter ref = formula)
  /\ (forall pre,
        startswith (upper (strip formula)) "=SUMPRODUCT" = true ->
        strip formula = pre +:+ "*1)" ->
        modify_multiple_select_n_formula formula letter ref
        = pre +:+ filter_factor letter ref +:+ "*1)").
Proof.
  split; [apply add_filter_unchanged|].
  split; [intros; now apply add_filter_conforming|].
  split; [|split; [apply modify_n_unchanged | intros; now apply modify_n_conforming]].
  intros pre ->. apply add_filter_conforming. apply formula_body_eq.
Qed.

Lemma formula_helpers_conservative_witness :
  add_demographic_filter_to_formula "=COUNTIFS('Raw Data'!$B$3:$B$8000,A9)" "E" "$K$8"
  = "=COUNTIFS('Raw Data'!$B$3:$B$8000,A9, 'Raw Data'!$E$3:$E$8000,$K$8)"
  /\ add_demographic_filter_to_formula "=B9/2" "E" "$K$8" = "=B9/2"
  /\ modify_multiple_select_n_formula "=SUM(B9:B10)" "E" "$K$8" = "=SUM(B9:B10)"
  /\ modify_multiple_select_n_formula
       "=SUMPRODUCT((LEN('Raw Data'!B3:B8000)>0)*1)" "E" "$K$8"
     = "=SUMPRODUCT((LEN('Raw Data'!B3:B8000)>0)*('Raw Data'!$E$3:$E$8000=$K$8)*1)".
Proof.
  split; [|split; [|split]].
  - destruct (formula_helpers_conservative
                "=COUNTIFS('Raw Data'!$B$3:$B$8000,A9)" "E" "$K$8")
      as (_ & _ & H & _).
    exact (H "COUNTIFS('Raw Data'!$B$3:$B$8000,A9" eq_refl).
  - destruct (formula_helpers_conservative "=B9/2" "E" "$K$8") as (H & _).
    exact (H eq_refl).
  - destruct (formula_helpers_conservative "=SUM(B9:B10)" "E" "$K$8")
      as (_ & _ & _ & H & _).
    exact (H (or_introl eq_refl)).
  - destruct (formula_helpers_conservative
                "=SUMPRODUCT((LEN('Raw Data'!B3:B8000)>0)*1)" "E" "$K$8")
      as (_ & _ & _ & _ & H).
    exact (H "=SUMPRODUCT((LEN('Raw Data'!B3:B8000)>0)" eq_refl eq_refl).
Defined.

(** The claim as first stated fails twice: a formula with a leading blank
    does not start with =SUMPRODUCT and is rewritten all the same, and a
    formula without a leading equals sign gains one. *)
Lemma formula_helpers_not_literal :
  startswith (upper " =SUMPRODUCT((LEN(A3:A8000)>0)*1)") "=SUMPRODUCT" = false
  /\ modify_multiple_select_n_formula " =SUMPRODUCT((LEN(A3:A8000)>0)*1)" "E" "$K$8"
     <> " =SUMPRODUCT((LEN(A3:A8000)>0)*1)"
  /\ endswith "SUM(B9:B10)" ")" = true
  /\ add_demographic_filter_to_formula "SUM(B9:B10)" "E" "$K$8"
     <> "SUM(B9:B10" +:+ filter_args "E" "$K$8" +:+ ")".
Proof.
  split; [reflexivity|]. split; [vm_compute; discriminate|].
  split; [reflexivity|]. vm_compute. discriminate.
Qed.

(** ** Reading the sheet after the cut columns are written *)

Lemma cell_assign_eq (ws : sheet) r c v : cell (assign ws r c v) r c = v.
Proof.
  unfold cell, assign. destruct v; [apply lookup_insert_eq | apply lookup_delete_eq].
Qed.

Lemma cell_assign_ne (ws : sheet) r c v r' c' :
  (r, c) <> (r', c') -> cell (assign ws r c v) r' c' = cell ws r' c'.
Proof.
  intros H. unfold cell, assign.
  destruct v; [now apply lookup_insert_ne | now apply lookup_delete_ne].
Qed.

Lemma cell_with_eq (ws : sheet) r c x : cell (cell_with ws r c (Some x)) r c = Some x.
Proof. unfold cell, cell_with. apply lookup_insert_eq. Qed.

Lemma cell_with_ne (ws : sheet) r c v r' c' :
  (r, c) <> (r', c') -> cell (cell_with ws r c v) r' c' = cell ws r' c'.
Proof.
  intros H. unfold cell, cell_with. destruct v; [now apply lookup_insert_ne | reflexivity].
Qed.

(** A loop whose iterations all leave a cell alone leaves it alone *)
Lemma fold_frame {A : Type} (f : sheet -> A -> sheet) (l : list A) r c :
  (forall y ws, In y l -> cell (f ws y) r c = cell ws r c) ->
  forall ws, cell (fold_left f l ws) r c = cell ws r c.
Proof.
  induction l as [|x l IH]; intros H ws; cbn [fold_left]; [reflexivity|].
  rewrite IH by (intros; apply H; now right).
  apply H. now left.
Qed.

(** The value of a cell after a loop in which one iteration decides it and
    the other iterations leave it alone *)
Lemma fold_decided {A : Type} (f : sheet -> A -> sheet) (l1 l2 : list A) x r c ws :
  (forall y ws', In y l1 -> cell (f ws' y) r c = cell ws' r c) ->
  (forall y ws', In y l2 -> cell (f ws' y) r c = cell ws' r c) ->
  cell (fold_left f (l1 ++ x :: l2) ws) r c = cell (f (fold_left f l1 ws) x) r c.
Proof.
  intros H1 H2. rewrite fold_left_app. cbn [fold_left]. now apply fold_frame.
Qed.

Lemma range_split a b r :
  a <= r < b -> range a b = (range a r ++ r :: range (r + 1) b)%list.
Proof.
  intros H. unfold range.
  replace (b - a) with ((r - a) + S (b - (r + 1))) by lia.
  rewrite seq_app. simpl. repeat f_equal; lia.
Qed.

Lemma in_range a b x : In x (range a b) <-> a <= x < b.
Proof. unfold range. rewrite in_seq. lia. Qed.

(** *** The dropdown cells *)


(** *** Bipolar blocks *)









(** *** Matrix blocks *)

(** One row of the copy: the cut columns receive the base columns, and
    nothing else changes *)
Lemma copy_row_cells (ws : sheet) row start total :
  2 + total <= start ->
  (forall r c, r <> row \/ c < start ->
     cell (fold_left (fun ws co => assign ws row (start + co) (cell ws row (2 + co)))
                     (range 0 total) ws) r c
     = cell ws r c)
  /\ (forall k, k < total ->
        cell (fold_left (fun ws co => assign ws row (start + co) (cell ws row (2 + co)))
                        (range 0 total) ws) row (start + k)
        = cell ws row (2 + k)).
Proof.
  intros Hs.
  assert (Hframe : forall l r c ws0, r <> row \/ c < start ->
            cell (fold_left (fun ws co => assign ws row (start + co)
                                                 (cell ws row (2 + co))) l ws0) r c
            = cell ws0 r c).
  { intros l r c ws0 H. apply fold_frame. intros y ws' _.
    apply cell_assign_ne. intros E; injection E; lia. }
  split; [intros; now apply Hframe|].
  intros k Hk. rewrite (range_split 0 total k) by lia.
  rewrite fold_decided.
  - rewrite cell_assign_eq. apply Hframe. right. lia.
  - intros y ws' Hy. apply in_range in Hy.
    apply cell_assign_ne. intros E; injection E; lia.
  - intros y ws' Hy. apply in_range in Hy.
    apply cell_assign_ne. intros E; injection E; lia.
Qed.

Lemma matrix_copy_base b cb ws r c :
  2 + (num_rating_cols b + 1 + num_rating_cols b) <= start_col cb ->
  c < start_col cb ->
  cell (matrix_copy b cb ws) r c = cell ws r c.
Proof.
  intros Hs Hc. unfold matrix_copy. apply fold_frame. intros y ws' _.
  apply (copy_row_cells ws' (header_row b + y) (start_col cb) _ Hs). now right.
Qed.


Lemma matrix_rating_cell_frame cb col ws row r c :
  (row, col) <> (r, c) -> cell (matrix_rating_cell cb col ws row) r c = cell ws r c.
Proof.
  intros H. unfold matrix_rating_cell.
  destruct (cell ws row col) as [[f|n]|]; try reflexivity.
  destruct (startswith f "=" && endswith f ")"); [|reflexivity].
  now apply cell_assign_ne.
Qed.



Lemma matrix_n_cell_frame b cb ws row r c :
  (row, start_col cb + num_rating_cols b) <> (r, c) ->
  cell (matrix_n_cell b cb ws row) r c = cell ws r c.
Proof.
  intros H. unfold matrix_n_cell.
  destruct (contains "SUMPRODUCT" _ && endswith _ "*1)"); [|reflexivity].
  now apply cell_assign_ne.
Qed.


(** *** Flat blocks *)

Lemma combine_seq_split {A : Type} (l : list A) : forall k i x,
  l !! i = Some x ->
  exists l1 l2,
    combine (List.seq k (length l)) l = (l1 ++ (k + i, x) :: l2)%list
    /\ (forall y, In y l1 -> fst y < k + i)
    /\ (forall y, In y l2 -> k + i < fst y < k + length l).
Proof.
  induction l as [|a l IH]; intros k i x Hi; [discriminate|].
  destruct i as [|i]; simpl in Hi.
  - injection Hi as ->. exists [], (combine (List.seq (S k) (length l)) l).
    rewrite Nat.add_0_r. split; [reflexivity|]. split; [intros y []|].
    intros [j y] Hy. apply in_combine_l in Hy. apply in_seq in Hy. simpl. lia.
  - destruct (IH (S k) i x Hi) as (l1 & l2 & Heq & H1 & H2).
    exists ((k, a) :: l1), l2. simpl. rewrite Heq.
    replace (S k + i) with (k + S i) by lia. split; [reflexivity|]. split.
    + intros y [<-|Hy]; [simpl; lia|]. apply H1 in Hy. lia.
    + intros y Hy. apply H2 in Hy. lia.
Qed.

Lemma enumerate_split {A : Type} (l : list A) i x :
  l !! i = Some x ->
  exists l1 l2,
    enumerate l = (l1 ++ (i, x) :: l2)%list
    /\ (forall y, In y l1 -> fst y < i)
    /\ (forall y, In y l2 -> i < fst y < length l).
Proof. intros H. apply (combine_seq_split l 0 i x H). Qed.

Lemma flat_headers_frame b cb ws r c :
  r <> header_row b \/ c < start_col cb ->
  cell (flat_headers b cb ws) r c = cell ws r c.
Proof.
  intros H. unfold flat_headers. apply fold_frame. intros y ws' _.
  rewrite !cell_assign_ne; [reflexivity|..]; intros E; injection E; lia.
Qed.


Lemma flat_row_frame b cb ws row r c :
  r <> row \/ c < start_col cb ->
  cell (flat_row b cb ws row) r c = cell ws r c.
Proof.
  intros H. unfold flat_row.
  destruct (cell ws row 2) as [[f|n]|]; try reflexivity.
  destruct (startswith f "="); [|reflexivity].
  apply fold_frame. intros y ws' _.
  rewrite !cell_assign_ne; [reflexivity|..]; intros E; injection E; lia.
Qed.

Lemma flat_row_cell b cb ws r i cat f :
  num_cat cb = length (categories cb) ->
  categories cb !! i = Some cat ->
  cell ws r 2 = Some (VStr f) ->
  startswith f "=" = true ->
  cell (flat_row b cb ws r) r (start_col cb + i)
  = Some (VStr (flat_count_formula f (raw_col_letter cb)
                  (header_cell_ref (start_col cb + i) (header_row b)))).
Proof.
  intros Hn Hi Hf Hs. unfold flat_row. rewrite Hf, Hs.
  destruct (enumerate_split _ _ _ Hi) as (l1 & l2 & -> & H1 & H2).
  pose proof (lookup_lt_Some _ _ _ Hi) as Hlt.
  rewrite fold_decided.
  - cbn [fst snd]. rewrite cell_assign_ne by (intros E; injection E; lia).
    apply cell_assign_eq.
  - intros y ws' Hy. apply H1 in Hy.
    rewrite !cell_assign_ne; [reflexivity|..]; intros E; injection E; lia.
  - intros y ws' Hy. apply H2 in Hy.
    rewrite !cell_assign_ne; [reflexivity|..]; intros E; injection E; lia.
Qed.

Lemma flat_totals_frame b cb ws r c :
  r <> n_row b \/ c < start_col cb ->
  cell (flat_totals b cb ws) r c = cell ws r c.
Proof.
  intros H. unfold flat_totals. apply fold_frame. intros y ws' _.
  apply cell_assign_ne. intros E; injection E; lia.
Qed.

(** The counts of a flat data row, in the category columns of a cut *)
Lemma flat_count_cells b ws cb r i cat f :
  2 < start_col cb ->
  num_cat cb = length (categories cb) ->
  first_option_row b <= r <= last_option_row b ->
  last_option_row b < n_row b ->
  categories cb !! i = Some cat ->
  cell ws r 2 = Some (VStr f) ->
  startswith f "=" = true ->
  cell (flat_cut b ws cb) r (start_col cb + i)
  = Some (VStr (flat_count_formula f (raw_col_letter cb)
                  (header_cell_ref (start_col cb + i) (header_row b)))).
Proof.
  intros Hs Hn Hr Hlast Hi Hf Hst. unfold flat_cut.
  rewrite flat_totals_frame by (left; lia).
  rewrite (range_split (first_option_row b) (last_option_row b + 1) r) by lia.
  rewrite fold_decided.
  - apply (flat_row_cell b cb _ r i cat f); try assumption.
    rewrite fold_frame.
    + rewrite flat_headers_frame by (right; lia). exact Hf.
    + intros y ws' Hy. apply in_range in Hy. apply flat_row_frame. left. lia.
  - intros y ws' Hy. apply in_range in Hy. apply flat_row_frame. left. lia.
  - intros y ws' Hy. apply in_range in Hy. apply flat_row_frame. left. lia.
Qed.


Lemma flat_count_formula_plain pre letter ref :
  startswith (upper ("=" +:+ pre +:+ ")")) "=COUNTA" = false ->
  flat_count_formula ("=" +:+ pre +:+ ")") letter ref
  = "=" +:+ pre +:+ filter_args letter ref +:+ ")".
Proof.
  intros H. unfold flat_count_formula. rewrite H.
  apply add_filter_conforming, formula_body_eq.
Qed.


(** *** The criterion of the count formulas *)

(** A results sheet with one single-select block, as [create_databook]
    writes it *)
Definition flat_sheet : sheet :=
  list_to_map
    [ ((6, 1), VStr "Q1. Gender?"); ((7, 1), VStr "Type: Single | Base: ");
      ((8, 1), VStr "Response Option"); ((8, 2), VStr "N"); ((8, 3), VStr "%");
      ((9, 1), VStr "Yes");
      ((9, 2), VStr "=COUNTIFS('Raw Data'!$B$3:$B$8000,A9)");
      ((9, 3), VStr "=IFERROR(B9/B$11*100,0)");
      ((10, 1), VStr "No");
      ((10, 2), VStr "=COUNTIFS('Raw Data'!$B$3:$B$8000,A10)");
      ((10, 3), VStr "=IFERROR(B10/B$11*100,0)");
      ((11, 1), VStr "N"); ((11, 2), VStr "=SUM(B9:B10)") ].

Definition flat_block : block := mk_block 8 9 10 11 "single" false false 0.

Definition gender_cut : cut := mk_cut (Some 1) 5 ["Male"; "Female"].





End CutsProps.

(* ===================================================================== *)
(** * Properties of step 2 *)
(* ===================================================================== *)

Module TabulationProps.
Import PyStr PyStrFacts Re ReFacts Pandas Tabulation.

(** ** Pole pairs of bipolar questions *)

(** A separator: blanks, the word or in either case, blanks *)
Definition or_separator (sep : string) : Prop :=
  exists ws1 o r ws2,
    sep = ws1 +:+ String o (String r ws2)
    /\ ws1 <> "" /\ sall py_isspace ws1 = true
    /\ lower_char o = "o"%char /\ lower_char r = "r"%char
    /\ ws2 <> "" /\ sall py_isspace ws2 = true.

Lemma or_re_matches s rest :
  matches OR_RE s rest <-> exists sep, s = sep +:+ rest /\ or_separator sep.
Proof.
  unfold OR_RE. cbn [rseq word_ci matches]. split.
  - intros (mid & (a & w & -> & Ha & Hw) & mid0
            & (m & (o & -> & Ho) & m' & (r & -> & Hr) & ->)
            & mid1 & (b & v & -> & Hb & Hv) & ->).
    exists (String a w +:+ String o (String r (String b v))). split.
    + sapp. rewrite sapp_assoc. sapp. reflexivity.
    + exists (String a w), o, r, (String b v).
      unfold lit_ci in Ho, Hr. apply Ascii.eqb_eq in Ho, Hr.
      simpl. rewrite Ha, Hw, Hb, Hv.
      repeat split; try discriminate; try assumption; reflexivity.
  - intros (sep & -> & ws1 & o & r & ws2 & -> & Hne1 & Hw1 & Ho & Hr & Hne2 & Hw2).
    destruct ws1 as [|a w]; [congruence|]. destruct ws2 as [|b v]; [congruence|].
    simpl in Hw1, Hw2.
    apply andb_true_iff in Hw1 as [Ha Hw]. apply andb_true_iff in Hw2 as [Hb Hv].
    exists (String o (String r (String b v)) +:+ rest). split.
    { exists a, w. sapp. rewrite sapp_assoc. sapp. auto. }
    exists (String b v +:+ rest). split.
    { exists (String r (String b v) +:+ rest). split.
      - exists o. sapp. split; [reflexivity|]. unfold lit_ci. now rewrite Ho.
      - exists (String b v +:+ rest). split; [|reflexivity].
        exists r. sapp. split; [reflexivity|]. unfold lit_ci. now rewrite Hr. }
    exists rest. split; [|reflexivity]. exists b, v. sapp. auto.
Qed.

Lemma lower_char_blank c : lower_char c = " "%char -> c = " "%char.
Proof.
  destruct c as [[] [] [] [] [] [] [] []]; vm_compute; congruence.
Qed.

Lemma lower_app_inv s : forall a b,
  lower s = a +:+ b -> exists a' b', s = a' +:+ b' /\ lower a' = a /\ lower b' = b.
Proof.
  unfold lower. induction s as [|c s IH]; intros a b H; simpl in H.
  - destruct a; [|discriminate]. sapp. exists "", "". auto.
  - destruct a as [|d a]; sapp.
    + exists "", (String c s). auto.
    + injection H as Hd H. apply IH in H as (a' & b' & -> & <- & <-).
      exists (String c a'), b'. simpl. sapp. now rewrite Hd.
Qed.

Lemma contains_or_separator opt :
  contains " or " (lower opt) = true ->
  exists pre sep post, opt = pre +:+ sep +:+ post /\ or_separator sep.
Proof.
  intros H. apply contains_spec in H as (a & b & H).
  apply lower_app_inv in H as (pre & t & -> & _ & H).
  apply lower_app_inv in H as (sep & post & -> & Hsep & _).
  exists pre, sep, post. split; [reflexivity|].
  destruct sep as [|c1 [|c2 [|c3 [|c4 [|c5 sep]]]]]; try discriminate.
  unfold lower in Hsep. simpl in Hsep. injection Hsep as H1 H2 H3 H4.
  apply lower_char_blank in H1, H4. subst c1 c4.
  exists " ", c2, c3, " ". repeat split; auto; discriminate.
Qed.

Lemma or_separator_ends sep :
  or_separator sep -> sep <> "" /\ no_lead sep = false /\ no_trail sep = false.
Proof.
  intros (ws1 & o & r & ws2 & -> & Hne1 & Hw1 & _ & _ & Hne2 & Hw2).
  destruct ws1 as [|a w]; [congruence|]. simpl in Hw1.
  apply andb_true_iff in Hw1 as [Ha _].
  split; [discriminate|]. split; [simpl; now rewrite Ha|].
  replace (String a w +:+ String o (String r ws2))
    with ((String a w +:+ String o (String r "")) +:+ ws2)
    by (rewrite sapp_assoc; reflexivity).
  rewrite no_trail_app by assumption.
  unfold no_trail. rewrite <- sall_srev in Hw2.
  destruct (srev ws2) as [|b v] eqn:Hr.
  - apply (proj1 (srev_empty ws2)) in Hr. congruence.
  - simpl in *. apply andb_true_iff in Hw2 as [Hb _]. now rewrite Hb.
Qed.

(** What the loop makes of one option *)
Definition pole_pair_spec (opt : string) (pp : string * string) : Prop :=
  if contains " or " (lower opt) then
    exists pre sep post,
      opt = pre +:+ sep +:+ post /\ or_separator sep
      /\ pp = (strip pre, strip post)
      /\ (forall pre' sep' post',
             opt = pre' +:+ sep' +:+ post' -> or_separator sep' ->
             String.length pre <= String.length pre')
      /\ fst pp <> "" /\ snd pp <> ""
  else pp = (opt, "").

Lemma pole_pair_correct opt :
  strip opt = opt -> exists pp, pole_pair opt = Some pp /\ pole_pair_spec opt pp.
Proof.
  intros Hstrip. unfold pole_pair, pole_pair_spec.
  destruct (contains " or " (lower opt)) eqn:Hc; [|eauto].
  destruct (contains_or_separator _ Hc) as (pre0 & sep0 & post0 & Heq0 & Hsep0).
  unfold re_split1.
  destruct (re_search OR_RE opt) as [[[pre c] post]|] eqn:Hs.
  - apply re_search_spec in Hs as (sep & Heq & Hm & Hleft).
    apply or_re_matches in Hm as (sep' & Hsep' & Hor).
    apply sapp_inv_tail in Hsep'. subst sep'.
    exists (strip pre, strip post). split; [reflexivity|].
    exists pre, sep, post. repeat split; try assumption.
    + intros pre' sep' post' Heq' Hor'. apply (Hleft pre' (sep' +:+ post') Heq').
      exists post'. apply or_re_matches. eauto.
    + destruct (or_separator_ends _ Hor) as (Hne & Hlead & _).
      destruct (strip_trimmed opt) as [Hl _]. rewrite Hstrip in Hl.
      assert (Hpre : pre <> "").
      { intros ->. sapp. rewrite Heq, no_lead_app in Hl by assumption. congruence. }
      apply strip_nonempty_lead; [assumption|].
      rewrite Heq, no_lead_app in Hl by assumption. exact Hl.
    + destruct (or_separator_ends _ Hor) as (Hne & _ & Htrail).
      destruct (strip_trimmed opt) as [_ Ht]. rewrite Hstrip in Ht.
      assert (Hpost : post <> "").
      { intros ->. rewrite sapp_nil_r in Heq.
        rewrite Heq, no_trail_app in Ht by assumption. congruence. }
      apply strip_nonempty_trail; [assumption|].
      rewrite Heq, <- sapp_assoc, no_trail_app in Ht by assumption. exact Ht.
  - exfalso. apply (re_search_some OR_RE opt pre0 (sep0 +:+ post0) post0 Heq0);
      [|assumption].
    apply or_re_matches. eauto.
Qed.

Lemma pole_pairs_correct options :
  Forall (fun opt => strip opt = opt) options ->
  exists pps,
    pole_pairs options = Some pps
    /\ length pps = length options
    /\ Forall2 pole_pair_spec options pps.
Proof.
  induction 1 as [|opt options Hopt _ (pps & Hp & Hl & Hf)]; cbn [pole_pairs].
  - exists []. repeat split. constructor.
  - destruct (pole_pair_correct opt Hopt) as (pp & Hpp & Hspec).
    rewrite Hpp, Hp. exists (pp :: pps). repeat split.
    + simpl. now rewrite Hl.
    + now constructor.
Qed.

Lemma load_options_stripped column :
  Forall (fun opt => strip opt = opt) (load_options column).
Proof.
  unfold load_options. apply List.Forall_forall. intros opt Hin.
  apply in_map_iff in Hin as (v & <- & _). apply strip_idempotent.
Qed.

(** C5, amended.  For a Bipolar question the loop of [load_options_file]
    builds one pole pair per option.  An option without " or " (ignoring
    case) yields the pair of the option and the empty text, and nothing is
    raised or flagged.  An option with it is split at the leftmost run of
    blanks, the word or in either case and blanks (which need not be the
    first occurrence of " or " itself); the two sides, stripped, are the
    poles and both are non-empty. *)
Theorem bipolar_pole_pairs (column : list pdcell) :
  exists pps,
    pole_pairs (load_options column) = Some pps
    /\ length pps = length (load_options column)
    /\ Forall2 pole_pair_spec (load_options column) pps.
Proof. apply pole_pairs_correct, load_options_stripped. Qed.

(** With a tabulation before the first or, the option is not split at its
    first " or ": the text before that occurrence and the text after it are
    not the poles. *)
Lemma pole_pair_not_first_literal :
  load_options [Some (String "a" (String "009" "or b or c"))]
  = [String "a" (String "009" "or b or c")]
  /\ contains " or " (lower (String "a" (String "009" "or b or c"))) = true
  /\ split_first " or " (String "a" (String "009" "or b or c"))
     = Some (String "a" (String "009" "or b"), "c")
  /\ pole_pairs [String "a" (String "009" "or b or c")] = Some [("a", "b or c")]
  /\ pole_pairs [String "a" (String "009" "or b or c")]
     <> Some [(strip (String "a" (String "009" "or b")), strip "c")].
Proof. vm_compute. repeat split; discriminate. Qed.

(** ** Splitting a multi-select cell *)

(** The first parenthesis of the text, if any, is a closing one *)
Fixpoint next_paren_closes (s : string) : bool :=
  match s with
  | EmptyString => false
  | String c s' =>
      if Ascii.eqb c ")" then true
      else if Ascii.eqb c "(" then false
      else next_paren_closes s'
  end.

Lemma none_of_parens c :
  none_of "()" c = negb (Ascii.eqb c "(") && negb (Ascii.eqb c ")").
Proof.
  unfold none_of, one_of. cbn [contains String.prefix].
  destruct (ascii_dec c "(") as [->|H1]; [reflexivity|].
  destruct (ascii_dec c ")") as [->|H2]; [reflexivity|].
  apply Ascii.eqb_neq in H1 as E1. apply Ascii.eqb_neq in H2 as E2.
  rewrite E1, E2. simpl. reflexivity.
Qed.

Lemma next_paren_closes_spec s :
  next_paren_closes s = true
  <-> exists v x, s = v +:+ String ")" x /\ sall (none_of "()") v = true.
Proof.
  induction s as [|c s IH]; simpl.
  - split; [discriminate | intros (v & x & H & _); now destruct v].
  - destruct (Ascii.eqb c ")") eqn:E1.
    + apply Ascii.eqb_eq in E1 as ->. split; [|reflexivity].
      intros _. now exists "", s.
    + destruct (Ascii.eqb c "(") eqn:E2.
      * split; [discriminate|]. intros (v & x & H & Hv).
        destruct v as [|d v]; sapp; injection H as -> _.
        -- discriminate.
        -- simpl in Hv. rewrite none_of_parens, E2 in Hv. discriminate.
      * rewrite IH. split.
        -- intros (v & x & -> & Hv). exists (String c v), x. sapp.
           split; [reflexivity|]. simpl. now rewrite none_of_parens, E1, E2, Hv.
        -- intros (v & x & H & Hv). destruct v as [|d v]; sapp; injection H as -> ->.
           ++ discriminate.
           ++ simpl in Hv. apply andb_true_iff in Hv as [_ Hv]. eauto.
Qed.

Lemma next_paren_closes_blanks w t :
  sall py_isspace w = true -> next_paren_closes (w +:+ t) = next_paren_closes t.
Proof.
  induction w as [|c w IH]; sapp; [reflexivity|]. simpl.
  intros H. apply andb_true_iff in H as [Hc Hw].
  destruct (Ascii.eqb c ")") eqn:E1;
    [apply Ascii.eqb_eq in E1; subst c; discriminate|].
  destruct (Ascii.eqb c "(") eqn:E2;
    [apply Ascii.eqb_eq in E2; subst c; discriminate|].
  now apply IH.
Qed.

(** A comma separates two tokens exactly when the first parenthesis after
    it, if any, is an opening one *)
Lemma comma_splits t :
  run SPLIT_RE [] (String "," t) <> [] <-> next_paren_closes t = false.
Proof.
  rewrite run_nonempty. unfold SPLIT_RE. cbn [rseq matches]. split.
  - intros (rest & mid & (a & Ha & _) & mid2 & (w & Hw & Hsp)
            & mid3 & (-> & Hno) & ->).
    injection Ha as _ <-. subst t.
    rewrite next_paren_closes_blanks by assumption.
    destruct (next_paren_closes mid2) eqn:Hc; [|reflexivity].
    exfalso. apply Hno. apply next_paren_closes_spec in Hc as (v & x & -> & Hv).
    exists x, (String ")" x). split; [eauto|]. exists ")"%char. auto.
  - intros Hc. exists t, t. split; [exists ","%char; auto|].
    exists t. split; [now exists ""|]. exists t. split; [|reflexivity].
    split; [reflexivity|]. intros (x & m & (v & -> & Hv) & a & -> & Ha).
    apply Ascii.eqb_eq in Ha as <-.
    assert (next_paren_closes (v +:+ String ")" x) = true)
      by (apply next_paren_closes_spec; eauto).
    congruence.
Qed.

(** The three commas of the cell Red, Blue (Light, Dark), Green: the one
    between Light and Dark is followed by a closing parenthesis before any
    opening one and is kept, the two other commas separate tokens. *)
Lemma commas_of_the_example :
  split_multi_select_options "Red, Blue (Light, Dark), Green"
  = ["Red"; "Blue (Light, Dark)"; "Green"]
  /\ (forall t, run SPLIT_RE [] (String "," t) <> [] <-> next_paren_closes t = false)
  /\ next_paren_closes " Dark), Green" = true
  /\ next_paren_closes " Blue (Light, Dark), Green" = false
  /\ next_paren_closes " Green" = false.
Proof.
  split; [vm_compute; reflexivity|]. split; [exact comma_splits|].
  repeat split.
Qed.

(** ** Percentages and bases *)

(** An exact interpretation of the float operations, numerator over
    denominator and no rounding, to evaluate examples *)
Definition frac : Type := (nat * nat)%type.
Definition frac_zero : frac := (0, 1).
Definition frac_div (a b : nat) : frac := (a, b).
Definition frac_mul100 (x : frac) : frac := (100 * fst x, snd x).
Definition frac_round1 (x : frac) : frac := x.

Lemma insert_desc_Forall {A : Type} (P : A -> Prop) key x (l : list A) :
  P x -> List.Forall P l -> List.Forall P (insert_desc key x l).
Proof.
  intros Hx. induction 1 as [|y l Hy Hl IH]; simpl.
  - now constructor.
  - destruct (key y <=? key x); repeat constructor; assumption.
Qed.

Lemma sort_desc_Forall {A : Type} (P : A -> Prop) key (l : list A) :
  List.Forall P l -> List.Forall P (sort_desc key l).
Proof.
  unfold sort_desc. induction 1; simpl; [constructor|].
  now apply insert_desc_Forall.
Qed.

Lemma insert_desc_length {A : Type} key x (l : list A) :
  length (insert_desc key x l) = S (length l).
Proof.
  induction l as [|y l IH]; simpl; [reflexivity|].
  destruct (key y <=? key x); simpl; congruence.
Qed.

Section PercentProps.

Context {F : Type}.
Variable float_zero : F.
Variable fdiv : nat -> nat -> F.
Variable fmul100 : F -> F.
Variable round1 : F -> F.

Local Abbreviation percentage := (percentage float_zero fdiv fmul100 round1).
Local Abbreviation make_result := (make_result float_zero fdiv fmul100 round1).
Local Abbreviation build_results := (build_results float_zero fdiv fmul100 round1).
Local Abbreviation process_single_select :=
  (process_single_select float_zero fdiv fmul100 round1).
Local Abbreviation process_multi_select :=
  (process_multi_select float_zero fdiv fmul100 round1).
Local Abbreviation process_matrix := (process_matrix float_zero fdiv fmul100 round1).

(** The percentage the specification asks for *)
Definition expected_percentage (count base : nat) : F :=
  if base =? 0 then float_zero else round1 (fmul100 (fdiv count base)).

Lemma percentage_total count base :
  percentage count base = Some (expected_percentage count base).
Proof.
  unfold Tabulation.percentage, expected_percentage, truediv.
  destruct base as [|base]; reflexivity.
Qed.

(** A result entry whose fields are consistent with count and base *)
Definition result_ok (values : list string) (total_base : nat) (r : result) : Prop :=
  r_base r = total_base
  /\ r_count r = count_of (r_option r) values
  /\ r_percentage r = expected_percentage (r_count r) total_base.

Lemma make_result_total opt count total_base :
  make_result opt count total_base
  = Some (mk_result opt count (expected_percentage count total_base) total_base).
Proof. unfold Tabulation.make_result. now rewrite percentage_total. Qed.

Lemma mapM_total {A B : Type} (f : A -> option B) (g : A -> B) (l : list A) :
  (forall x, f x = Some (g x)) -> mapM f l = Some (map g l).
Proof.
  intros H. apply mapM_Some. induction l; constructor; auto.
Qed.

Lemma count_of_distinct v values :
  In v (distinct values) -> In v values.
Proof.
  induction values as [|w values IH]; simpl; [tauto|].
  intros [->|H]; [now left|]. right. apply IH.
  apply List.filter_In in H. tauto.
Qed.

Lemma build_results_ok values total_base options :
  exists results,
    build_results values total_base options = Some results
    /\ List.Forall (result_ok values total_base) results
    /\ (options <> [] -> map r_option results = options).
Proof.
  unfold Tabulation.build_results. destruct options as [|o options].
  - rewrite (mapM_total _
               (fun oc => mk_result (fst oc) (snd oc)
                            (expected_percentage (snd oc) total_base) total_base))
      by (intros; apply make_result_total).
    eexists. split; [reflexivity|]. split; [|congruence].
    apply sort_desc_Forall. apply List.Forall_forall. intros r Hin.
    apply in_map_iff in Hin as ([v n] & <- & Hin).
    unfold value_counts in Hin.
    assert (Hall : List.Forall (fun vn => snd vn = count_of (fst vn) values)
                     (sort_desc snd (map (fun v => (v, count_of v values))
                                         (distinct values)))).
    { apply sort_desc_Forall, List.Forall_forall. intros vn Hvn.
      apply in_map_iff in Hvn as (w & <- & _). reflexivity. }
    rewrite List.Forall_forall in Hall. specialize (Hall _ Hin). simpl in Hall.
    repeat split; simpl; auto.
  - rewrite (mapM_total _
               (fun opt => mk_result opt (count_of opt values)
                             (expected_percentage (count_of opt values) total_base)
                             total_base))
      by (intros; apply make_result_total).
    eexists. split; [reflexivity|]. split.
    + apply List.Forall_forall. intros r Hin.
      apply in_map_iff in Hin as (w & <- & _). repeat split.
    + intros _. rewrite map_map. simpl. f_equal. apply map_id.
Qed.

Lemma sort_desc_length {A : Type} key (l : list A) :
  length (sort_desc key l) = length l.
Proof.
  unfold sort_desc. induction l as [|x l IH]; cbn [fold_right length]; [reflexivity|].
  now rewrite insert_desc_length, IH.
Qed.

(** Without declared options there is one entry per distinct answer *)
Lemma build_results_fallback values total_base results :
  build_results values total_base [] = Some results ->
  length results = length (distinct values).
Proof.
  unfold Tabulation.build_results.
  rewrite (mapM_total _
             (fun oc => mk_result (fst oc) (snd oc)
                          (expected_percentage (snd oc) total_base) total_base))
    by (intros; apply make_result_total).
  intros H; injection H as <-. unfold value_counts.
  now rewrite sort_desc_length, length_map, sort_desc_length, length_map.
Qed.

(** The cells of one matrix row carry the expected percentage *)
Definition matrix_cell_ok (total : nat) (cell : string * matrix_cell) : Prop :=
  m_percentage (snd cell) = expected_percentage (m_count (snd cell)) total.

Lemma process_matrix_ok df sub_headers q options rank_labels :
  exists res,
    process_matrix df sub_headers q options rank_labels = Some res
    /\ m_base res = length df
    /\ map fst (m_data res) = options
    /\ List.Forall (fun row => map fst (snd row) = rank_labels
                               /\ List.Forall (matrix_cell_ok (length df)) (snd row))
                   (m_data res).
Proof.
  unfold Tabulation.process_matrix.
  set (all_cols := main_col_idx q :: unnamed_cols q).
  set (multi := is_multi_select_matrix sub_headers all_cols).
  set (mapping := column_mapping multi rank_labels sub_headers all_cols).
  set (cellf := fun option_attribute rank_label =>
         (rank_label,
          mk_matrix_cell (matrix_count multi df mapping option_attribute rank_label)
            (expected_percentage
               (matrix_count multi df mapping option_attribute rank_label)
               (length df)))).
  rewrite (mapM_total _ (fun a => (a, map (cellf a) rank_labels))).
  - eexists. split; [reflexivity|]. cbn [m_base m_data].
    split; [reflexivity|]. split.
    + rewrite map_map. simpl. apply map_id.
    + apply List.Forall_forall. intros row Hin.
      apply in_map_iff in Hin as (a & <- & _). cbn [snd]. split.
      * rewrite map_map. simpl. apply map_id.
      * apply List.Forall_forall. intros cell Hin.
        apply in_map_iff in Hin as (l & <- & _). reflexivity.
  - intros a. rewrite (mapM_total _ (cellf a)); [reflexivity|].
    intros l. now rewrite percentage_total.
Qed.

(** C3.  In the three tabulation paths the percentage of an entry is
    computed by one guarded expression: it is the literal 0.0 when the base
    is 0 and the quotient of count and base, times 100, rounded to one
    decimal, when the base is positive.  The division is never evaluated
    with a zero base, so no path fails: [process_single_select],
    [process_multi_select] and [process_matrix] always return, and they
    compute that percentage for every entry the question has.  The single
    and the multiple path return one entry per declared option, in the
    declared order, or one per distinct answer when no option is declared,
    each with the count of its option, the base and the percentage of that
    count and base.  The matrix path returns one row per attribute, in order,
    each row with one cell per rank label, in order, and every cell carries
    the percentage of its count and of the number of rows of the data. *)
Theorem percentages_guarded :
  (forall count, percentage count 0 = Some float_zero)
  /\ (forall count base,
         0 < base ->
         percentage count base = Some (round1 (fmul100 (fdiv count base))))
  /\ (forall series options,
         exists results,
           process_single_select series options = Some results
           /\ List.Forall (result_ok (series_clean series)
                             (length (series_clean series))) results
           /\ (options <> [] -> map r_option results = options)
           /\ (options = [] ->
                length results = length (distinct (series_clean series))))
  /\ (forall series options,
         exists results,
           process_multi_select series options = Some results
           /\ List.Forall (result_ok (all_options series)
                             (length (dropna series))) results
           /\ (options <> [] -> map r_option results = options)
           /\ (options = [] ->
                length results = length (distinct (all_options series))))
  /\ (forall df sub_headers q options rank_labels,
         exists res,
           process_matrix df sub_headers q options rank_labels = Some res
           /\ m_base res = length df
           /\ map fst (m_data res) = options
           /\ List.Forall (fun row => map fst (snd row) = rank_labels
                                      /\ List.Forall (matrix_cell_ok (length df))
                                                     (snd row))
                          (m_data res)).
Proof.
  split; [reflexivity|].
  split.
  { intros count base Hb. rewrite percentage_total. unfold expected_percentage.
    destruct base; [lia | reflexivity]. }
  split.
  { intros series options. unfold Tabulation.process_single_select.
    destruct (build_results_ok (series_clean series) (length (series_clean series))
                options) as (results & H & Hok & Hopts).
    exists results. split; [exact H|]. split; [exact Hok|]. split; [exact Hopts|].
    intros ->. eapply build_results_fallback. exact H. }
  split.
  { intros series options. unfold Tabulation.process_multi_select.
    destruct (build_results_ok (all_options series) (length (dropna series)) options)
      as (results & H & Hok & Hopts).
    exists results. split; [exact H|]. split; [exact Hok|]. split; [exact Hopts|].
    intros ->. eapply build_results_fallback. exact H. }
  intros df sub_headers q options rank_labels.
  apply process_matrix_ok.
Qed.

End PercentProps.

Lemma percentages_guarded_witness :
  percentage frac_zero frac_div frac_mul100 frac_round1 1 4 = Some (100, 4).
Proof.
  destruct (percentages_guarded frac_zero frac_div frac_mul100 frac_round1)
    as (_ & H & _).
  apply (H 1 4). lia.
Defined.

(** ** The base of a multi-select question *)

(** The tokens that one present cell contributes to [all_options] *)
Definition tokens (val : string) : list string :=
  if countable_cell val then split_multi_select_options (strip val) else [].

(** The rows that contribute at least one token *)
Definition contributing_rows (series : list pdcell) : nat :=
  length (List.filter (fun val => match tokens val with [] => false | _ => true end)
                      (dropna series)).

(** The row has a non-blank cell in one of the columns of the question *)
Definition answered (q : question_info) (row : list pdcell) : bool :=
  existsb (fun idx => match stripped_text (iloc row idx) with
                      | Some _ => true
                      | None => false
                      end)
          (main_col_idx q :: unnamed_cols q).

Lemma omap_nil_iff {A B : Type} (f : A -> option B) (l : list A) :
  omap f l = [] <-> existsb (fun x => match f x with Some _ => true | None => false end) l
                    = false.
Proof.
  induction l as [|x l IH]; simpl; [tauto|].
  destruct (f x); simpl; [split; discriminate | exact IH].
Qed.

Lemma merge_row_missing q row : merge_row q row = None <-> answered q row = false.
Proof.
  unfold merge_row, answered. rewrite <- omap_nil_iff.
  destruct (omap _ _); split; congruence.
Qed.

Lemma dropna_cons_some v series : dropna (Some v :: series) = v :: dropna series.
Proof. reflexivity. Qed.

Lemma dropna_cons_none series : dropna (None :: series) = dropna series.
Proof. reflexivity. Qed.

Lemma merged_base df q :
  length (dropna (merge_unnamed_columns df q)) = length (List.filter (answered q) df).
Proof.
  unfold merge_unnamed_columns. induction df as [|row df IH]; [reflexivity|].
  cbn [map List.filter].
  destruct (merge_row q row) as [v|] eqn:Hm.
  - rewrite dropna_cons_some. destruct (answered q row) eqn:Ha.
    + cbn [length]. now rewrite IH.
    + apply merge_row_missing in Ha. congruence.
  - rewrite dropna_cons_none. apply merge_row_missing in Hm. now rewrite Hm.
Qed.

Lemma count_of_app opt a b : count_of opt (a ++ b) = count_of opt a + count_of opt b.
Proof. unfold count_of. now rewrite List.filter_app, length_app. Qed.

Lemma count_of_flat_map {A : Type} opt (f : A -> list string) (l : list A) :
  count_of opt (flat_map f l) = list_sum (map (fun x => count_of opt (f x)) l).
Proof.
  induction l as [|x l IH]; simpl; [reflexivity|].
  now rewrite count_of_app, IH.
Qed.

Lemma contributing_le series : contributing_rows series <= length (dropna series).
Proof. apply List.filter_length_le. Qed.

Lemma contributing_all series :
  List.Forall (fun val => tokens val <> []) (dropna series) ->
  contributing_rows series = length (dropna series).
Proof.
  unfold contributing_rows. induction 1 as [|val l Hval _ IH]; [reflexivity|].
  simpl. destruct (tokens val); [congruence|]. simpl. now rewrite IH.
Qed.

Section BaseProps.

Context {F : Type}.
Variable float_zero : F.
Variable fdiv : nat -> nat -> F.
Variable fmul100 : F -> F.
Variable round1 : F -> F.

(** C9, amended.  [process_multi_select] always returns; every token of
    every present cell other than the placeholders Response and Open-Ended
    Response is counted on its own, so the count of an option is the sum over
    the cells of its occurrences among the tokens of the cell; the base of
    every entry is the number of present cells of the merged series, which is
    the number of rows with a non-blank cell in a column of the question, and
    not the number of tokens.  That base is at least the number of rows that
    contribute a token, and equal to it when every present cell contributes
    one. *)
Theorem multi_select_base_is_present_rows (series : list pdcell) (options : list string) :
  (exists results,
      process_multi_select float_zero fdiv fmul100 round1 series options = Some results
      /\ List.Forall
           (fun r =>
              r_base r = length (dropna series)
              /\ r_count r
                 = list_sum (map (fun val => count_of (r_option r) (tokens val))
                                 (dropna series)))
           results
      /\ (options <> [] -> map r_option results = options))
  /\ (forall df q,
         length (dropna (merge_unnamed_columns df q))
         = length (List.filter (answered q) df))
  /\ contributing_rows series <= length (dropna series)
  /\ (List.Forall (fun val => tokens val <> []) (dropna series) ->
      contributing_rows series = length (dropna series)).
Proof.
  split.
  { unfold process_multi_select.
    destruct (build_results_ok float_zero fdiv fmul100 round1 (all_options series)
                (length (dropna series)) options) as (results & H & Hok & Hopts).
    exists results. split; [assumption|]. split; [|assumption].
    eapply List.Forall_impl; [|exact Hok].
    intros r (Hb & Hc & _). split; [assumption|].
    rewrite Hc. unfold all_options. apply count_of_flat_map. }
  split; [exact merged_base|].
  split; [apply contributing_le | apply contributing_all].
Qed.

End BaseProps.

Lemma multi_select_base_is_present_rows_witness :
  contributing_rows [Some "A, B (x, y)"; None; Some "C"] = 2
  /\ length (dropna [Some "A, B (x, y)"; None; Some "C"]) = 2.
Proof.
  split; [|reflexivity].
  destruct (multi_select_base_is_present_rows frac_zero frac_div frac_mul100
              frac_round1 [Some "A, B (x, y)"; None; Some "C"] ["A"])
    as (_ & _ & _ & H).
  apply H.
  change (dropna [Some "A, B (x, y)"; None; Some "C"]) with ["A, B (x, y)"; "C"].
  repeat constructor; intros E; vm_compute in E; discriminate E.
Defined.

(** A placeholder row is counted in the base and contributes no token. *)
Lemma multi_select_base_counts_placeholder_rows :
  process_multi_select frac_zero frac_div frac_mul100 frac_round1
    [Some "Response"; Some "A, B"] ["A"; "B"]
  = Some [mk_result "A" 1 (100, 2) 2; mk_result "B" 1 (100, 2) 2]
  /\ contributing_rows [Some "Response"; Some "A, B"] = 1.
Proof. vm_compute. split; reflexivity. Qed.

End TabulationProps.

(* ===================================================================== *)
(** * Properties of the column letters *)
(* ===================================================================== *)

Module LettersProps.
Import PyStr PyStrFacts Cuts Letters.

Lemma column_index_from_acc s : forall acc,
  column_index_from s acc = acc * 26 ^ String.length s + column_index_from s 0.
Proof.
  induction s as [|c s IH]; intros acc; simpl; [lia|].
  rewrite (IH (acc * 26 + (nat_of_ascii c - 64))), (IH (nat_of_ascii c - 64)). lia.
Qed.

Lemma column_index_cons c s :
  column_index (String c s)
  = (nat_of_ascii c - 64) * 26 ^ String.length s + column_index s.
Proof. unfold column_index. simpl. apply column_index_from_acc. Qed.

Lemma letter_digit remainder :
  remainder < 26 -> nat_of_ascii (ascii_of_nat (65 + remainder)) - 64 = remainder + 1.
Proof. intros H. rewrite nat_ascii_embedding by lia. lia. Qed.

Lemma letter_upper remainder :
  remainder < 26 -> is_upper (ascii_of_nat (65 + remainder)) = true.
Proof.
  intros H. unfold is_upper. rewrite nat_ascii_embedding by lia.
  apply andb_true_iff. split; apply Nat.leb_le; lia.
Qed.

Lemma column_letter_fuel_index fuel : forall col_num letter,
  col_num <= fuel ->
  column_index (column_letter_fuel fuel col_num letter)
  = col_num * 26 ^ String.length letter + column_index letter.
Proof.
  induction fuel as [|fuel IH]; intros col_num letter Hf; cbn [column_letter_fuel].
  - replace col_num with 0 by lia. lia.
  - destruct (col_num =? 0) eqn:Hz.
    + apply Nat.eqb_eq in Hz. subst. lia.
    + apply Nat.eqb_neq in Hz.
      pose proof (Nat.div_mod_eq (col_num - 1) 26) as Hdm.
      pose proof (Nat.mod_upper_bound (col_num - 1) 26 ltac:(lia)) as Hrem.
      rewrite IH by (apply Nat.Div0.div_le_upper_bound; lia).
      rewrite column_index_cons, letter_digit by assumption.
      cbn [String.length]. rewrite Nat.pow_succ_r'. nia.
Qed.

Lemma column_letter_fuel_upper fuel : forall col_num letter,
  sall is_upper letter = true ->
  sall is_upper (column_letter_fuel fuel col_num letter) = true.
Proof.
  induction fuel as [|fuel IH]; intros col_num letter Hl; cbn [column_letter_fuel];
    [assumption|].
  destruct (col_num =? 0); [assumption|].
  apply IH. cbn [sall]. rewrite Hl, letter_upper; [reflexivity|].
  apply Nat.mod_upper_bound. lia.
Qed.



End LettersProps.

(* ===================================================================== *)
(** * Invariants of the parsed questions *)
(* ===================================================================== *)

Module SegmenterInvariants.
Import PyStr PyStrFacts Re Pandas Cleaning CleaningProps.

(** The shape of the options and rank labels of a ranked question *)
Definition ranked_ok (bipolar : bool) (opts ranks : list string) : Prop :=
  if bipolar then
    (exists p1 p2, ranks = [p1; p2] /\ p1 <> "" /\ p2 <> "")
    /\ opts <> []
    /\ List.Forall (fun o => contains " or " (lower o) = true) opts
  else
    ranks = []
    \/ (2 <= length ranks /\ 2 <= length opts
        /\ List.Forall (fun r => is_metadata_text r = false) ranks
        /\ List.Forall (fun o => is_metadata_text o = false) opts).

(** What every parsed question satisfies *)
Definition well_formed (q : question) : Prop :=
  q_text q <> ""
  /\ strip (q_text q) = q_text q
  /\ (options q <> [] \/ rank_labels q <> [])
  /\ ranked_ok (is_bipolar q) (options q) (rank_labels q).

Definition state_ok (st : seg_state) : Prop :=
  List.Forall well_formed (questions st)
  /\ ranked_ok (current_is_bipolar st) (current_options st) (current_rank_labels st)
  /\ (forall text, current_q_text st = Some text -> strip text = text).

Lemma nonempty_spec {A : Type} (l : list A) : nonempty l = true <-> l <> [].
Proof. destruct l; simpl; split; congruence. Qed.

Lemma expand_nps_nonempty text opts :
  opts <> [] -> expand_nps_if_needed text opts <> [].
Proof.
  intros H. unfold expand_nps_if_needed.
  destruct (contains "1 to 10" (lower text) || contains "1-10" (lower text)
            || contains "scale of 0 to 10" (lower text)); [|assumption].
  cbn [List.seq map]. discriminate.
Qed.

Lemma flush_ok st : state_ok st -> List.Forall well_formed (flush st).
Proof.
  intros (Hq & Hr & Hs). rewrite flush_spec. apply Forall_app. split; [assumption|].
  destruct (flushes st) eqn:Hf; [|constructor].
  constructor; [|constructor].
  unfold flushes in Hf. apply andb_true_iff in Hf as [Ht Hne].
  unfold segment, well_formed. cbn [q_text options rank_labels is_bipolar].
  destruct (current_q_text st) as [text|]; [|discriminate]. simpl in Ht.
  apply truthy_spec in Ht. specialize (Hs text eq_refl).
  destruct (current_rank_labels st) as [|r ranks] eqn:Hranks.
  - cbn [nonempty] in *. rewrite orb_false_r in Hne. apply nonempty_spec in Hne.
    split; [assumption|]. split; [assumption|].
    split; [left; now apply expand_nps_nonempty|].
    unfold ranked_ok in *. destruct (current_is_bipolar st).
    + destruct Hr as ((p1 & p2 & E & _) & _). discriminate.
    + now left.
  - cbn [nonempty]. split; [assumption|]. split; [assumption|].
    split; [right; discriminate | exact Hr].
Qed.

(** The text that a header row gives to its question is stripped *)
Lemma parse_question_row_stripped first_cell text :
  parse_question_row first_cell = Some text -> strip text = text.
Proof.
  unfold parse_question_row.
  destruct (re_match QUESTION_RE first_cell) as [[c rest]|]; [|discriminate].
  destruct (group 2 c) as [g|]; [|discriminate].
  intros H; injection H as <-. apply strip_idempotent.
Qed.

Section WithFloat.

Variable parse_float : string -> option float_kind.

Lemma is_bipolar_sub_label_or first next :
  is_bipolar_sub_label parse_float first next = true ->
  contains " or " (lower first) = true.
Proof.
  unfold is_bipolar_sub_label.
  destruct (negb (truthy first) || is_question_row first); [discriminate|].
  destruct (contains " or " (lower first)); [reflexivity | discriminate].
Qed.

Lemma bipolar_scan_labels rows : forall sub_labels poles,
  List.Forall (fun o => contains " or " (lower o) = true) sub_labels ->
  List.Forall (fun o => contains " or " (lower o) = true)
              (fst (bipolar_scan parse_float rows sub_labels poles)).
Proof.
  induction rows as [|row rows IH]; intros sub_labels poles H; cbn [bipolar_scan];
    [assumption|].
  destruct (is_question_row (first_text row)); [assumption|].
  destruct rows as [|next rows']; [now apply IH|].
  destruct (is_bipolar_sub_label parse_float (first_text row) next) eqn:Hs.
  - apply IH. apply Forall_app. split; [assumption|].
    constructor; [|constructor]. eapply is_bipolar_sub_label_or; eassumption.
  - now apply IH.
Qed.

Lemma or_default_nonempty pole default : default <> "" -> or_default pole default <> "".
Proof.
  intros H. unfold or_default. destruct pole as [p|]; [|assumption].
  destruct (truthy p) eqn:Hp; [now apply truthy_spec | assumption].
Qed.

Lemma scan_ranks_ok cells :
  List.Forall (fun r => is_metadata_text r = false) (scan_ranks cells).
Proof.
  induction cells as [|[v|] cells IH]; cbn [scan_ranks]; [constructor| |assumption].
  destruct (String.eqb (lower (strip v)) "total"); [constructor|].
  destruct (is_metadata_text (strip v)) eqn:Hm; cbn [negb]; [assumption|].
  now constructor.
Qed.

Lemma scan_attributes_ok rows :
  List.Forall (fun o => is_metadata_text o = false) (scan_attributes rows).
Proof.
  induction rows as [|row rows IH]; cbn [scan_attributes]; [constructor|].
  destruct (iloc row 0) as [v|]; [|constructor].
  destruct (is_question_row (strip v)); [constructor|].
  destruct (is_metadata_text (strip v)) eqn:Hm; cbn [negb]; [assumption|].
  now constructor.
Qed.

Lemma detect_matrix_ok df i :
  ranked_ok false (fst (detect_matrix df i)) (snd (detect_matrix df i)).
Proof.
  unfold detect_matrix, ranked_ok.
  destruct (df !! (i + 1)) as [next_row|]; [|now left].
  destruct (2 <=? length (scan_ranks (columns_upto 30 next_row))) eqn:Hr; [|now left].
  destruct (2 <=? length (scan_attributes (drop (i + 2) df))) eqn:Ha; [|now left].
  right. cbn [fst snd]. apply Nat.leb_le in Hr, Ha.
  repeat split; try assumption; [apply scan_ranks_ok | apply scan_attributes_ok].
Qed.

Lemma header_step_ok df st first_cell st' :
  state_ok st -> header_step parse_float df st first_cell = Some st' -> state_ok st'.
Proof.
  intros Hst. pose proof (flush_ok st Hst) as Hq.
  pose proof (parse_question_row_stripped first_cell) as Hs. unfold header_step.
  destruct (nonempty (fst (detect_bipolar_question parse_float df (idx st)))) eqn:Hb.
  { intros H; injection H as <-. split; [exact Hq|]. split; [|exact Hs].
    cbn [current_is_bipolar current_options current_rank_labels ranked_ok].
    split; [|split].
    - do 2 eexists. split; [reflexivity|].
      split; apply or_default_nonempty; discriminate.
    - now apply nonempty_spec.
    - apply bipolar_scan_labels. constructor. }
  destruct (nonempty (snd (detect_matrix df (idx st)))) eqn:Hm.
  { intros H; injection H as <-. split; [exact Hq|]. split; [|exact Hs].
    apply detect_matrix_ok. }
  destruct (detect_horizontal_scale parse_float df (idx st)); [|discriminate].
  intros H; injection H as <-. split; [exact Hq|]. split; [now left | exact Hs].
Qed.

Lemma step_ok df st st' :
  state_ok st -> step parse_float df st = Some st' -> state_ok st'.
Proof.
  intros Hst. unfold step. destruct (df !! idx st) as [row|];
    [|intros H; injection H as <-; exact Hst].
  destruct (truthy (first_text row)); cbn [negb].
  - destruct (is_question_row (first_text row)); [now apply header_step_ok|].
    destruct Hst as (Hq & Hr & Hs).
    destruct (in_question st && negb (nonempty (current_rank_labels st))) eqn:Hin;
      intros H; injection H as <-; (split; [assumption|]); (split; [|assumption]);
      try assumption.
    cbn [current_is_bipolar current_options current_rank_labels].
    apply andb_true_iff in Hin as [_ Hn].
    destruct (current_rank_labels st); [|discriminate].
    unfold ranked_ok in *. destruct (current_is_bipolar st); [|now left].
    destruct Hr as ((p1 & p2 & E & _) & _). discriminate.
  - intros H; injection H as <-. split; [now apply flush_ok|].
    split; [now left | discriminate].
Qed.

Lemma segment_loop_ok df : forall fuel st st',
  state_ok st -> segment_loop parse_float fuel df st = Some st' -> state_ok st'.
Proof.
  induction fuel as [|fuel IH]; intros st st' Hst; cbn [segment_loop];
    destruct (length df <=? idx st); try (intros H; injection H as <-; exact Hst).
  destruct (step parse_float df st) as [st1|] eqn:Hstep; [|discriminate].
  apply IH. eapply step_ok; eassumption.
Qed.

(** X2: every question that the segmentation returns has a non-empty text
    with no blank at either end, and at least one option or rank label.  A
    bipolar question has exactly two
    non-empty rank labels (the poles or the defaults Pole_1 and Pole_2) and
    every one of its options contains " or "; a matrix question has at least
    two rank labels and at least two options, none of them a metadata token. *)
Theorem parsed_questions_well_formed (df : list (list pdcell)) (qs : list question) :
  parse_questions parse_float df = Some qs -> List.Forall well_formed qs.
Proof.
  unfold parse_questions.
  destruct (segment_loop parse_float (length df) df initial_state) as [st|] eqn:Hl;
    [|discriminate].
  intros H; injection H as <-. apply flush_ok.
  eapply segment_loop_ok; [|exact Hl].
  split; [constructor|]. split; [now left | discriminate].
Qed.

End WithFloat.

Lemma parsed_questions_well_formed_witness :
  List.Forall well_formed
    [ mk_question "Favorite color [Single choice]" ["Red"; "Blue"] [] false;
      mk_question "Rate" ["Price"; "Quality"] ["Agree"; "Disagree"] false;
      mk_question "Which" ["Cheap or Expensive"; "Fast or Slow"]
                  ["Cheap"; "Expensive"] true ].
Proof.
  apply (parsed_questions_well_formed digits_float sample_grid).
  vm_compute. reflexivity.
Defined.

End SegmenterInvariants.

(* ===================================================================== *)
(** * Counts against the base *)
(* ===================================================================== *)

Module CountProps.
Import PyStr PyStrFacts Re Pandas Tabulation TabulationProps.

Lemma count_of_cons opt v values :
  count_of opt (v :: values) = (if String.eqb v opt then 1 else 0) + count_of opt values.
Proof. unfold count_of. cbn [List.filter]. now destruct (String.eqb v opt). Qed.

(** Among distinct options at most one equals a given answer *)
Lemma hits_le_one v opts :
  NoDup opts -> list_sum (map (fun o => if String.eqb v o then 1 else 0) opts) <= 1.
Proof.
  induction 1 as [|o opts Hnin _ IH]; simpl; [lia|].
  destruct (String.eqb v o) eqn:E; [|lia].
  apply String.eqb_eq in E. subst o.
  assert (Hz : list_sum (map (fun o => if String.eqb v o then 1 else 0) opts) = 0).
  { clear IH. induction opts as [|o opts IH]; [reflexivity|]. simpl.
    destruct (String.eqb v o) eqn:E.
    - apply String.eqb_eq in E. subst o. exfalso. apply Hnin. now left.
    - rewrite IH; [reflexivity|]. intros H. apply Hnin. now right. }
  lia.
Qed.

Lemma hits_one v opts :
  NoDup opts -> In v opts ->
  list_sum (map (fun o => if String.eqb v o then 1 else 0) opts) = 1.
Proof.
  intros Hnd Hin. pose proof (hits_le_one v opts Hnd) as Hle.
  enough (1 <= list_sum (map (fun o => if String.eqb v o then 1 else 0) opts)) by lia.
  clear Hnd Hle. induction opts as [|o opts IH]; [destruct Hin|]. simpl.
  destruct Hin as [->|Hin]; [rewrite String.eqb_refl; lia|].
  specialize (IH Hin). lia.
Qed.

Lemma list_sum_add {A : Type} (f g : A -> nat) (l : list A) :
  list_sum (map (fun x => f x + g x) l) = list_sum (map f l) + list_sum (map g l).
Proof. induction l as [|x l IH]; simpl; lia. Qed.

Lemma counts_sum_cons v values opts :
  list_sum (map (fun o => count_of o (v :: values)) opts)
  = list_sum (map (fun o => if String.eqb v o then 1 else 0) opts)
    + list_sum (map (fun o => count_of o values) opts).
Proof.
  rewrite <- list_sum_add. f_equal. apply map_ext. intros o. apply count_of_cons.
Qed.

Lemma counts_sum_nil opts : list_sum (map (fun o => count_of o []) opts) = 0.
Proof. induction opts as [|o opts IH]; [reflexivity|]. simpl. exact IH. Qed.

Lemma counts_sum_le values opts :
  NoDup opts -> list_sum (map (fun o => count_of o values) opts) <= length values.
Proof.
  intros Hnd. induction values as [|v values IH].
  - now rewrite counts_sum_nil.
  - rewrite counts_sum_cons. pose proof (hits_le_one v opts Hnd). cbn [length]. lia.
Qed.

Lemma counts_sum_eq values opts :
  NoDup opts -> List.Forall (fun v => In v opts) values ->
  list_sum (map (fun o => count_of o values) opts) = length values.
Proof.
  intros Hnd. induction 1 as [|v values Hv _ IH].
  - now rewrite counts_sum_nil.
  - rewrite counts_sum_cons, IH, (hits_one v opts Hnd Hv). reflexivity.
Qed.

Section SingleSelect.

Context {F : Type}.
Variable float_zero : F.
Variable fdiv : nat -> nat -> F.
Variable fmul100 : F -> F.
Variable round1 : F -> F.

(** For a single-select question with pairwise distinct declared options,
    the counts of the options never add up to more than the base, and they
    add up to exactly the base when every cleaned answer is a declared
    option. *)
Theorem single_select_counts_within_base (series : list pdcell) (options : list string) :
  options <> [] ->
  NoDup options ->
  exists results,
    process_single_select float_zero fdiv fmul100 round1 series options = Some results
    /\ map r_option results = options
    /\ list_sum (map r_count results) <= length (series_clean series)
    /\ (List.Forall (fun v => In v options) (series_clean series) ->
        list_sum (map r_count results) = length (series_clean series)).
Proof.
  intros Hne Hnd. unfold process_single_select.
  destruct (build_results_ok float_zero fdiv fmul100 round1 (series_clean series)
              (length (series_clean series)) options) as (results & H & Hok & Hopts).
  exists results. split; [assumption|]. specialize (Hopts Hne).
  split; [assumption|].
  assert (Hc : map r_count results
               = map (fun o => count_of o (series_clean series)) options).
  { rewrite <- Hopts, map_map. apply map_ext_in. intros r Hr.
    rewrite List.Forall_forall in Hok. now destruct (Hok r Hr) as (_ & Hc & _). }
  rewrite Hc. split; [now apply counts_sum_le | now apply counts_sum_eq].
Qed.

End SingleSelect.

Lemma single_select_counts_within_base_witness :
  exists results,
    process_single_select frac_zero frac_div frac_mul100 frac_round1
      [Some "Yes"; Some "No"; None; Some "Response"; Some "Maybe"] ["Yes"; "No"]
    = Some results
    /\ map r_option results = ["Yes"; "No"]
    /\ list_sum (map r_count results) <= 3.
Proof.
  destruct (single_select_counts_within_base frac_zero frac_div frac_mul100 frac_round1
              [Some "Yes"; Some "No"; None; Some "Response"; Some "Maybe"] ["Yes"; "No"])
    as (results & H1 & H2 & H3 & _).
  - discriminate.
  - apply NoDup_cons_2; [|apply NoDup_singleton].
    intros H. apply list_elem_of_In in H. destruct H as [H|[]]. discriminate H.
  - exists results. auto.
Defined.

(** ** Results without declared options *)

(** The keys never increase along the list *)
Fixpoint descending {A : Type} (key : A -> nat) (l : list A) : Prop :=
  match l with
  | [] => True
  | x :: l' => List.Forall (fun y => key y <= key x) l' /\ descending key l'
  end.

Lemma insert_desc_perm {A : Type} (key : A -> nat) x (l : list A) :
  Permutation (insert_desc key x l) (x :: l).
Proof.
  induction l as [|y l IH]; cbn [insert_desc]; [reflexivity|].
  destruct (key y <=? key x); [reflexivity|].
  rewrite IH. apply perm_swap.
Qed.

Lemma sort_desc_perm {A : Type} (key : A -> nat) (l : list A) :
  Permutation (sort_desc key l) l.
Proof.
  unfold sort_desc. induction l as [|x l IH]; cbn [fold_right]; [reflexivity|].
  rewrite insert_desc_perm. now constructor.
Qed.

Lemma insert_desc_descending {A : Type} (key : A -> nat) x (l : list A) :
  descending key l -> descending key (insert_desc key x l).
Proof.
  induction l as [|y l IH]; cbn [insert_desc descending]; intros H.
  - split; [constructor | exact I].
  - destruct H as [Hy Hl]. destruct (key y <=? key x) eqn:E.
    + apply Nat.leb_le in E. cbn [descending]. split; [|split; assumption].
      constructor; [assumption|].
      eapply List.Forall_impl; [|exact Hy]. intros z Hz. simpl in Hz. lia.
    + apply Nat.leb_gt in E. cbn [descending]. split; [|now apply IH].
      apply List.Forall_forall. intros z Hz.
      apply (Permutation_in _ (insert_desc_perm key x l)) in Hz.
      destruct Hz as [<-|Hz]; [lia|].
      rewrite List.Forall_forall in Hy. now apply Hy.
Qed.

Lemma sort_desc_descending {A : Type} (key : A -> nat) (l : list A) :
  descending key (sort_desc key l).
Proof.
  unfold sort_desc. induction l as [|x l IH]; cbn [fold_right]; [exact I|].
  now apply insert_desc_descending.
Qed.

Lemma list_sum_perm (l1 l2 : list nat) :
  Permutation l1 l2 -> list_sum l1 = list_sum l2.
Proof. induction 1; simpl; lia. Qed.

Lemma distinct_in values v : In v (distinct values) <-> In v values.
Proof.
  induction values as [|w values IH]; cbn [distinct]; [tauto|].
  cbn [In]. rewrite List.filter_In, IH.
  destruct (String.eqb v w) eqn:E.
  - apply String.eqb_eq in E. subst. tauto.
  - apply String.eqb_neq in E. cbn [negb]. split; [tauto|].
    intros [->|H]; [congruence | tauto].
Qed.

Lemma distinct_nodup values : List.NoDup (distinct values).
Proof.
  induction values as [|w values IH]; cbn [distinct]; constructor.
  - rewrite List.filter_In, String.eqb_refl. cbn [negb]. intros [_ H]. discriminate.
  - now apply List.NoDup_filter.
Qed.

(** The keys of [value_counts], up to order *)
Lemma value_counts_perm values :
  Permutation (value_counts values)
              (map (fun v => (v, count_of v values)) (distinct values)).
Proof. apply sort_desc_perm. Qed.

Section Fallback.

Context {F : Type}.
Variable float_zero : F.
Variable fdiv : nat -> nat -> F.
Variable fmul100 : F -> F.
Variable round1 : F -> F.

Lemma fallback_results_complete (values : list string) (total_base : nat) :
  exists results,
    build_results float_zero fdiv fmul100 round1 values total_base [] = Some results
    /\ descending r_count results
    /\ NoDup (map r_option results)
    /\ (forall v, In v (map r_option results) <-> In v values)
    /\ List.Forall (fun r => r_count r = count_of (r_option r) values /\ 0 < r_count r)
                   results
    /\ list_sum (map r_count results) = length values.
Proof.
  destruct (build_results_ok float_zero fdiv fmul100 round1 values total_base [])
    as (results & H & Hok & _).
  exists results. split; [assumption|].
  unfold build_results in H.
  rewrite (mapM_total _
             (fun oc => mk_result (fst oc) (snd oc)
                          (expected_percentage float_zero fdiv fmul100 round1
                             (snd oc) total_base) total_base)) in H
    by (intros; apply make_result_total).
  injection H as <-.
  set (mk := fun oc : string * nat =>
               mk_result (fst oc) (snd oc)
                 (expected_percentage float_zero fdiv fmul100 round1 (snd oc) total_base)
                 total_base) in *.
  assert (Hopt : Permutation (map r_option (sort_desc r_count (map mk (value_counts values))))
                             (distinct values)).
  { rewrite sort_desc_perm, map_map. cbn [mk r_option].
    rewrite value_counts_perm, map_map. cbn [fst]. now rewrite map_id. }
  assert (Hcnt : Permutation (map r_count (sort_desc r_count (map mk (value_counts values))))
                             (map (fun v => count_of v values) (distinct values))).
  { rewrite sort_desc_perm, map_map. cbn [mk r_count].
    rewrite value_counts_perm, map_map. reflexivity. }
  split; [apply sort_desc_descending|].
  split; [rewrite Hopt; apply NoDup_ListNoDup, distinct_nodup|].
  split.
  { intros v. split.
    - intros Hv. apply distinct_in. exact (Permutation_in _ Hopt Hv).
    - intros Hv. apply distinct_in in Hv.
      exact (Permutation_in _ (Permutation_sym Hopt) Hv). }
  split.
  { apply List.Forall_forall. intros r Hr.
    rewrite List.Forall_forall in Hok. destruct (Hok r Hr) as (_ & Hc & _).
    split; [assumption|]. rewrite Hc.
    assert (Hin : In (r_option r) values).
    { apply distinct_in. apply (Permutation_in _ Hopt). now apply in_map. }
    unfold count_of. clear -Hin. induction values as [|w values IH]; [destruct Hin|].
    cbn [List.filter]. destruct (String.eqb w (r_option r)) eqn:E; [simpl; lia|].
    destruct Hin as [->|Hin]; [rewrite String.eqb_refl in E; discriminate|].
    now apply IH. }
  rewrite (list_sum_perm _ _ Hcnt). apply counts_sum_eq.
  - apply NoDup_ListNoDup, distinct_nodup.
  - apply List.Forall_forall. intros v Hv. now apply distinct_in.
Qed.

(** Without declared options, [process_single_select] and
    [process_multi_select] return one entry per distinct observed value (per
    distinct token for a multi-select question), ordered by decreasing count;
    each entry carries the number of occurrences of its value, which is
    positive.  The counts of a single-select question add up to its base; the
    counts of a multi-select question add up to the number of tokens. *)
Theorem fallback_results_sorted_and_complete (series : list pdcell) :
  (exists results,
      process_single_select float_zero fdiv fmul100 round1 series [] = Some results
      /\ descending r_count results
      /\ NoDup (map r_option results)
      /\ (forall v, In v (map r_option results) <-> In v (series_clean series))
      /\ List.Forall (fun r => r_count r = count_of (r_option r) (series_clean series)
                               /\ 0 < r_count r
                               /\ r_base r = length (series_clean series)) results
      /\ list_sum (map r_count results) = length (series_clean series))
  /\ (exists results,
         process_multi_select float_zero fdiv fmul100 round1 series [] = Some results
         /\ descending r_count results
         /\ NoDup (map r_option results)
         /\ (forall v, In v (map r_option results) <-> In v (all_options series))
         /\ List.Forall (fun r => r_count r = count_of (r_option r) (all_options series)
                                  /\ 0 < r_count r
                                  /\ r_base r = length (dropna series)) results
         /\ list_sum (map r_count results) = length (all_options series)).
Proof.
  split.
  - unfold process_single_select.
    destruct (fallback_results_complete (series_clean series)
                (length (series_clean series)))
      as (results & H & Hd & Hn & Hi & Hc & Hs).
    destruct (build_results_ok float_zero fdiv fmul100 round1 (series_clean series)
                (length (series_clean series)) []) as (results' & H' & Hok & _).
    rewrite H in H'. injection H' as <-.
    exists results.
    split; [assumption|]. split; [assumption|]. split; [assumption|].
    split; [assumption|]. split; [|assumption].
    rewrite List.Forall_forall in *. intros r Hr.
    destruct (Hc r Hr) as [? ?]. destruct (Hok r Hr) as (? & _). auto.
  - unfold process_multi_select.
    destruct (fallback_results_complete (all_options series) (length (dropna series)))
      as (results & H & Hd & Hn & Hi & Hc & Hs).
    destruct (build_results_ok float_zero fdiv fmul100 round1 (all_options series)
                (length (dropna series)) []) as (results' & H' & Hok & _).
    rewrite H in H'. injection H' as <-.
    exists results.
    split; [assumption|]. split; [assumption|]. split; [assumption|].
    split; [assumption|]. split; [|assumption].
    rewrite List.Forall_forall in *. intros r Hr.
    destruct (Hc r Hr) as [? ?]. destruct (Hok r Hr) as (? & _). auto.
Qed.

End Fallback.

End CountProps.

(* ===================================================================== *)
(** * Properties of the column mapping *)
(* ===================================================================== *)

Module StructureProps.
Import PyStr Tabulation Structure.

(** A column that [identify_structure] files under the metadata *)
Definition is_meta (col : string) : bool :=
  mem (strip (lower col)) exact_metadata || mem (strip (lower col)) exact_exclude.

(** A continuation column *)
Definition is_unnamed (col : string) : bool :=
  contains "unnamed" (strip (lower col)).

Fixpoint indexed {A : Type} (a : nat) (l : list A) : list (nat * A) :=
  match l with
  | [] => []
  | x :: l' => (a, x) :: indexed (S a) l'
  end.

Fixpoint skip_while {A : Type} (p : A -> bool) (l : list A) : list A :=
  match l with
  | [] => []
  | x :: l' => if p x then skip_while p l' else l
  end.

(** The columns that are not metadata, with their positions *)
Definition kept (columns : list string) : list (nat * string) :=
  List.filter (fun ic => negb (is_meta (snd ic))) (indexed 0 columns).

(** The positions that belong to a question: the columns that are not
    metadata, from the first one that is not a continuation column *)
Definition assigned (columns : list string) : list nat :=
  map fst (skip_while (fun ic => is_unnamed (snd ic)) (kept columns)).

(** The columns of one question, main column first *)
Definition question_cols (e : mapped_question) : list nat :=
  main_col_idx (info e) :: unnamed_cols (info e).

Fixpoint ascending (l : list nat) : Prop :=
  match l with
  | [] => True
  | x :: l' => List.Forall (lt x) l' /\ ascending l'
  end.

(** The main column carries the question text and is neither metadata nor a
    continuation; the other columns are continuation columns. *)
Definition entry_ok (columns : list string) (e : mapped_question) : Prop :=
  nth_error columns (main_col_idx (info e)) = Some (question_text e)
  /\ is_meta (question_text e) = false
  /\ is_unnamed (question_text e) = false
  /\ List.Forall (fun i => exists c, nth_error columns i = Some c
                                   /\ is_unnamed c = true /\ is_meta c = false)
                 (unnamed_cols (info e)).

Lemma indexed_app {A : Type} (l1 l2 : list A) : forall a,
  indexed a (l1 ++ l2)%list = (indexed a l1 ++ indexed (a + length l1) l2)%list.
Proof.
  induction l1 as [|x l1 IH]; intros a; simpl.
  - now rewrite Nat.add_0_r.
  - rewrite IH. now replace (S a + length l1) with (a + S (length l1)) by lia.
Qed.

Lemma kept_snoc columns col :
  kept (columns ++ [col])%list
  = (kept columns ++ (if is_meta col then [] else [(length columns, col)]))%list.
Proof.
  unfold kept. rewrite indexed_app, List.filter_app. simpl.
  now destruct (is_meta col).
Qed.

Lemma skip_while_snoc {A : Type} (p : A -> bool) (l : list A) (x : A) :
  skip_while p (l ++ [x])%list
  = match skip_while p l with
    | [] => if p x then [] else [x]
    | _ :: _ => (skip_while p l ++ [x])%list
    end.
Proof.
  induction l as [|y l IH]; simpl; [reflexivity|].
  destruct (p y); [exact IH | reflexivity].
Qed.

Lemma indexed_bounds {A : Type} (l : list A) : forall a i x,
  In (i, x) (indexed a l) -> a <= i /\ nth_error l (i - a) = Some x.
Proof.
  induction l as [|y l IH]; intros a i x Hin; simpl in Hin; [contradiction|].
  destruct Hin as [E|Hin].
  - injection E as <- <-. rewrite Nat.sub_diag. split; [lia | reflexivity].
  - destruct (IH _ _ _ Hin) as [Hle Hn]. split; [lia|].
    replace (i - a) with (S (i - S a)) by lia. exact Hn.
Qed.

Lemma indexed_ascending {A : Type} (p : nat * A -> bool) (l : list A) : forall a,
  ascending (map fst (List.filter p (indexed a l))).
Proof.
  induction l as [|y l IH]; intros a; simpl; [exact I|].
  destruct (p (a, y)); [|apply IH].
  simpl. split; [|apply IH].
  apply List.Forall_forall. intros i Hi.
  apply in_map_iff in Hi. destruct Hi as ([i' x] & <- & Hi).
  apply filter_In in Hi. destruct Hi as [Hi _].
  apply indexed_bounds in Hi. simpl. lia.
Qed.

Lemma skip_while_ascending {A : Type} (p : nat * A -> bool) (l : list (nat * A)) :
  ascending (map fst l) -> ascending (map fst (skip_while p l)).
Proof.
  induction l as [|y l IH]; simpl; [trivial|].
  intros [Hy Hl]. destruct (p y); [auto | simpl; auto].
Qed.

Lemma assigned_ascending columns : ascending (assigned columns).
Proof. apply skip_while_ascending, indexed_ascending. Qed.

Lemma entry_ok_snoc columns col e :
  entry_ok columns e -> entry_ok (columns ++ [col])%list e.
Proof.
  intros (Hm & Hnm & Hnu & Hu). split; [|split; [assumption|split; [assumption|]]].
  - rewrite nth_error_app1; [assumption|]. apply nth_error_Some. congruence.
  - eapply List.Forall_impl; [|exact Hu]. intros i (c & Hc & Hcu & Hcm).
    exists c. split; [|auto].
    rewrite nth_error_app1; [assumption|]. apply nth_error_Some. congruence.
Qed.

Lemma nth_error_snoc {A : Type} (l : list A) (x : A) :
  nth_error (l ++ [x])%list (length l) = Some x.
Proof. rewrite nth_error_app2 by lia. now rewrite Nat.sub_diag. Qed.

(** Setting a new key appends the entry. *)
Lemma dict_set_fresh k e (m : question_dict) :
  ~ In k (map fst m) -> dict_set k e m = (m ++ [(k, e)])%list.
Proof.
  induction m as [|[k' e'] m IH]; simpl; intros Hk; [reflexivity|].
  destruct (Nat.eqb_spec k' k) as [->|Hne]; [tauto|].
  rewrite IH by tauto. reflexivity.
Qed.

(** With the keys numbered in order, the current question is the last entry. *)
Lemma append_unnamed_last idx e (m : question_dict) : forall a,
  map fst (m ++ [(a + length m, e)])%list = List.seq a (S (length m)) ->
  append_unnamed (a + length m) idx (m ++ [(a + length m, e)])%list
  = Some (m ++ [(a + length m,
                  mk_mapped_question (question_text e)
                    (mk_question_info (main_col_idx (info e))
                                      (unnamed_cols (info e) ++ [idx])))])%list.
Proof.
  induction m as [|[k' e'] m IH]; intros a Hk.
  - simpl. now rewrite Nat.add_0_r, Nat.eqb_refl.
  - cbn [app map fst List.seq length] in Hk. injection Hk as Hk' Hk. subst k'.
    cbn [app append_unnamed length].
    destruct (Nat.eqb_spec a (a + S (length m))) as [E|_]; [lia|].
    replace (a + S (length m)) with (S a + length m) in * by lia.
    now rewrite (IH (S a) Hk).
Qed.

(** The loop invariant, after the columns [pre] *)
Definition inv (pre : list string) (st : structure) : Prop :=
  metadata_columns st = List.filter is_meta pre
  /\ map fst (question_map st) = List.seq 1 (question_counter st)
  /\ current_question st
     = (if question_counter st =? 0 then None else Some (question_counter st))
  /\ flat_map question_cols (map snd (question_map st)) = assigned pre
  /\ List.Forall (entry_ok pre) (map snd (question_map st)).

Lemma identify_step_inv pre st col :
  inv pre st ->
  exists st', identify_step st (length pre) col = Some st'
              /\ inv (pre ++ [col])%list st'.
Proof.
  intros (Hmeta & Hkeys & Hcur & Hflat & Hok).
  unfold identify_step.
  fold (is_meta col). fold (is_unnamed col).
  assert (Hok' : List.Forall (entry_ok (pre ++ [col])%list) (map snd (question_map st))).
  { eapply List.Forall_impl; [|exact Hok]. intros e. apply entry_ok_snoc. }
  destruct (is_meta col) eqn:Hm.
  - eexists. split; [reflexivity|]. unfold inv. cbn [metadata_columns question_map
      current_question question_counter].
    split; [|split; [assumption|split; [assumption|split; [|assumption]]]].
    + rewrite List.filter_app. simpl. rewrite Hm. now rewrite Hmeta.
    + unfold assigned. rewrite kept_snoc, Hm, app_nil_r. exact Hflat.
  - destruct (is_unnamed col) eqn:Hu.
    + rewrite Hcur. destruct (Nat.eqb_spec (question_counter st) 0) as [Hz|Hnz].
      * eexists. split; [reflexivity|].
        split; [|split; [assumption|split; [|split; [|assumption]]]].
        { rewrite List.filter_app. simpl. rewrite Hm, app_nil_r. exact Hmeta. }
        { rewrite Hcur, Hz. reflexivity. }
        rewrite Hz in Hkeys. simpl in Hkeys.
        destruct (question_map st) as [|x m]; [|discriminate].
        simpl in Hflat |- *. unfold assigned in *. rewrite kept_snoc, Hm.
        rewrite skip_while_snoc.
        destruct (skip_while _ (kept pre)); [|discriminate].
        cbn [snd]. now rewrite Hu.
      * destruct (question_map st) as [|x m] eqn:Hqm using rev_ind.
        { simpl in Hkeys. destruct (question_counter st); [lia | discriminate]. }
        clear IHm. destruct x as [k e].
        assert (Hlen : question_counter st = S (length m)).
        { apply (f_equal (@length nat)) in Hkeys.
          rewrite length_map, length_app, length_seq in Hkeys. simpl in Hkeys. lia. }
        assert (Hk : k = 1 + length m).
        { rewrite Hlen, seq_S, map_app in Hkeys. simpl in Hkeys.
          apply app_inj_tail in Hkeys. destruct Hkeys as [_ Hkeys]. exact Hkeys. }
        subst k. rewrite Hlen in Hkeys.
        replace (question_counter st) with (1 + length m) by lia.
        rewrite (append_unnamed_last (length pre) e m 1 Hkeys).
        eexists. split; [reflexivity|].
        unfold inv. cbn [metadata_columns question_map current_question question_counter].
        split; [|split; [|split; [|split]]].
        { rewrite List.filter_app. simpl. rewrite Hm, app_nil_r. exact Hmeta. }
        { rewrite map_app in *. exact Hkeys. }
        { reflexivity. }
        { rewrite map_app, flat_map_app in Hflat |- *. cbn [map flat_map snd] in Hflat |- *.
          unfold question_cols at 2. cbn [info main_col_idx unnamed_cols].
          unfold assigned in *. rewrite kept_snoc, Hm, skip_while_snoc.
          destruct (skip_while _ (kept pre)) as [|y l].
          - exfalso. simpl in Hflat. unfold question_cols in Hflat.
            destruct (flat_map _ (map snd m)); discriminate.
          - rewrite map_app, <- Hflat. cbn [map fst].
            unfold question_cols. rewrite !app_nil_r, <- !app_assoc. reflexivity. }
        { rewrite map_app in Hok' |- *. apply Forall_app in Hok'.
          destruct Hok' as [Hok1 Hok2]. apply Forall_app. split; [assumption|].
          cbn [map snd] in *. apply Forall_inv in Hok2.
          destruct Hok2 as (H1 & H2 & H3 & H4).
          constructor; [|constructor]. split; [exact H1|split; [exact H2|split; [exact H3|]]].
          cbn [info unnamed_cols]. apply Forall_app. split; [exact H4|].
          constructor; [|constructor]. exists col. rewrite nth_error_snoc. auto. }
    + eexists. split; [reflexivity|].
      unfold inv. cbn [metadata_columns question_map current_question question_counter].
      assert (Hfresh : ~ In (question_counter st + 1) (map fst (question_map st))).
      { rewrite Hkeys. rewrite in_seq. lia. }
      rewrite (dict_set_fresh _ _ _ Hfresh).
      split; [|split; [|split; [|split]]].
      { rewrite List.filter_app. simpl. rewrite Hm, app_nil_r. exact Hmeta. }
      { rewrite map_app, Hkeys. replace (question_counter st + 1) with (S (question_counter st)) by lia.
        rewrite seq_S. reflexivity. }
      { destruct (Nat.eqb_spec (question_counter st + 1) 0); [lia | reflexivity]. }
      { rewrite map_app, flat_map_app, Hflat. cbn [map flat_map snd].
        unfold question_cols. cbn [info main_col_idx unnamed_cols].
        unfold assigned. rewrite kept_snoc, Hm, skip_while_snoc.
        destruct (skip_while _ (kept pre)) as [|y l].
        - cbn [snd]. rewrite Hu. reflexivity.
        - rewrite map_app. reflexivity. }
      { rewrite map_app. apply Forall_app. split; [assumption|].
        constructor; [|constructor].
        split; [|split; [|split]]; cbn [info main_col_idx unnamed_cols question_text].
        - apply nth_error_snoc.
        - exact Hm.
        - exact Hu.
        - constructor. }
Qed.

Lemma identify_loop_inv rest : forall pre st,
  inv pre st ->
  exists st', identify_loop (length pre) rest st = Some st'
              /\ inv (pre ++ rest)%list st'.
Proof.
  induction rest as [|col rest IH]; intros pre st Hinv.
  - exists st. rewrite app_nil_r. auto.
  - destruct (identify_step_inv pre st col Hinv) as (st1 & Hs & Hinv1).
    cbn [identify_loop]. rewrite Hs.
    destruct (IH (pre ++ [col])%list st1 Hinv1) as (st' & Hl & Hinv').
    rewrite length_app, Nat.add_1_r in Hl. rewrite <- app_assoc in Hinv'.
    exists st'. auto.
Qed.

(** X5: [identify_structure] never fails on a missing key.  The metadata
    columns are the columns whose label is a metadata or excluded label, in
    order; the questions are numbered 1, 2, ... in order; every column that is
    not metadata belongs to exactly one question, except the continuation
    columns before the first question, which are dropped; the positions run
    upwards through the questions, each question starting at a column that is
    neither metadata nor a continuation and continuing with continuation
    columns only. *)
Theorem identify_structure_partitions_columns (columns : list string) :
  exists st,
    identify_structure columns = Some st
    /\ metadata_columns st = List.filter is_meta columns
    /\ map fst (question_map st) = List.seq 1 (length (question_map st))
    /\ flat_map question_cols (map snd (question_map st)) = assigned columns
    /\ ascending (flat_map question_cols (map snd (question_map st)))
    /\ List.Forall (entry_ok columns) (map snd (question_map st)).
Proof.
  destruct (identify_loop_inv columns [] (mk_structure [] [] None 0))
    as (st & Hrun & Hmeta & Hkeys & Hcur & Hflat & Hok).
  { repeat split; constructor. }
  exists st. split; [exact Hrun|]. split; [exact Hmeta|].
  split; [|split; [exact Hflat|split; [rewrite Hflat; apply assigned_ascending|exact Hok]]].
  rewrite Hkeys. f_equal.
  apply (f_equal (@length nat)) in Hkeys.
  now rewrite length_map, length_seq in Hkeys.
Qed.

End StructureProps.

(* ===================================================================== *)
(** * Properties of the block search *)
(* ===================================================================== *)

Module BlocksProps.
Import PyStr Re Cuts Blocks.

(** A row that ends the scan of a block: both first cells empty, or a
    question title *)
Definition stops (ws : sheet) (r : nat) : bool :=
  is_none (cell ws r 1) && is_none (cell ws r 2) || is_title (cell ws r 1).

(** The header cells of the rating columns of a matrix block: none of the
    counted ones is N, and the count stops at an N header or at column 200. *)
Definition ratings_ok (ws : sheet) (b : block) : Prop :=
  if is_matrix b then
    num_rating_cols b <= 199
    /\ (forall k, k < num_rating_cols b ->
          value_is (cell ws (header_row b) (2 + k)) "N" = false)
    /\ (num_rating_cols b < 199 ->
          cell ws (header_row b) (2 + num_rating_cols b) = Some (VStr "N"))
  else if is_bipolar b then num_rating_cols b = 2
  else num_rating_cols b = 0.

(** The layout of one block *)
Definition block_ok (ws : sheet) (max_row : nat) (b : block) : Prop :=
  (exists title, cell ws (header_row b - 2) 1 = Some (VStr title)
                 /\ startswith (strip title) "Q" = true)
  /\ q_type b = block_type (str_or_empty (cell ws (header_row b - 1) 1))
  /\ is_matrix b = contains "matrix" (q_type b)
  /\ is_bipolar b = contains "bipolar" (q_type b)
  /\ cell ws (header_row b) 1 = Some (VStr "Response Option")
  /\ first_option_row b = header_row b + 1
  /\ first_option_row b <= n_row b <= max_row
  /\ (if is_matrix b || is_bipolar b
      then last_option_row b = n_row b
           /\ is_text (cell ws (n_row b) 1) = true
      else last_option_row b + 1 = n_row b
           /\ cell ws (n_row b) 1 = Some (VStr "N")
           /\ forall r, first_option_row b <= r <= last_option_row b ->
                        value_is (cell ws r 1) "N" = false)
  /\ (forall r, first_option_row b <= r <= last_option_row b -> stops ws r = false)
  /\ ratings_ok ws b.

(** Each block starts at least two rows after the row where the search
    resumed, and the search resumes three rows after its N row. *)
Fixpoint separated (from : nat) (blocks : list block) : Prop :=
  match blocks with
  | [] => True
  | b :: blocks' => from + 2 <= header_row b /\ separated (n_row b + 3) blocks'
  end.

Lemma value_is_spec v s : value_is v s = true <-> v = Some (VStr s).
Proof.
  destruct v as [[t|n]|]; simpl; split; try discriminate.
  - intros H. apply String.eqb_eq in H. now subst.
  - intros H. injection H as ->. apply String.eqb_refl.
Qed.

Lemma count_ratings_spec ws hr : forall remaining col_idx num,
  exists k,
    count_ratings ws hr remaining col_idx num = num + k
    /\ k <= remaining
    /\ (forall j, j < k -> value_is (cell ws hr (col_idx + j)) "N" = false)
    /\ (k < remaining -> cell ws hr (col_idx + k) = Some (VStr "N")).
Proof.
  induction remaining as [|remaining IH]; intros col_idx num; cbn [count_ratings].
  - exists 0. split; [lia|]. split; [lia|]. split; intros; lia.
  - destruct (value_is (cell ws hr col_idx) "N") eqn:Hn.
    + exists 0. split; [lia|]. split; [lia|]. split; [intros; lia|].
      intros _. rewrite Nat.add_0_r. now apply value_is_spec.
    + destruct (IH (S col_idx) (S num)) as (k & Hc & Hk & Hbefore & Hat).
      exists (S k). split; [lia|]. split; [lia|]. split.
      * intros [|j] Hj; [now rewrite Nat.add_0_r|].
        replace (col_idx + S j) with (S col_idx + j) by lia. apply Hbefore. lia.
      * intros Hlt. replace (col_idx + S k) with (S col_idx + k) by lia.
        apply Hat. lia.
Qed.

Lemma truthy_row_some o n : truthy_row o = Some n -> o = Some n /\ 0 < n.
Proof. destruct o as [[|k]|]; simpl; intros H; inversion H. split; [reflexivity | lia]. Qed.

(** The scan of a flat block stops at the first N row, after rows that end
    no block. *)
Lemma scan_flat ws : forall remaining cur last n,
  scan_block ws false false remaining cur last = Some n ->
  cur <= n < cur + remaining
  /\ cell ws n 1 = Some (VStr "N")
  /\ forall r, cur <= r < n ->
       stops ws r = false /\ value_is (cell ws r 1) "N" = false.
Proof.
  induction remaining as [|remaining IH]; intros cur last n; cbn [scan_block];
    [discriminate|].
  destruct (value_is (cell ws cur 1) "N") eqn:Hn; cbn [andb negb orb].
  - intros H. injection H as <-. split; [lia|]. split; [now apply value_is_spec|].
    intros; lia.
  - destruct (is_none (cell ws cur 1) && is_none (cell ws cur 2)) eqn:Hb; [discriminate|].
    destruct (is_title (cell ws cur 1)) eqn:Ht; [discriminate|].
    intros H. apply IH in H. destruct H as (Hr & Hc & Hrows).
    split; [lia|]. split; [assumption|].
    intros r Hrange. destruct (Nat.eq_dec r cur) as [->|Hne].
    + unfold stops. rewrite Hb, Ht. auto.
    + apply Hrows. lia.
Qed.

(** The scan of a matrix or bipolar block returns the last text row before
    the row that ends the block. *)
Lemma scan_ranked ws is_matrix is_bipolar :
  is_matrix || is_bipolar = true ->
  forall remaining cur last n,
  (forall l, last = Some l -> l < cur) ->
  scan_block ws is_matrix is_bipolar remaining cur last = Some n ->
  (last = Some n
   \/ (cur <= n < cur + remaining /\ is_text (cell ws n 1) = true))
  /\ forall r, cur <= r <= n -> stops ws r = false.
Proof.
  intros Hranked.
  assert (Hflat : forall v, v && negb is_matrix && negb is_bipolar = false).
  { intros v. destruct v, is_matrix, is_bipolar; try reflexivity; discriminate. }
  induction remaining as [|remaining IH]; intros cur last n Hlast; cbn [scan_block];
    [discriminate|].
  rewrite Hflat, Hranked.
  destruct (is_none (cell ws cur 1) && is_none (cell ws cur 2)) eqn:Hb.
  { intros H. apply truthy_row_some in H. destruct H as [-> _].
    split; [now left|]. intros r Hr. specialize (Hlast n eq_refl). lia. }
  destruct (is_title (cell ws cur 1)) eqn:Ht.
  { intros H. apply truthy_row_some in H. destruct H as [-> _].
    split; [now left|]. intros r Hr. specialize (Hlast n eq_refl). lia. }
  assert (Hcur : stops ws cur = false) by (unfold stops; now rewrite Hb, Ht).
  intros H. apply IH in H.
  - destruct H as [[Hl|(Hr & Htext)] Hrows].
    + destruct (is_text (cell ws cur 1)) eqn:Htext.
      * injection Hl as <-. split; [right; split; [lia | assumption]|].
        intros r Hr. now replace r with cur by lia.
      * split; [now left|]. intros r Hr. specialize (Hlast n Hl). lia.
    + split; [right; split; [lia | assumption]|].
      intros r Hrange. destruct (Nat.eq_dec r cur) as [->|Hne]; [assumption|].
      apply Hrows. lia.
  - intros l Hl. destruct (is_text (cell ws cur 1)).
    + injection Hl as <-. lia.
    + specialize (Hlast l Hl). lia.
Qed.

(** The block found at a title row is laid out as [block_ok] says. *)
Lemma block_at_ok ws max_row r title b :
  cell ws r 1 = Some (VStr title) ->
  startswith (strip title) "Q" = true ->
  block_at ws max_row r = Some b ->
  block_ok ws max_row b /\ header_row b = r + 2.
Proof.
  intros Htitle HQ. unfold block_at.
  set (q := block_type (str_or_empty (cell ws (r + 1) 1))).
  destruct (count_ratings_spec ws (r + 2) 199 2 0) as (k & Hcount & Hk & Hbefore & Hat).
  set (counted := count_ratings ws (r + 2) 199 2 0) in *.
  destruct (value_is (cell ws (r + 2) 1) "Response Option") eqn:Hhdr; [|discriminate].
  apply value_is_spec in Hhdr.
  destruct (truthy_row _) as [n|] eqn:Hscan; [|discriminate].
  apply truthy_row_some in Hscan. destruct Hscan as [Hscan Hpos].
  intros H. injection H as <-.
  split; [|reflexivity].
  unfold block_ok, ratings_ok.
  cbn [header_row first_option_row last_option_row n_row q_type is_matrix is_bipolar
       num_rating_cols].
  replace (r + 2 - 2) with r by lia. replace (r + 2 - 1) with (r + 1) by lia.
  split; [exists title; auto|].
  split; [reflexivity|]. split; [reflexivity|]. split; [reflexivity|].
  split; [assumption|]. split; [reflexivity|].
  destruct (contains "matrix" q || contains "bipolar" q) eqn:Hranked.
  - destruct (scan_ranked ws _ _ Hranked _ _ None n ltac:(discriminate) Hscan)
      as [[Hl|(Hr & Htext)] Hrows]; [discriminate|].
    split; [lia|]. split; [auto|]. split; [exact Hrows|].
    destruct (contains "matrix" q) eqn:Hm.
    + cbv iota. rewrite Hcount. simpl. auto.
    + destruct (contains "bipolar" q); [reflexivity | discriminate].
  - apply orb_false_iff in Hranked. destruct Hranked as [Hm Hbi].
    rewrite Hm, Hbi in *.
    destruct (scan_flat ws _ _ _ _ Hscan) as (Hr & Hn & Hrows).
    split; [lia|]. split.
    + split; [lia|]. split; [assumption|]. intros r' Hr'. apply Hrows. lia.
    + split; [|reflexivity]. intros r' Hr'. apply Hrows. lia.
Qed.

Lemma separated_weaken blocks : forall from from',
  from' <= from -> separated from blocks -> separated from' blocks.
Proof.
  destruct blocks as [|b blocks]; simpl; [trivial|].
  intros from from' Hle [Hh Hs]. split; [lia | assumption].
Qed.

Lemma blocks_loop_spec ws max_row : forall fuel r blocks,
  0 < fuel -> max_row + 1 < r + fuel ->
  exists found,
    blocks_loop fuel ws max_row r blocks = Some (blocks ++ found)%list
    /\ List.Forall (block_ok ws max_row) found
    /\ separated r found.
Proof.
  induction fuel as [|fuel IH]; intros r blocks Hpos Hfuel; [lia|].
  cbn [blocks_loop].
  destruct (Nat.ltb_spec max_row r) as [Hend|Hin].
  { exists []. rewrite app_nil_r. repeat split; constructor. }
  assert (Hnext : exists found,
             blocks_loop fuel ws max_row (r + 1) blocks = Some (blocks ++ found)%list
             /\ List.Forall (block_ok ws max_row) found
             /\ separated r found).
  { destruct (IH (r + 1) blocks) as (found & H1 & H2 & H3); [lia|lia|].
    exists found. split; [assumption|]. split; [assumption|].
    apply (separated_weaken found (r + 1)); [lia | assumption]. }
  destruct (cell ws r 1) as [[title|k]|] eqn:Htitle; try exact Hnext.
  destruct (startswith (strip title) "Q") eqn:HQ; [|exact Hnext].
  destruct (block_at ws max_row r) as [b|] eqn:Hb; [|exact Hnext].
  destruct (block_at_ok ws max_row r title b Htitle HQ Hb) as [Hok Hhdr].
  assert (Hn : r + 3 <= n_row b).
  { destruct Hok as (_ & _ & _ & _ & _ & Hf & Hrange & _). lia. }
  destruct (IH (n_row b + 3) (blocks ++ [b])%list) as (found & H1 & H2 & H3);
    [lia|lia|].
  exists (b :: found). split; [|split].
  - rewrite H1, <- app_assoc. reflexivity.
  - constructor; assumption.
  - simpl. split; [lia | assumption].
Qed.

(** X6: [find_question_blocks] always returns.  Every block it records has
    its header two rows below a title row that starts with Q, the text
    Response Option in the header cell, its first option row right below the
    header and its N row no further than the last row of the sheet.  A flat
    block ends one row above an N row and no option row of it is labelled N;
    a matrix or bipolar block ends on a text row.  No option row is an empty
    row or a question title.  A matrix block counts the header cells from
    column 2 up to the first N header, at most 199; a bipolar block has two
    rating columns, a flat block none.  The blocks come in sheet order,
    every header at least five rows below the N row of the block before. *)
Theorem find_question_blocks_layout (ws : sheet) (max_row : nat) :
  exists blocks,
    find_question_blocks ws max_row = Some blocks
    /\ List.Forall (block_ok ws max_row) blocks
    /\ separated 6 blocks.
Proof.
  destruct (blocks_loop_spec ws max_row (S max_row) 6 []) as (found & H1 & H2 & H3);
    [lia|lia|].
  exists found. auto.
Qed.

(** ** The row that closes a matrix or bipolar block *)

Lemma scan_ranked_stop ws is_matrix is_bipolar :
  is_matrix || is_bipolar = true ->
  forall remaining cur last n,
  (forall l, last = Some l -> l < cur) ->
  scan_block ws is_matrix is_bipolar remaining cur last = Some n ->
  exists stop,
    cur <= stop < cur + remaining
    /\ n < stop
    /\ stops ws stop = true
    /\ (forall r, cur <= r < stop -> stops ws r = false)
    /\ (forall r, cur <= r -> n < r < stop -> is_text (cell ws r 1) = false).
Proof.
  intros Hranked.
  assert (Hflat : forall v, v && negb is_matrix && negb is_bipolar = false).
  { intros v. destruct v, is_matrix, is_bipolar; try reflexivity; discriminate. }
  induction remaining as [|remaining IH]; intros cur last n Hlast Hscan;
    [discriminate|].
  pose proof (scan_ranked ws _ _ Hranked _ _ _ _ Hlast Hscan) as [Hn _].
  cbn [scan_block] in Hscan. rewrite Hflat, Hranked in Hscan.
  destruct (is_none (cell ws cur 1) && is_none (cell ws cur 2)) eqn:Hb.
  { apply truthy_row_some in Hscan. destruct Hscan as [-> _].
    exists cur. specialize (Hlast n eq_refl).
    split; [lia|]. split; [lia|]. split; [unfold stops; now rewrite Hb|].
    split; intros; lia. }
  destruct (is_title (cell ws cur 1)) eqn:Ht.
  { apply truthy_row_some in Hscan. destruct Hscan as [-> _].
    exists cur. specialize (Hlast n eq_refl).
    split; [lia|]. split; [lia|].
    split; [unfold stops; rewrite Ht; apply orb_true_r|].
    split; intros; lia. }
  assert (Hcur : stops ws cur = false) by (unfold stops; now rewrite Hb, Ht).
  assert (Hlast' : forall l,
            (if is_text (cell ws cur 1) then Some cur else last) = Some l -> l < S cur).
  { intros l Hl. destruct (is_text (cell ws cur 1)).
    - injection Hl as <-. lia.
    - specialize (Hlast l Hl). lia. }
  pose proof (scan_ranked ws _ _ Hranked _ _ _ _ Hlast' Hscan) as [Hn' _].
  destruct (IH _ _ _ Hlast' Hscan) as (stop & Hrange & Hlt & Hstop & Hrows & Htext).
  exists stop. split; [lia|]. split; [assumption|]. split; [assumption|]. split.
  - intros r Hr. destruct (Nat.eq_dec r cur) as [->|Hne]; [assumption|].
    apply Hrows. lia.
  - intros r Hr Hbetween. destruct (Nat.eq_dec r cur) as [->|Hne].
    + destruct (is_text (cell ws cur 1)) eqn:Hcell; [|reflexivity].
      destruct Hn' as [Hl|[Hge _]]; [injection Hl as <-; lia | lia].
    + apply Htext; lia.
Qed.

(** Every recorded block is the block found at some title row. *)
Lemma blocks_loop_origin ws max_row : forall fuel r blocks found,
  blocks_loop fuel ws max_row r blocks = Some found ->
  forall b, In b found ->
    In b blocks
    \/ exists title_row title,
         cell ws title_row 1 = Some (VStr title)
         /\ startswith (strip title) "Q" = true
         /\ block_at ws max_row title_row = Some b.
Proof.
  induction fuel as [|fuel IH]; intros r blocks found Hloop b Hb; [discriminate|].
  cbn [blocks_loop] in Hloop.
  destruct (max_row <? r); [injection Hloop as <-; now left|].
  destruct (cell ws r 1) as [[title|k]|] eqn:Htitle;
    try (eapply IH; eassumption).
  destruct (startswith (strip title) "Q") eqn:HQ; [|eapply IH; eassumption].
  destruct (block_at ws max_row r) as [b0|] eqn:Hb0; [|eapply IH; eassumption].
  destruct (IH _ _ _ Hloop b Hb) as [Hin|Hex]; [|now right].
  apply in_app_or in Hin. destruct Hin as [Hin|[<-|[]]]; [now left|].
  right. exists r, title. auto.
Qed.

(** X15: a matrix or bipolar block is recorded only when a row that ends
    it, an empty row or a question title, follows its last text row no later
    than the last row of the sheet; the rows in between hold no text.  So a
    matrix or bipolar table that runs to the last row of the sheet is left
    out. *)
Theorem ranked_blocks_need_a_closing_row
    (ws : sheet) (max_row : nat) (blocks : list block) (b : block) :
  find_question_blocks ws max_row = Some blocks ->
  In b blocks ->
  is_matrix b || is_bipolar b = true ->
  exists stop,
    n_row b < stop <= max_row
    /\ stops ws stop = true
    /\ (forall r, first_option_row b <= r < stop -> stops ws r = false)
    /\ (forall r, n_row b < r < stop -> is_text (cell ws r 1) = false).
Proof.
  intros Hfind Hb Hranked.
  destruct (blocks_loop_origin _ _ _ _ _ _ Hfind b Hb)
    as [[]|(title_row & title & Htitle & HQ & Hat)].
  unfold block_at in Hat.
  destruct (value_is (cell ws (title_row + 2) 1) "Response Option"); [|discriminate].
  destruct (truthy_row _) as [n|] eqn:Hscan; [|discriminate].
  apply truthy_row_some in Hscan. destruct Hscan as [Hscan Hpos].
  injection Hat as <-.
  cbn [n_row first_option_row is_matrix is_bipolar] in *.
  destruct (scan_ranked ws _ _ Hranked _ _ None n ltac:(discriminate) Hscan)
    as [[Hl|(Hr & _)] _]; [discriminate|].
  destruct (scan_ranked_stop ws _ _ Hranked _ _ None n ltac:(discriminate) Hscan)
    as (stop & Hrange & Hlt & Hstop & Hrows & Htext).
  exists stop. split; [lia|]. split; [assumption|]. split; [exact Hrows|].
  intros r Hbetween. apply Htext; lia.
Qed.

Definition ranked_sheet : sheet :=
  list_to_map
    [ ((6, 1), VStr "Q1. Rate the brands"); ((7, 1), VStr "Type: Matrix | Base: ");
      ((8, 1), VStr "Response Option"); ((8, 2), VStr "Good"); ((8, 3), VStr "N");
      ((9, 1), VStr "Brand A"); ((9, 2), VInt 0);
      ((10, 1), VStr "Brand B"); ((10, 2), VInt 0);
      ((13, 1), VStr "Q2. Another question") ].

Lemma ranked_blocks_need_a_closing_row_witness :
  exists stop,
    10 < stop <= 13
    /\ stops ranked_sheet stop = true
    /\ (forall r, 9 <= r < stop -> stops ranked_sheet r = false)
    /\ (forall r, 10 < r < stop -> is_text (cell ranked_sheet r 1) = false).
Proof.
  apply (ranked_blocks_need_a_closing_row ranked_sheet 13
           [mk_block 8 9 10 10 "matrix" true false 1]
           (mk_block 8 9 10 10 "matrix" true false 1)).
  - vm_compute. reflexivity.
  - now left.
  - reflexivity.
Defined.

(** The same table at the end of the sheet is not recorded. *)
Lemma ranked_block_at_sheet_end :
  find_question_blocks ranked_sheet 10 = Some [].
Proof. vm_compute. reflexivity. Qed.

End BlocksProps.

(* ===================================================================== *)
(** * What the cut columns leave alone *)
(* ===================================================================== *)

Module FrameProps.
Import PyStr Re Cuts CutsProps.

(** The rows of a block that the cut loops visit: from the header to the
    last option, the option rows, and the N row *)
Definition block_rows (b : block) (r : nat) : Prop :=
  header_row b <= r <= last_option_row b
  \/ first_option_row b <= r <= last_option_row b
  \/ r = header_row b
  \/ r = n_row b.

(** The number of columns that the loops of a block use for one cut *)
Definition extent (b : block) (cb : cut_block) : nat :=
  if is_bipolar b then 5
  else if is_matrix b then num_rating_cols b + 1 + num_rating_cols b
  else num_cat cb + length (categories cb).

(** A cell that the columns of cut [cb] in block [b] cannot reach *)
Definition out_of_reach (b : block) (cb : cut_block) (r c : nat) : Prop :=
  c < start_col cb \/ start_col cb + extent b cb <= c \/ ~ block_rows b r.

Ltac other_cell :=
  first [apply cell_assign_ne | apply cell_with_ne];
  let E := fresh in intros E; injection E; intros; subst; lia.

Lemma in_enumerate {A : Type} (l : list A) (y : nat * A) :
  In y (enumerate l) -> fst y < length l.
Proof.
  destruct y as [i x]. intros H. apply in_combine_l in H.
  apply in_seq in H. simpl. lia.
Qed.

Lemma bipolar_cut_frame b ws cb r c :
  c < start_col cb \/ start_col cb + 5 <= c \/ ~ block_rows b r ->
  cell (bipolar_cut b ws cb) r c = cell ws r c.
Proof.
  unfold block_rows. intros H. unfold bipolar_cut.
  rewrite fold_frame.
  - apply fold_frame. intros y ws' Hy. apply in_range in Hy. other_cell.
  - intros y ws' Hy. apply in_range in Hy. unfold bipolar_row.
    rewrite !cell_with_ne; [reflexivity|..]; intros E; injection E; intros; subst; lia.
Qed.

Lemma matrix_cut_frame b ws cb r c :
  c < start_col cb
  \/ start_col cb + (num_rating_cols b + 1 + num_rating_cols b) <= c
  \/ ~ block_rows b r ->
  cell (matrix_cut b ws cb) r c = cell ws r c.
Proof.
  unfold block_rows. intros H. unfold matrix_cut.
  rewrite fold_frame.
  - unfold matrix_ratings. rewrite fold_frame.
    + unfold matrix_copy. apply fold_frame. intros y ws' Hy. apply in_range in Hy.
      apply fold_frame. intros y' ws'' Hy'. apply in_range in Hy'. other_cell.
    + intros y ws' Hy. apply in_range in Hy.
      apply fold_frame. intros y' ws'' Hy'. apply in_range in Hy'.
      apply matrix_rating_cell_frame. intros E; injection E; intros; subst; lia.
  - intros y ws' Hy. apply in_range in Hy.
    apply matrix_n_cell_frame. intros E; injection E; intros; subst; lia.
Qed.

Lemma flat_cut_frame b ws cb r c :
  c < start_col cb
  \/ start_col cb + (num_cat cb + length (categories cb)) <= c
  \/ ~ block_rows b r ->
  cell (flat_cut b ws cb) r c = cell ws r c.
Proof.
  unfold block_rows. intros H. unfold flat_cut, flat_totals, flat_headers.
  rewrite fold_frame; [rewrite fold_frame; [apply fold_frame|]|].
  - intros y ws' Hy. apply in_enumerate in Hy.
    rewrite !cell_assign_ne; [reflexivity|..]; intros E; injection E; intros; subst; lia.
  - intros y ws' Hy. apply in_range in Hy. unfold flat_row.
    destruct (cell ws' y 2) as [[f|n]|]; try reflexivity.
    destruct (startswith f "="); [|reflexivity].
    apply fold_frame. intros y' ws'' Hy'. apply in_enumerate in Hy'.
    rewrite !cell_assign_ne; [reflexivity|..]; intros E; injection E; intros; subst; lia.
  - intros y ws' Hy. apply in_enumerate in Hy. other_cell.
Qed.

Lemma block_cuts_frame cbs b ws r c :
  (forall cb, In cb cbs -> out_of_reach b cb r c) ->
  cell (block_cuts cbs ws b) r c = cell ws r c.
Proof.
  intros H. unfold block_cuts. unfold out_of_reach, extent in H.
  destruct (is_bipolar b).
  { apply fold_frame. intros cb ws' Hcb. apply bipolar_cut_frame. auto. }
  destruct (is_matrix b).
  { apply fold_frame. intros cb ws' Hcb. apply matrix_cut_frame. auto. }
  destruct (contains "single" (q_type b) || contains "multiple" (q_type b)
            || contains "multi-select" (q_type b)); [|reflexivity].
  apply fold_frame. intros cb ws' Hcb. apply flat_cut_frame. auto.
Qed.

Lemma write_dropdowns_frame cbs ws r c :
  r <> 1 \/ (forall cb, In cb cbs -> c <> start_col cb) ->
  cell (write_dropdowns ws cbs) r c = cell ws r c.
Proof.
  intros H. unfold write_dropdowns. apply fold_frame. intros cb ws' Hcb.
  apply cell_assign_ne. intros E. injection E as E1 E2.
  destruct H as [H|H]; [congruence|]. apply (H cb Hcb). congruence.
Qed.

(** X7: applying the cuts changes no cell to the left of the first cut
    column, which lies seven columns beyond the widest base question, and no
    cell outside row 1 and the rows of the blocks. *)
Theorem apply_cuts_leaves_base_alone
    (max_question_width : nat) (blocks : list block) (cuts : list cut) (ws : sheet)
    (r c : nat) :
  c < max_question_width + 7
  \/ (r <> 1 /\ forall b, In b blocks -> ~ block_rows b r) ->
  cell (apply_cuts max_question_width blocks cuts ws) r c = cell ws r c.
Proof.
  intros H. unfold apply_cuts.
  assert (Hstart : forall cb, In cb (cut_blocks max_question_width blocks cuts) ->
                     max_question_width + 7 <= start_col cb).
  { intros cb Hcb. now apply allocate_start_ge in Hcb. }
  rewrite fold_frame.
  - apply write_dropdowns_frame. destruct H as [H|[H _]]; [right|now left].
    intros cb Hcb. specialize (Hstart cb Hcb). lia.
  - intros b ws' Hb. apply block_cuts_frame. intros cb Hcb.
    destruct H as [H|[_ H]].
    + left. specialize (Hstart cb Hcb). lia.
    + right. right. now apply H.
Qed.

Lemma apply_cuts_leaves_base_alone_witness :
  cell (apply_cuts 3 [flat_block] [gender_cut] flat_sheet) 9 2
  = Some (VStr "=COUNTIFS('Raw Data'!$B$3:$B$8000,A9)").
Proof.
  rewrite (apply_cuts_leaves_base_alone 3 [flat_block] [gender_cut] flat_sheet 9 2).
  - reflexivity.
  - left. lia.
Defined.

Lemma allocate_categories blocks cuts : forall s cb,
  (forall ct, In ct cuts -> cut_categories ct <> []) ->
  In cb (allocate blocks cuts s) -> categories cb <> [].
Proof.
  induction cuts as [|ct cuts IH]; intros s cb Hcats Hin; simpl in Hin; [destruct Hin|].
  destruct Hin as [<-|Hin]; [apply Hcats; now left|].
  eapply IH; [|exact Hin]. intros ct' Hct'. apply Hcats. now right.
Qed.

(** X8: when every cut has a category and no block is both a matrix and a
    bipolar block, the cells written for the cuts all lie in the column
    ranges allocated to the cuts: a cell whose column is in none of the
    ranges keeps its value.  In particular the six columns that separate two
    cuts are never written. *)
Theorem cuts_stay_in_their_columns
    (max_question_width : nat) (blocks : list block) (cuts : list cut) (ws : sheet)
    (r c : nat) :
  (forall b, In b blocks -> is_bipolar b = true -> is_matrix b = false) ->
  (forall ct, In ct cuts -> cut_categories ct <> []) ->
  (forall cb, In cb (cut_blocks max_question_width blocks cuts) ->
     c < start_col cb \/ end_col cb < c) ->
  cell (apply_cuts max_question_width blocks cuts ws) r c = cell ws r c.
Proof.
  intros Hkind Hcats Hout. unfold apply_cuts.
  assert (Hcb : forall cb, In cb (cut_blocks max_question_width blocks cuts) ->
            num_cat cb = length (categories cb)
            /\ 0 < num_cat cb
            /\ end_col cb + 1 = start_col cb + cut_width blocks (num_cat cb)).
  { intros cb Hin. unfold cut_blocks in Hin.
    pose proof (allocate_categories blocks cuts _ cb Hcats Hin) as Hne.
    destruct (allocate_shape _ _ _ _ Hin) as (Hn & Hw & He).
    split; [assumption|].
    assert (Hpos : 0 < num_cat cb).
    { rewrite Hn. destruct (categories cb); [congruence | simpl; lia]. }
    split; [assumption|].
    pose proof (fold_widen_ge blocks (2 * num_cat cb)) as Hge.
    unfold cut_width in *. lia. }
  rewrite fold_frame.
  - apply write_dropdowns_frame. right. intros cb Hin.
    destruct (Hcb cb Hin) as (Hn & Hpos & He).
    pose proof (fold_widen_ge blocks (2 * num_cat cb)) as Hge. unfold cut_width in He.
    destruct (Hout cb Hin); lia.
  - intros b ws' Hb. apply block_cuts_frame. intros cb Hin.
    destruct (Hcb cb Hin) as (Hn & Hpos & He).
    unfold out_of_reach, extent.
    destruct (Hout cb Hin) as [Hlt|Hgt]; [now left|]. right. left.
    unfold cut_width in He.
    destruct (is_bipolar b) eqn:Hbi.
    + pose proof (fold_widen_bipolar blocks (2 * num_cat cb) b Hb (Hkind b Hb Hbi) Hbi).
      lia.
    + destruct (is_matrix b) eqn:Hm.
      * pose proof (fold_widen_matrix blocks (2 * num_cat cb) b Hb Hm). lia.
      * pose proof (fold_widen_ge blocks (2 * num_cat cb)). lia.
Qed.

Lemma cuts_stay_in_their_columns_witness :
  cell (apply_cuts 3 [flat_block] [gender_cut] flat_sheet) 9 14 = None.
Proof.
  rewrite (cuts_stay_in_their_columns 3 [flat_block] [gender_cut] flat_sheet 9 14).
  - reflexivity.
  - intros b [<-|[]]. discriminate.
  - intros ct [<-|[]]. discriminate.
  - intros cb [<-|[]]. right. vm_compute. lia.
Defined.

End FrameProps.

(* ===================================================================== *)
(** * Properties of the cuts template *)
(* ===================================================================== *)

Module TemplateProps.
Import PyStr PyStrFacts Re Cuts CutsProps Template.

(** ** Numerals *)

Lemma digits_of_uint d : sall is_digit (NilEmpty.string_of_uint d) = true.
Proof. induction d; simpl; auto. Qed.

Lemma to_uint_nonnil n : Nat.to_uint n <> Decimal.Nil.
Proof.
  rewrite <- (DecimalNat.Unsigned.of_to n) at 1.
  rewrite DecimalNat.Unsigned.to_of. apply DecimalFacts.unorm_nonnil.
Qed.

Lemma str_of_nat_digits n :
  exists a d, str_of_nat n = String a d /\ is_digit a = true /\ sall is_digit d = true.
Proof.
  unfold str_of_nat, NilZero.string_of_uint.
  pose proof (to_uint_nonnil n) as Hn.
  pose proof (digits_of_uint (Nat.to_uint n)) as Hd.
  destruct (Nat.to_uint n) as [|u|u|u|u|u|u|u|u|u|u]; [congruence|..];
    simpl in Hd |- *; eexists _, _; (split; [reflexivity|]); split;
      solve [reflexivity | exact Hd].
Qed.

(** [int(str(n))] is [n]. *)
Lemma int_of_digits_str n : int_of_digits (str_of_nat n) = Some n.
Proof.
  unfold int_of_digits, str_of_nat.
  rewrite NilZero.usu by apply to_uint_nonnil.
  simpl. now rewrite DecimalNat.Unsigned.of_to.
Qed.

(** ** The label of a cut *)

Lemma star_rests_all p d : forall rest,
  sall p d = true ->
  match rest with
  | EmptyString => True
  | String a _ => p a = false
  end ->
  exists others, star_rests p (d +:+ rest) = rest :: others.
Proof.
  induction d as [|a d IH]; intros rest Hd Hrest; sapp.
  - destruct rest as [|b rest]; simpl.
    + now exists [].
    + rewrite Hrest. now exists [].
  - simpl in Hd. apply andb_true_iff in Hd. destruct Hd as [Ha Hd].
    cbn [star_rests]. rewrite Ha.
    destruct (IH rest Hd Hrest) as (others & ->).
    eexists. reflexivity.
Qed.

Lemma run_seq_cons r1 r2 c s c1 s1 l y l' :
  run r1 c s = (c1, s1) :: l ->
  run r2 c1 s1 = y :: l' ->
  exists l'', run (Seq r1 r2) c s = y :: l''.
Proof.
  intros H1 H2. cbn [run]. rewrite H1. cbn [flat_map fst snd]. rewrite H2.
  eexists. reflexivity.
Qed.

Lemma consumed_app a b : consumed (a +:+ b) b = a.
Proof.
  unfold consumed. rewrite slength_app.
  replace (String.length a + String.length b - String.length b)
    with (String.length a) by lia.
  apply stake_app.
Qed.

(** The digits after the hash sign are captured whole. *)
Lemma run_digits c a d tail :
  is_digit a = true -> sall is_digit d = true ->
  match tail with
  | EmptyString => True
  | String b _ => is_digit b = false
  end ->
  exists l, run (Grp 1 (Plus is_digit)) c (String a (d +:+ tail))
            = ((1, String a d) :: c, tail) :: l.
Proof.
  intros Ha Hd Htail. cbn [run]. rewrite Ha.
  destruct (star_rests_all is_digit d tail Hd Htail) as (others & ->).
  cbn [map fst snd].
  change (String a (d +:+ tail)) with (String a d +:+ tail).
  rewrite consumed_app. eexists. reflexivity.
Qed.

Lemma label_index_written n tail :
  match tail with
  | EmptyString => True
  | String a _ => is_digit a = false
  end ->
  label_index (Some (VStr ("Cut #" +:+ str_of_nat n +:+ tail))) = Some n.
Proof.
  intros Htail. unfold label_index, re_search.
  destruct (str_of_nat_digits n) as (a & d & Hs & Ha & Hd).
  pose proof (int_of_digits_str n) as Hint. rewrite Hs in *.
  destruct (run_digits [] a d tail Ha Hd Htail) as (l1 & H1).
  destruct (run_seq_cons (Grp 1 (Plus is_digit)) Eps [] _ _ _ _ _ [] H1 eq_refl)
    as (l2 & H2).
  assert (H3 : exists l, run (rseq [Chr (lit "#"); Grp 1 (Plus is_digit)]) []
                             (String "#" (String a (d +:+ tail)))
                         = ([(1, String a d)], tail) :: l).
  { eapply run_seq_cons; [reflexivity | exact H2]. }
  destruct H3 as (l3 & H3).
  assert (H4 : exists l, run (rseq [Star py_isspace; Chr (lit "#"); Grp 1 (Plus is_digit)])
                             [] (String " " (String "#" (String a (d +:+ tail))))
                         = ([(1, String a d)], tail) :: l).
  { eapply run_seq_cons; [|exact H3]. reflexivity. }
  destruct H4 as (l4 & H4).
  assert (H5 : exists l, run CUT_RE [] ("Cut #" +:+ String a d +:+ tail)
                         = ([(1, String a d)], tail) :: l).
  { unfold CUT_RE. sapp.
    change (rseq [word "Cut"; Star py_isspace; Chr (lit "#"); Grp 1 (Plus is_digit)])
      with (Seq (word "Cut")
              (rseq [Star py_isspace; Chr (lit "#"); Grp 1 (Plus is_digit)])).
    eapply run_seq_cons; [reflexivity | exact H4]. }
  destruct H5 as (l5 & H5).
  destruct ("Cut #" +:+ String a d +:+ tail) eqn:Htext; cbn [search_from];
    rewrite H5; cbn [head group Nat.eqb]; exact Hint.
Qed.

(** ** The cells of the template *)

(** The value that the row of a cut holds in a column *)
Definition row_cell (ct : cut_config) (col : nat) : option value :=
  match col with
  | 0 => None
  | 1 => Some (VStr ("Cut #" +:+ str_of_nat (cfg_index ct) +:+ " column ="))
  | 2 => Some (VInt (cfg_raw_col_index ct))
  | 3 => Some (VStr ("Cut #" +:+ str_of_nat (cfg_index ct) +:+ " parameter ="))
  | _ => option_map VStr (cfg_categories ct !! (col - 4))
  end.

Lemma write_categories_cell categories : forall ws row k r c,
  cell (write_categories ws row k categories) r c
  = if (r =? row) && (k <=? c) && (c <? k + length categories)
    then option_map VStr (categories !! (c - k))
    else cell ws r c.
Proof.
  induction categories as [|cat rest IH]; intros ws row k r c; cbn [write_categories].
  - destruct (r =? row), (Nat.leb_spec k c), (Nat.ltb_spec c (k + length (@nil string)));
      simpl in *; try reflexivity; lia.
  - rewrite IH. cbn [length].
    destruct (Nat.eqb_spec r row) as [->|Hr]; cbn [andb].
    + destruct (Nat.leb_spec (S k) c), (Nat.ltb_spec c (S k + length rest)),
        (Nat.leb_spec k c), (Nat.ltb_spec c (k + S (length rest)));
        cbn [andb]; try lia;
        first [ apply cell_with_ne; intros E; injection E; lia
              | replace c with k by lia; rewrite Nat.sub_diag; apply cell_with_eq
              | replace (c - k) with (S (c - S k)) by lia; reflexivity ].
    + apply cell_with_ne. intros E; injection E; lia.
Qed.

Lemma write_cut_cell ws ct :
  cfg_index ct <> 0 ->
  exists ws',
    write_cut ws ct = Some ws'
    /\ forall r c,
         cell ws' r c
         = if r =? cfg_index ct
           then match row_cell ct c with
                | Some v => Some v
                | None => cell ws r c
                end
           else cell ws r c.
Proof.
  intros Hpos. unfold write_cut.
  destruct (Nat.eqb_spec (cfg_index ct) 0) as [E|_]; [contradiction|].
  eexists. split; [reflexivity|]. intros r c.
  rewrite write_categories_cell.
  destruct (Nat.eqb_spec r (cfg_index ct)) as [->|Hr]; cbn [andb].
  - destruct c as [|[|[|[|c]]]].
    + cbn [row_cell Nat.leb andb].
      rewrite !cell_with_ne; [reflexivity|..]; intros E; injection E; lia.
    + cbn [row_cell Nat.leb andb].
      do 2 rewrite cell_with_ne by (intros E; injection E; lia). apply cell_with_eq.
    + cbn [row_cell Nat.leb andb].
      rewrite cell_with_ne by (intros E; injection E; lia). apply cell_with_eq.
    + cbn [row_cell Nat.leb andb]. apply cell_with_eq.
    + cbn [row_cell]. set (col := S (S (S (S c)))).
      assert (Hcol : 4 <= col) by (unfold col; lia). clearbody col.
      destruct (Nat.leb_spec 4 col) as [_|Hlt]; [|lia]. cbn [andb].
      destruct (Nat.ltb_spec col (4 + length (cfg_categories ct))) as [Hlt|Hge].
      * destruct (cfg_categories ct !! (col - 4)) as [cat|] eqn:Hc; [reflexivity|].
        apply lookup_ge_None in Hc. lia.
      * replace (cfg_categories ct !! (col - 4)) with (@None string).
        { cbn [option_map].
          rewrite !cell_with_ne; [reflexivity|..]; intros E; injection E; lia. }
        symmetry. apply lookup_ge_None. lia.
  - rewrite !cell_with_ne; [reflexivity|..]; intros E; injection E; lia.
Qed.

Lemma write_cuts_cell cuts_config : forall ws,
  List.NoDup (map cfg_index cuts_config) ->
  (forall ct, In ct cuts_config -> cfg_index ct <> 0) ->
  exists ws',
    write_cuts ws cuts_config = Some ws'
    /\ forall r c,
         cell ws' r c
         = match List.find (fun ct => cfg_index ct =? r) cuts_config with
           | Some ct => match row_cell ct c with
                        | Some v => Some v
                        | None => cell ws r c
                        end
           | None => cell ws r c
           end.
Proof.
  induction cuts_config as [|ct rest IH]; intros ws Hnd Hpos.
  - exists ws. split; reflexivity.
  - cbn [map] in Hnd. apply List.NoDup_cons_iff in Hnd. destruct Hnd as [Hnew Hnd].
    destruct (write_cut_cell ws ct) as (ws1 & Hw & Hcell1); [apply Hpos; now left|].
    destruct (IH ws1 Hnd) as (ws' & Hws & Hcell); [intros; apply Hpos; now right|].
    exists ws'. cbn [write_cuts]. rewrite Hw. split; [exact Hws|].
    intros r c. rewrite Hcell. cbn [List.find].
    destruct (Nat.eqb_spec (cfg_index ct) r) as [E|Hne].
    + destruct (List.find _ rest) as [ct'|] eqn:Hf.
      * apply List.find_some in Hf. destruct Hf as [Hin Heq].
        apply Nat.eqb_eq in Heq. exfalso. apply Hnew. apply in_map_iff.
        exists ct'. split; [congruence | assumption].
      * rewrite Hcell1. subst r. now rewrite Nat.eqb_refl.
    + rewrite Hcell1. destruct (Nat.eqb_spec r (cfg_index ct)) as [E|_]; [congruence|].
      reflexivity.
Qed.

(** ** Reading the categories back *)

Fixpoint take_while {A : Type} (p : A -> bool) (l : list A) : list A :=
  match l with
  | [] => []
  | x :: l' => if p x then x :: take_while p l' else []
  end.

Lemma read_categories_spec ws row m : forall k categories,
  (forall j, cell ws row (k + j) = option_map VStr (categories !! j)) ->
  read_categories ws row (List.seq k m)
  = map strip (take_while truthy (firstn m categories)).
Proof.
  induction m as [|m IH]; intros k categories Hcells; [reflexivity|].
  cbn [List.seq read_categories].
  pose proof (Hcells 0) as H0. rewrite Nat.add_0_r in H0. rewrite H0.
  destruct categories as [|cat rest]; [reflexivity|].
  cbn [lookup option_map is_blank firstn take_while]. simpl.
  destruct (truthy cat); [|reflexivity].
  cbn [negb map str_of_value]. f_equal.
  apply IH. intros j. specialize (Hcells (S j)).
  replace (S k + j) with (k + S j) by lia. exact Hcells.
Qed.

(** ** Writing and loading *)

(** A text that a saved workbook gives back as it was written: printable
    characters only, and no leading equals sign, which would make the cell a
    formula *)
Definition storable (s : string) : bool :=
  negb (startswith s "=")
  && sall (fun a => (32 <=? nat_of_ascii a) && (nat_of_ascii a <? 127)) s.

(** What the loader makes of the row of a cut: at most 15 categories, up to
    the first empty one, stripped; no cut when none is left *)
Definition as_loaded (ct : cut_config) : option cut :=
  match map strip (take_while truthy (firstn 15 (cfg_categories ct))) with
  | [] => None
  | c :: cs => Some (mk_cut (Some (cfg_index ct)) (cfg_raw_col_index ct) (c :: cs))
  end.

(** The cut of a configuration entry, with its categories stripped *)
Definition to_cut (ct : cut_config) : cut :=
  mk_cut (Some (cfg_index ct)) (cfg_raw_col_index ct) (map strip (cfg_categories ct)).

(** The entry written in a row *)
Definition entry_of_row (cuts_config : list cut_config) (row : nat) : option cut_config :=
  List.find (fun ct => cfg_index ct =? row) cuts_config.

Fixpoint increasing (l : list nat) : Prop :=
  match l with
  | [] => True
  | x :: l' => List.Forall (lt x) l' /\ increasing l'
  end.

Lemma omap_pointwise {A B : Type} (f g : A -> option B) (l : list A) :
  (forall x, In x l -> f x = g x) -> omap f l = omap g l.
Proof.
  induction l as [|x l IH]; intros H; [reflexivity|].
  cbn [omap list_omap]. rewrite (H x) by now left.
  rewrite IH by (intros; apply H; now right). reflexivity.
Qed.

Lemma increasing_NoDup l : increasing l -> List.NoDup l.
Proof.
  induction l as [|x l IH]; intros H; constructor.
  - destruct H as [H _]. intros Hin.
    rewrite List.Forall_forall in H. specialize (H x Hin). lia.
  - apply IH. apply H.
Qed.

Section LoaderProps.

Variable int_of_text : string -> option nat.

(** Each row of the written template loads as the entry written there. *)
Lemma load_row_written cuts_config :
  List.NoDup (map cfg_index cuts_config) ->
  (forall ct, In ct cuts_config -> cfg_index ct <> 0) ->
  exists ws,
    create_cuts_template_from_config cuts_config = Some ws
    /\ forall row,
         load_row int_of_text ws row
         = match entry_of_row cuts_config row with
           | Some ct => as_loaded ct
           | None => None
           end.
Proof.
  intros Hnd Hpos.
  destruct (write_cuts_cell cuts_config ∅ Hnd Hpos) as (ws & Hws & Hcell).
  exists ws. split; [exact Hws|]. intros row.
  unfold load_row, entry_of_row. rewrite !Hcell.
  destruct (List.find _ cuts_config) as [ct|] eqn:Hfind.
  - cbn [row_cell is_blank int_of_value].
    unfold range. change (4 + 15 - 4) with 15.
    rewrite (read_categories_spec ws row 15 4 (cfg_categories ct)).
    + unfold as_loaded.
      destruct (map strip _) as [|c cs]; [reflexivity|].
      rewrite (label_index_written (cfg_index ct) " column =") by reflexivity.
      reflexivity.
    + intros j. rewrite Hcell, Hfind.
      change (4 + j) with (S (S (S (S j)))). cbn [row_cell].
      replace (S (S (S (S j))) - 4) with j by lia.
      destruct (cfg_categories ct !! j); cbn [option_map]; [reflexivity|].
      unfold cell. apply lookup_empty.
  - unfold cell at 1. rewrite lookup_empty. reflexivity.
Qed.

Lemma entry_of_row_absent cuts_config row :
  (forall ct, In ct cuts_config -> cfg_index ct <> row) ->
  entry_of_row cuts_config row = None.
Proof.
  intros H. unfold entry_of_row.
  destruct (List.find _ cuts_config) as [ct|] eqn:Hf; [|reflexivity].
  apply List.find_some in Hf. destruct Hf as [Hin Heq].
  apply Nat.eqb_eq in Heq. now apply H in Hin.
Qed.

Lemma rows_in_order (f : cut_config -> option cut) (g : cut_config -> cut) m :
  forall a cuts_config,
  increasing (map cfg_index cuts_config) ->
  (forall ct, In ct cuts_config -> a <= cfg_index ct < a + m) ->
  (forall ct, In ct cuts_config -> f ct = Some (g ct)) ->
  omap (fun row => match entry_of_row cuts_config row with
                   | Some ct => f ct
                   | None => None
                   end) (List.seq a m)
  = map g cuts_config.
Proof.
  induction m as [|m IH]; intros a cuts_config Hinc Hrange Hf.
  - destruct cuts_config as [|ct rest]; [reflexivity|].
    specialize (Hrange ct (or_introl eq_refl)). lia.
  - cbn [List.seq omap list_omap].
    destruct cuts_config as [|ct rest].
    + cbn [entry_of_row List.find]. apply (IH (S a) []); [exact I | intros ? [] | intros ? []].
    + cbn [map increasing] in Hinc. destruct Hinc as [Hlt Hinc].
      rewrite List.Forall_forall in Hlt.
      destruct (Nat.eq_dec (cfg_index ct) a) as [Ha|Ha].
      * unfold entry_of_row at 1. cbn [List.find]. rewrite Ha, Nat.eqb_refl.
        rewrite (Hf ct) by now left. cbn [map]. f_equal.
        rewrite <- (IH (S a) rest).
        -- apply omap_pointwise. intros row Hrow. apply in_seq in Hrow.
           unfold entry_of_row. cbn [List.find].
           destruct (Nat.eqb_spec (cfg_index ct) row); [lia | reflexivity].
        -- exact Hinc.
        -- intros ct' Hin. specialize (Hrange ct' (or_intror Hin)).
           specialize (Hlt (cfg_index ct') (in_map cfg_index _ _ Hin)). lia.
        -- intros ct' Hin. apply Hf. now right.
      * rewrite entry_of_row_absent.
        -- apply (IH (S a) (ct :: rest)).
           ++ cbn [map increasing]. split; [now apply List.Forall_forall | exact Hinc].
           ++ intros ct' [<-|Hin].
              ** specialize (Hrange ct (or_introl eq_refl)). lia.
              ** pose proof (Hrange ct (or_introl eq_refl)) as Hct.
                 specialize (Hrange ct' (or_intror Hin)).
                 specialize (Hlt (cfg_index ct') (in_map cfg_index _ _ Hin)). lia.
           ++ exact Hf.
        -- intros ct' [<-|Hin]; [exact Ha|].
           specialize (Hlt (cfg_index ct') (in_map cfg_index _ _ Hin)).
           specialize (Hrange ct (or_introl eq_refl)). lia.
Qed.

Lemma take_while_all {A : Type} (p : A -> bool) (l : list A) :
  List.Forall (fun x => p x = true) l -> take_while p l = l.
Proof.
  induction 1 as [|x l Hx _ IH]; [reflexivity|].
  cbn [take_while]. now rewrite Hx, IH.
Qed.

(** X9: a configuration whose cuts are numbered upwards within 1 to 8, each
    with 1 to 15 storable, non-empty categories, comes back from the template
    as it was written: the same cuts in the same order, with their index and
    raw column, and with the categories stripped. *)
Theorem cuts_template_round_trip (cuts_config : list cut_config) :
  increasing (map cfg_index cuts_config) ->
  (forall ct, In ct cuts_config ->
     1 <= cfg_index ct <= 8
     /\ cfg_categories ct <> []
     /\ length (cfg_categories ct) <= 15
     /\ List.Forall (fun c => storable c = true /\ c <> "") (cfg_categories ct)) ->
  exists ws,
    create_cuts_template_from_config cuts_config = Some ws
    /\ load_cuts_from_template int_of_text ws = map to_cut cuts_config.
Proof.
  intros Hinc Hok.
  destruct (load_row_written cuts_config) as (ws & Hws & Hrow).
  - now apply increasing_NoDup.
  - intros ct Hin. destruct (Hok ct Hin) as (H & _). lia.
  - exists ws. split; [exact Hws|]. unfold load_cuts_from_template.
    rewrite (omap_pointwise _ _ _ (fun row _ => Hrow row)).
    unfold range. change (9 - 1) with 8.
    apply (rows_in_order as_loaded to_cut 8 1 cuts_config Hinc).
    + intros ct Hin. destruct (Hok ct Hin) as (H & _). lia.
    + intros ct Hin. destruct (Hok ct Hin) as (_ & Hne & Hlen & Hcats).
      unfold as_loaded, to_cut.
      rewrite firstn_all2 by exact Hlen.
      rewrite take_while_all.
      * destruct (cfg_categories ct) as [|c cs]; [congruence | reflexivity].
      * eapply List.Forall_impl; [|exact Hcats].
        intros c [_ Hc]. now apply truthy_spec.
Qed.

(** X10: whatever the order and the size of the configuration, as long as
    its indices are distinct and positive and its categories storable, the
    loader returns the cuts written in rows 1 to 8, in row order: a cut with
    an index above 8 is lost, a cut keeps at most its first 15 categories and
    only those before its first empty category, and a cut that keeps none is
    lost. *)
Theorem loaded_cuts_are_rows_1_to_8 (cuts_config : list cut_config) :
  List.NoDup (map cfg_index cuts_config) ->
  (forall ct, In ct cuts_config ->
     cfg_index ct <> 0
     /\ List.Forall (fun c => storable c = true) (cfg_categories ct)) ->
  exists ws,
    create_cuts_template_from_config cuts_config = Some ws
    /\ load_cuts_from_template int_of_text ws
       = omap (fun row => match entry_of_row cuts_config row with
                          | Some ct => as_loaded ct
                          | None => None
                          end) [1; 2; 3; 4; 5; 6; 7; 8].
Proof.
  intros Hnd Hok.
  destruct (load_row_written cuts_config Hnd) as (ws & Hws & Hrow).
  - intros ct Hin. now destruct (Hok ct Hin).
  - exists ws. split; [exact Hws|]. unfold load_cuts_from_template.
    apply omap_pointwise. intros row _. apply Hrow.
Qed.

End LoaderProps.

Definition sample_config : list cut_config :=
  [ mk_cut_config 1 5 ["Male"; "Female "]; mk_cut_config 3 8 ["18-24"; "25-34"; "35+"] ].

Lemma cuts_template_round_trip_witness :
  exists ws,
    create_cuts_template_from_config sample_config = Some ws
    /\ load_cuts_from_template (fun _ => None) ws
       = [ mk_cut (Some 1) 5 ["Male"; "Female"];
           mk_cut (Some 3) 8 ["18-24"; "25-34"; "35+"] ].
Proof.
  apply (cuts_template_round_trip (fun _ => None) sample_config).
  - simpl. repeat constructor.
  - intros ct [<-|[<-|[]]]; simpl;
      (split; [lia|]); (split; [discriminate|]); (split; [lia|]);
      repeat constructor; discriminate.
Defined.

Definition oversized_config : list cut_config :=
  [ mk_cut_config 9 4 ["North"; "South"];
    mk_cut_config 2 7 ["Yes"; ""; "No"];
    mk_cut_config 1 5 [""; "Other"] ].

Lemma loaded_cuts_are_rows_1_to_8_witness :
  exists ws,
    create_cuts_template_from_config oversized_config = Some ws
    /\ load_cuts_from_template (fun _ => None) ws = [ mk_cut (Some 2) 7 ["Yes"] ].
Proof.
  apply (loaded_cuts_are_rows_1_to_8 (fun _ => None) oversized_config).
  - simpl. repeat constructor; simpl; intuition lia.
  - intros ct [<-|[<-|[<-|[]]]]; simpl; (split; [lia|]); repeat constructor.
Defined.

End TemplateProps.

(* ===================================================================== *)
(** * Properties of the bipolar processor *)
(* ===================================================================== *)

Module BipolarProps.
Import PyStr PyStrFacts Pandas Tabulation Bipolar.

Lemma filter_length_le {A : Type} (p : A -> bool) (l : list A) :
  length (List.filter p l) <= length l.
Proof. induction l as [|x l IH]; simpl; [lia|]. destruct (p x); simpl; lia. Qed.

Lemma filter_disjoint_le {A : Type} (p q : A -> bool) (l : list A) :
  (forall x, In x l -> p x = true -> q x = false) ->
  length (List.filter p l) + length (List.filter q l) <= length l.
Proof.
  induction l as [|x l IH]; intros H; simpl; [lia|].
  assert (IH' := IH (fun y Hy => H y (or_intror Hy))).
  destruct (p x) eqn:Hp.
  - rewrite (H x (or_introl eq_refl) Hp). simpl. lia.
  - destruct (q x); simpl; lia.
Qed.

Lemma filter_none {A : Type} (p : A -> bool) (l : list A) :
  (forall x, In x l -> p x = false) -> List.filter p l = [].
Proof.
  induction l as [|x l IH]; intros H; simpl; [reflexivity|].
  rewrite (H x (or_introl eq_refl)). apply IH. intros; apply H; now right.
Qed.

Lemma omap_id_length {A : Type} (l : list (option A)) :
  length (omap id l) <= length l.
Proof.
  induction l as [|[x|] l IH]; cbn [omap list_omap id length] in *; lia.
Qed.

Lemma equals_spec pole v : equals pole v = true -> v = Text pole.
Proof.
  destruct v as [s|s]; simpl; [|discriminate].
  intros H. apply String.eqb_eq in H. now subst.
Qed.

(** The values of a dict built by [dict_put] *)
Lemma dict_put_values k v d kv :
  In kv (dict_put k v d) -> snd kv = v \/ In kv d.
Proof.
  induction d as [|[k' v'] d IH]; simpl.
  - intros [<-|[]]. now left.
  - destruct (String.eqb k' k); simpl.
    + intros [<-|H]; [now left | right; now right].
    + intros [<-|H]; [right; now left|].
      destruct (IH H) as [|]; [now left | right; now right].
Qed.

Lemma dict_get_in k d v : dict_get k d = Some v -> In (k, v) d.
Proof.
  induction d as [|[k' v'] d IH]; simpl; [discriminate|].
  destruct (String.eqb_spec k' k) as [->|_].
  - intros H. injection H as ->. now left.
  - intros H. right. now apply IH.
Qed.

Lemma dim_to_col_values sub_headers all_col_idxs kv :
  In kv (dim_to_col sub_headers all_col_idxs) ->
  In (snd kv) all_col_idxs /\ snd kv < length sub_headers.
Proof.
  unfold dim_to_col.
  assert (H : forall l d,
             (forall kv, In kv d -> In (snd kv) all_col_idxs /\ snd kv < length sub_headers) ->
             (forall c, In c l -> In c all_col_idxs) ->
             In kv (fold_left
                      (fun d col_idx =>
                         if length sub_headers <=? col_idx then d
                         else match iloc sub_headers col_idx with
                              | None => d
                              | Some sub_hdr =>
                                  dict_put (dimension_of (strip sub_hdr)) col_idx d
                              end) l d) ->
             In (snd kv) all_col_idxs /\ snd kv < length sub_headers).
  { induction l as [|c l IH]; intros d Hd Hl; cbn [fold_left]; [apply Hd|].
    apply IH; [|intros; apply Hl; now right].
    intros kv' Hin.
    destruct (Nat.leb_spec (length sub_headers) c) as [Hge|Hlt]; [now apply Hd|].
    destruct (iloc sub_headers c); [|now apply Hd].
    apply dict_put_values in Hin. destruct Hin as [->|Hin]; [|now apply Hd].
    split; [apply Hl; now left | assumption]. }
  apply H; [intros ? [] | auto].
Qed.

Lemma find_col_in d opt c : find_col d opt = Some c -> exists k, In (k, c) d.
Proof.
  unfold find_col. destruct (dict_get opt d) as [c'|] eqn:Hget.
  - intros H. injection H as <-. exists opt. now apply dict_get_in.
  - destruct (List.find _ d) as [[k v]|] eqn:Hf; [|discriminate].
    intros H. injection H as <-. exists k.
    now apply List.find_some in Hf.
Qed.

(** A row of the result is consistent with the respondent table. *)
Definition entry_ok (n_rows n_cols : nat) (all_col_idxs : list nat) (r : bipolar_entry)
    : Prop :=
  b_count_p1 r <= b_n r
  /\ b_count_p2 r <= b_n r
  /\ b_n r <= n_rows
  /\ (b_pole_1 r <> b_pole_2 r -> b_count_p1 r + b_count_p2 r <= b_n r)
  /\ (strip (b_pole_1 r) = "" -> b_count_p1 r = 0)
  /\ (strip (b_pole_2 r) = "" -> b_count_p2 r = 0)
  /\ match b_col_idx r with
     | Some c => In c all_col_idxs /\ c < n_cols
     | None => b_n r = 0 /\ b_count_p1 r = 0 /\ b_count_p2 r = 0
     end.

Lemma bipolar_entry_ok df sub_headers all_col_idxs opt poles :
  entry_ok (length df) (length sub_headers) all_col_idxs
    (bipolar_entry_of df (dim_to_col sub_headers all_col_idxs) opt poles).
Proof.
  unfold bipolar_entry_of, entry_ok.
  destruct (find_col _ opt) as [c|] eqn:Hc;
    cbn [b_count_p1 b_count_p2 b_n b_pole_1 b_pole_2 b_col_idx].
  - set (col_data := List.filter _ (omap id (column df c))).
    assert (Hpresent : forall v, In v col_data -> truthy (strip (raw_str v)) = true).
    { intros v Hv. unfold col_data in Hv. now apply filter_In in Hv. }
    assert (Hblank : forall pole, strip pole = "" ->
              length (List.filter (equals pole) col_data) = 0).
    { intros pole Hp. rewrite filter_none; [reflexivity|].
      intros v Hv. destruct (equals pole v) eqn:He; [|reflexivity].
      apply equals_spec in He. subst v. specialize (Hpresent _ Hv).
      simpl in Hpresent. rewrite Hp in Hpresent. discriminate. }
    split; [apply filter_length_le|]. split; [apply filter_length_le|].
    split.
    { unfold col_data. etransitivity; [apply filter_length_le|].
      etransitivity; [apply omap_id_length|]. unfold column. now rewrite length_map. }
    split.
    { intros Hne. apply filter_disjoint_le. intros v _ H1.
      apply equals_spec in H1. subst v. simpl.
      destruct (String.eqb_spec (fst poles) (snd poles)); [contradiction | reflexivity]. }
    split; [apply Hblank|]. split; [apply Hblank|].
    apply find_col_in in Hc. destruct Hc as (k & Hin).
    apply (dim_to_col_values sub_headers all_col_idxs (k, c)) in Hin. exact Hin.
  - repeat split; auto; lia.
Qed.

(** X11: [process_bipolar] returns one row per pair of the zip of the
    options with the pole pairs, in order, and the number of respondents as
    base.  In every row each pole count is at most n, n is at most the base,
    the two counts together are at most n when the poles differ, and an empty
    pole is never counted.  The column of a row is one of the question's
    columns within the table; a dimension without column has n and both
    counts equal to 0. *)
Theorem bipolar_counts_consistent
    (df : list (list (option raw_value))) (sub_headers : list pdcell)
    (q : question_info) (options : list string) (pole_pairs : list (string * string)) :
  let res := process_bipolar df sub_headers q options pole_pairs in
  map (fun r => (b_option r, (b_pole_1 r, b_pole_2 r))) (b_rows res)
  = combine options pole_pairs
  /\ b_base res = length df
  /\ List.Forall (entry_ok (length df) (length sub_headers)
                    (main_col_idx q :: unnamed_cols q)) (b_rows res).
Proof.
  cbn zeta. unfold process_bipolar. cbn [b_rows b_base].
  split; [|split; [reflexivity|]].
  - rewrite map_map. induction (combine options pole_pairs) as [|[o [p1 p2]] l IH];
      [reflexivity|].
    cbn [map]. rewrite IH. f_equal.
    unfold bipolar_entry_of. cbn [fst snd]. now destruct (find_col _ o).
  - apply List.Forall_forall. intros r Hr. apply in_map_iff in Hr.
    destruct Hr as ([o p] & <- & _). apply bipolar_entry_ok.
Qed.

End BipolarProps.

(* ===================================================================== *)
(** * Properties of the API layer *)
(* ===================================================================== *)

Module ApiProps.
Import PyStr PyStrFacts Pandas Cleaning Api.

(** The type submitted last for a question text, if any *)
Definition last_submitted (question_types : list (string * string)) (t : string)
    : option string :=
  option_map snd (List.find (fun item => String.eqb (fst item) t) (rev question_types)).

(** A dict comprehension keeps the last value of a repeated key. *)
Lemma types_of_items_lookup question_types t :
  types_of_items question_types !! t = last_submitted question_types t.
Proof.
  unfold types_of_items, last_submitted.
  induction question_types as [|item items IH] using rev_ind; [apply lookup_empty|].
  rewrite fold_left_app, rev_app_distr. cbn [fold_left rev app List.find].
  destruct (String.eqb_spec (fst item) t) as [->|Hne].
  - now rewrite lookup_insert_eq.
  - rewrite lookup_insert_ne by assumption. exact IH.
Qed.

Lemma bump_sum t counts :
  list_sum (map snd (bump t counts)) = S (list_sum (map snd counts)).
Proof.
  induction counts as [|[t' n] counts IH]; cbn [bump]; [reflexivity|].
  destruct (String.eqb t' t); simpl in *; lia.
Qed.

Lemma counts_sum {A : Type} (f : A -> string) (l : list A) : forall counts,
  list_sum (map snd (fold_left (fun counts q => bump (f q) counts) l counts))
  = length l + list_sum (map snd counts).
Proof.
  induction l as [|x l IH]; intros counts; cbn [fold_left length]; [reflexivity|].
  rewrite IH, bump_sum. lia.
Qed.

Lemma filter_nil_all {A : Type} (p : A -> bool) (l : list A) :
  List.filter p l = [] -> forall x, In x l -> p x = false.
Proof.
  induction l as [|y l IH]; intros H x Hx; [destruct Hx|].
  cbn [List.filter] in H. destruct (p y) eqn:Hy; [discriminate|].
  destruct Hx as [<-|Hx]; [assumption | now apply IH].
Qed.

(** The session an endpoint addresses, the user who asks, and whether the
    request is an upload *)
Definition req_session (req : request) : string :=
  match req with
  | Upload session_id _ _ _ => session_id
  | Confirm session_id _ _ => session_id
  | Generate session_id _ => session_id
  | Cleanup session_id _ => session_id
  end.

Definition req_user (req : request) : string :=
  match req with
  | Upload _ user _ _ => user
  | Confirm _ user _ => user
  | Generate _ user => user
  | Cleanup _ user => user
  end.

Definition is_upload (req : request) : bool :=
  match req with
  | Upload _ _ _ _ => true
  | _ => false
  end.

Section EndpointProps.

Variable parse_float : string -> option float_kind.

(** X12: when [confirm_types] accepts a submission, the session belongs to
    the caller, the type summary counts every question once, and the types
    that a following [generate_databook] writes are, question by question,
    the type submitted last for the question text, or the detected type when
    none was submitted; none of them is empty, so the default type Single is
    never used. *)
Theorem confirmed_types_reach_the_pipeline
    (st st' : sessions) (session_id user : string)
    (question_types : list (string * string)) (total : nat)
    (type_summary : list (string * nat)) :
  confirm_types st session_id user question_types
  = (Confirmed total type_summary, st') ->
  exists session,
    st !! session_id = Some session
    /\ user_id session = user
    /\ total = length (questions session)
    /\ list_sum (map snd type_summary) = total
    /\ generate_databook st' session_id user
       = (Pipeline (map (fun q => default (snd q)
                                    (last_submitted question_types (q_text (fst q))))
                        (questions session)), st')
    /\ List.Forall (fun q => default (snd q)
                               (last_submitted question_types (q_text (fst q))) <> "")
                   (questions session).
Proof.
  unfold confirm_types.
  destruct (st !! session_id) as [session|] eqn:Hs; [|discriminate].
  destruct (String.eqb_spec (user_id session) user) as [Hu|Hu]; cbn [negb];
    [|discriminate].
  destruct (List.filter _ (questions session)) as [|m ms] eqn:Hmissing; [|discriminate].
  intros H. injection H as <- <- <-.
  assert (Hall : forall q, In q (questions session) ->
            submitted_or_auto (types_of_items question_types) q <> ""
            /\ resolved_type (types_of_items question_types) q
               = default (snd q) (last_submitted question_types (q_text (fst q)))).
  { intros q Hq. pose proof (filter_nil_all _ _ Hmissing q Hq) as Ht.
    apply negb_false_iff in Ht. apply truthy_spec in Ht.
    split; [exact Ht|].
    unfold resolved_type, submitted_or_auto in *.
    rewrite types_of_items_lookup in *.
    destruct (last_submitted question_types (q_text (fst q))); [reflexivity|].
    cbn [default] in *. apply truthy_spec in Ht. now rewrite Ht. }
  exists session. split; [reflexivity|]. split; [exact Hu|]. split; [reflexivity|].
  split; [rewrite counts_sum; simpl; lia|]. split.
  - unfold generate_databook. rewrite lookup_insert_eq. cbn [user_id questions
      confirmed_types]. rewrite Hu, String.eqb_refl. cbn [negb]. f_equal. f_equal.
    apply map_ext_in. intros q Hq. now apply Hall.
  - apply List.Forall_forall. intros q Hq. destruct (Hall q Hq) as [Hne _].
    unfold submitted_or_auto in Hne. now rewrite types_of_items_lookup in Hne.
Qed.

Lemma handle_other_session st req session_id session :
  st !! session_id = Some session ->
  (req_session req = session_id ->
   req_user req <> user_id session /\ is_upload req = false) ->
  snd (handle parse_float st req) !! session_id = Some session
  /\ (req_session req = session_id ->
      fst (handle parse_float st req) = HTTPException 403).
Proof.
  intros Hs Hreq.
  assert (Hne : forall user, user <> user_id session ->
            negb (String.eqb (user_id session) user) = true).
  { intros user Hu. destruct (String.eqb_spec (user_id session) user); [congruence|].
    reflexivity. }
  destruct req as [s user df cols|s user items|s user|s user];
    cbn [handle req_session req_user is_upload] in *.
  - assert (Hs' : s <> session_id) by (intros E; destruct (Hreq E); discriminate).
    split; [|contradiction]. unfold upload_files.
    destruct (_parse_questions_from_file parse_float df); [|exact Hs].
    destruct cols; [|exact Hs]. cbn [snd]. now rewrite lookup_insert_ne.
  - unfold confirm_types. destruct (decide (s = session_id)) as [->|Hs'].
    + destruct (Hreq eq_refl) as [Hu _]. rewrite Hs, (Hne user Hu). auto.
    + split; [|contradiction].
      destruct (st !! s) as [other|]; [|exact Hs].
      destruct (negb _); [exact Hs|].
      destruct (List.filter _ _); [|exact Hs].
      cbn [snd]. now rewrite lookup_insert_ne.
  - unfold generate_databook. destruct (decide (s = session_id)) as [->|Hs'].
    + destruct (Hreq eq_refl) as [Hu _]. rewrite Hs, (Hne user Hu). auto.
    + split; [|contradiction].
      destruct (st !! s) as [other|]; [|exact Hs]. now destruct (negb _).
  - unfold cleanup_session. destruct (decide (s = session_id)) as [->|Hs'].
    + destruct (Hreq eq_refl) as [Hu _]. rewrite Hs, (Hne user Hu). auto.
    + split; [|contradiction].
      destruct (st !! s) as [other|]; [|exact Hs].
      destruct (negb _); [exact Hs|]. cbn [snd]. now rewrite lookup_delete_ne.
Qed.

(** X13: a session is out of reach of the other users.  Whatever requests
    are served, if none of those that name the session comes from its owner,
    and no upload draws its identifier again, the session is left as it was:
    same owner, same questions, same confirmed types; and each of these
    requests is answered with status 403. *)
Theorem sessions_are_isolated (reqs : list request) :
  forall (st : sessions) (session_id : string) (session : session),
  st !! session_id = Some session ->
  (forall req, In req reqs -> req_session req = session_id ->
     req_user req <> user_id session /\ is_upload req = false) ->
  snd (serve parse_float st reqs) !! session_id = Some session
  /\ Forall2 (fun req resp => req_session req = session_id -> resp = HTTPException 403)
             reqs (fst (serve parse_float st reqs)).
Proof.
  induction reqs as [|req reqs IH]; intros st session_id session Hs Hreqs.
  - split; [exact Hs | constructor].
  - cbn [serve].
    destruct (handle_other_session st req session_id session Hs) as [Hs1 Hresp].
    { apply Hreqs. now left. }
    destruct (handle parse_float st req) as [resp st1]. cbn [fst snd] in *.
    destruct (IH st1 session_id session Hs1) as [Hs2 Hresps].
    { intros. apply Hreqs; [now right | assumption]. }
    destruct (serve parse_float st1 reqs) as [resps st2]. cbn [fst snd] in *.
    split; [exact Hs2|]. constructor; assumption.
Qed.

End EndpointProps.

Definition alice_session : session :=
  mk_session "alice"
    [ (mk_question "Q1. Pick one brand" ["A"; "B"] [] false, "Single");
      (mk_question "Q2. Your thoughts" ["x"; "y"] [] false, "") ] ∅.

Definition one_session : sessions := {[ "s1" := alice_session ]}.

Lemma confirmed_types_reach_the_pipeline_witness :
  fst (generate_databook
         (snd (confirm_types one_session "s1" "alice" [("Q2. Your thoughts", "Multiple")]))
         "s1" "alice")
  = Pipeline ["Single"; "Multiple"].
Proof.
  destruct (confirmed_types_reach_the_pipeline one_session
              (snd (confirm_types one_session "s1" "alice"
                      [("Q2. Your thoughts", "Multiple")]))
              "s1" "alice" [("Q2. Your thoughts", "Multiple")]
              2 [("Single", 1); ("Multiple", 1)])
    as (session & Hs & _ & _ & _ & Hg & _).
  - vm_compute. reflexivity.
  - rewrite Hg. vm_compute in Hs. injection Hs as <-. reflexivity.
Defined.

Lemma sessions_are_isolated_witness :
  snd (serve (fun _ => None) one_session
         [ Confirm "s1" "mallory" [("Q2. Your thoughts", "Single")];
           Cleanup "s1" "mallory";
           Upload "s2" "bob" [] (Some []);
           Generate "s1" "bob" ]) !! "s1"
  = Some alice_session.
Proof.
  apply (sessions_are_isolated (fun _ => None)).
  - reflexivity.
  - intros req [<-|[<-|[<-|[<-|[]]]]]; cbn [req_session req_user is_upload];
      intros E; try discriminate E; split; (reflexivity || discriminate).
Defined.

End ApiProps.

(* ===================================================================== *)
(** * Merging the columns of a question and splitting the merged cell *)
(* ===================================================================== *)

Module SplitProps.
Import PyStr PyStrFacts Re ReFacts Pandas Tabulation TabulationProps.

Definition not_comma (a : ascii) : bool := negb (Ascii.eqb a ",").

(** A text without comma whose first parenthesis, if any, is an opening one *)
Definition plain (v : string) : Prop :=
  sall not_comma v = true /\ next_paren_closes v = false.

(** A token: stripped, not empty, and plain *)
Definition token_ok (t : string) : Prop :=
  strip t = t /\ t <> "" /\ plain t.

(** The pattern matches at a comma only. *)
Lemma run_split_other c a s :
  not_comma a = true -> run SPLIT_RE c (String a s) = [].
Proof.
  unfold not_comma. intros H. apply negb_true_iff in H.
  unfold SPLIT_RE. cbn [rseq run lit].
  rewrite Ascii.eqb_sym, H. reflexivity.
Qed.

Lemma search_skips t : forall before s,
  sall not_comma t = true ->
  search_from SPLIT_RE before (t +:+ s) = search_from SPLIT_RE (srev t +:+ before) s.
Proof.
  induction t as [|a t IH]; intros before s Ht; sapp; [reflexivity|].
  simpl in Ht. apply andb_true_iff in Ht. destruct Ht as [Ha Ht].
  cbn [search_from]. rewrite (run_split_other [] a (t +:+ s) Ha). cbn [head].
  rewrite (IH (String a before) s Ht), srev_cons, sapp_assoc. reflexivity.
Qed.

Lemma search_finds_nothing t : forall before,
  sall not_comma t = true -> search_from SPLIT_RE before t = None.
Proof.
  induction t as [|a t IH]; intros before Ht; cbn [search_from].
  - reflexivity.
  - simpl in Ht. apply andb_true_iff in Ht. destruct Ht as [Ha Ht].
    rewrite (run_split_other [] a t Ha). cbn [head]. now apply IH.
Qed.

Lemma no_closing_ahead c rest :
  next_paren_closes rest = false ->
  run (Seq (Star (none_of "()")) (Chr (lit ")"))) c rest = [].
Proof.
  intros Hc. destruct (run _ c rest) as [|x l] eqn:Hrun; [reflexivity|].
  exfalso.
  assert (Hne : run (Seq (Star (none_of "()")) (Chr (lit ")"))) c rest <> [])
    by (rewrite Hrun; discriminate).
  apply run_nonempty in Hne. destruct Hne as (x' & mid & (w & -> & Hw) & a & -> & Ha).
  apply Ascii.eqb_eq in Ha. subst a.
  assert (next_paren_closes (w +:+ String ")" x') = true)
    by (apply next_paren_closes_spec; eauto).
  congruence.
Qed.

Lemma run_seq_first r1 r2 c s c1 s1 l y l' :
  run r1 c s = (c1, s1) :: l ->
  run r2 c1 s1 = y :: l' ->
  exists l'', run (Seq r1 r2) c s = y :: l''.
Proof.
  intros H1 H2. cbn [run]. rewrite H1. cbn [flat_map fst snd]. rewrite H2.
  eexists. reflexivity.
Qed.

(** After a comma and a blank, the pattern stops before a text that begins
    with another character and has no closing parenthesis ahead. *)
Lemma run_split_comma b rest :
  py_isspace b = false ->
  next_paren_closes (String b rest) = false ->
  head (run SPLIT_RE [] (String "," (String " " (String b rest))))
  = Some ([], String b rest).
Proof.
  intros Hb Hc.
  assert (H1 : run (rseq [NotAhead (Seq (Star (none_of "()")) (Chr (lit ")")))]) []
                   (String b rest) = [([], String b rest)]).
  { pose proof (no_closing_ahead [] (String b rest) Hc) as Hno.
    remember (Seq (Star (none_of "()")) (Chr (lit ")"))) as ahead.
    cbn [rseq run]. rewrite Hno. reflexivity. }
  assert (H2 : exists l, run (Star py_isspace) [] (String " " (String b rest))
                         = ([], String b rest) :: l).
  { cbn [run star_rests]. change (py_isspace " ") with true. cbn iota. rewrite Hb.
    eexists. reflexivity. }
  destruct H2 as (l2 & H2).
  destruct (run_seq_first _ _ _ _ _ _ _ _ _ H2 H1) as (l3 & H3).
  assert (H0 : run (Chr (lit ",")) [] (String "," (String " " (String b rest)))
               = [([], String " " (String b rest))]) by reflexivity.
  destruct (run_seq_first _ _ _ _ _ _ _ _ _ H0 H3) as (l4 & H4).
  unfold SPLIT_RE. cbn [rseq] in *. rewrite H4. reflexivity.
Qed.

Lemma next_paren_closes_app t u :
  next_paren_closes t = false -> next_paren_closes u = false ->
  next_paren_closes (t +:+ u) = false.
Proof.
  induction t as [|a t IH]; sapp; [auto|]. simpl.
  destruct (Ascii.eqb a ")"); [discriminate|].
  destruct (Ascii.eqb a "("); auto.
Qed.

Lemma join_cons sep t u us :
  join sep (t :: u :: us) = t +:+ sep +:+ join sep (u :: us).
Proof. reflexivity. Qed.

Lemma join_plain tokens :
  List.Forall token_ok tokens -> next_paren_closes (join ", " tokens) = false.
Proof.
  induction 1 as [|t ts (_ & _ & _ & Ht) Hts IH]; [reflexivity|].
  destruct ts as [|u us]; [exact Ht|].
  rewrite join_cons. apply next_paren_closes_app; [exact Ht|].
  apply (next_paren_closes_app ", "); [reflexivity | exact IH].
Qed.

Lemma token_lead t :
  token_ok t -> exists b rest, t = String b rest /\ py_isspace b = false.
Proof.
  intros (Hs & Hne & _). destruct t as [|b rest]; [congruence|].
  exists b, rest. split; [reflexivity|].
  destruct (strip_trimmed (String b rest)) as [Hl _]. rewrite Hs in Hl.
  simpl in Hl. now apply negb_true_iff in Hl.
Qed.

Lemma split_fuel_join tokens : forall fuel,
  List.Forall token_ok tokens -> tokens <> [] -> length tokens <= S fuel ->
  split_fuel fuel SPLIT_RE (join ", " tokens) = tokens.
Proof.
  induction tokens as [|t ts IH]; intros fuel Hok Hne Hlen; [congruence|].
  apply List.Forall_cons_iff in Hok. destruct Hok as [Ht Hts].
  destruct ts as [|u us].
  - change (join ", " [t]) with t.
    destruct fuel as [|fuel]; [reflexivity|]. cbn [split_fuel]. unfold re_search.
    rewrite search_finds_nothing; [reflexivity|]. apply Ht.
  - destruct fuel as [|fuel]; [simpl in Hlen; lia|].
    rewrite join_cons. cbn [split_fuel]. unfold re_search.
    rewrite search_skips by apply Ht.
    pose proof (join_plain (u :: us) Hts) as Hc.
    assert (Hu : token_ok u) by (now apply List.Forall_cons_iff in Hts).
    destruct (token_lead u Hu) as (b & rest & Hb & Hsp).
    assert (Hj : exists rest', join ", " (u :: us) = String b rest').
    { destruct us as [|v vs]; [exists rest; exact Hb|].
      rewrite join_cons, Hb. sapp. eauto. }
    destruct Hj as (rest' & Hj). rewrite Hj in Hc |- *.
    change (", " +:+ String b rest') with (String "," (String " " (String b rest'))).
    cbn [search_from]. rewrite (run_split_comma b rest' Hsp Hc).
    rewrite sapp_nil_r, srev_involutive, <- Hj. f_equal.
    apply IH; [assumption | discriminate | simpl in *; lia].
Qed.

Lemma join_length tokens :
  List.Forall token_ok tokens -> length tokens <= String.length (join ", " tokens).
Proof.
  induction 1 as [|t ts (_ & Hne & _) Hts IH]; [simpl; lia|].
  destruct ts as [|u us].
  - change (join ", " [t]) with t. destruct t; [congruence | simpl; lia].
  - rewrite join_cons, !slength_app. change (String.length ", ") with 2.
    cbn [length] in *. lia.
Qed.

(** Splitting undoes joining. *)
Lemma split_join tokens :
  List.Forall token_ok tokens ->
  split_multi_select_options (join ", " tokens) = tokens.
Proof.
  intros Hok. unfold split_multi_select_options, re_split.
  destruct tokens as [|t ts]; [reflexivity|].
  rewrite split_fuel_join; [|assumption|discriminate|].
  - induction Hok as [|x xs (Hs & Hne & _) _ IH]; [reflexivity|].
    cbn [map List.filter]. rewrite Hs.
    apply truthy_spec in Hne. rewrite Hne. now rewrite IH.
  - pose proof (join_length (t :: ts) Hok). lia.
Qed.

(** ** The merged cell of a row *)

(** The stripped, non-empty values of the columns of a question in a row *)
Definition row_values (q : question_info) (row : list pdcell) : list string :=
  omap (fun idx => stripped_text (iloc row idx)) (main_col_idx q :: unnamed_cols q).

(** A row whose only value is one of the two placeholder texts *)
Definition is_placeholder (values : list string) : bool :=
  match values with
  | [v] => mem v ["Response"; "Open-Ended Response"]
  | _ => false
  end.

Lemma stripped_text_ok v t : stripped_text v = Some t -> strip t = t /\ t <> "".
Proof.
  unfold stripped_text. destruct v as [x|]; [|discriminate].
  destruct (truthy (strip x)) eqn:Ht; [|discriminate].
  intros H. injection H as <-. split; [apply strip_idempotent | now apply truthy_spec].
Qed.

Lemma row_values_ok q row :
  List.Forall (fun t => strip t = t /\ t <> "") (row_values q row).
Proof.
  unfold row_values. induction (main_col_idx q :: unnamed_cols q) as [|idx l IH];
    cbn [omap list_omap]; [constructor|].
  destruct (stripped_text (iloc row idx)) as [t|] eqn:Ht; [|exact IH].
  constructor; [now apply stripped_text_ok in Ht | exact IH].
Qed.

Lemma join_nonempty t ts : t <> "" -> join ", " (t :: ts) <> "".
Proof.
  intros Ht. destruct ts as [|u us]; [exact Ht|].
  rewrite join_cons. destruct t; [congruence | discriminate].
Qed.

Lemma strip_join tokens :
  List.Forall (fun t => strip t = t /\ t <> "") tokens ->
  strip (join ", " tokens) = join ", " tokens.
Proof.
  intros Hok. destruct tokens as [|t ts]; [reflexivity|].
  apply strip_fixed.
  - apply List.Forall_inv in Hok as Ht. destruct Ht as [Hs Hne].
    destruct (strip_trimmed t) as [Hl _]. rewrite Hs in Hl.
    destruct ts as [|u us]; [exact Hl|].
    rewrite join_cons, no_lead_app by assumption. exact Hl.
  - revert t Hok. induction ts as [|u us IH]; intros t Hok.
    + apply List.Forall_inv in Hok as [Hs _].
      destruct (strip_trimmed t) as [_ Ht]. now rewrite Hs in Ht.
    + apply List.Forall_cons_iff in Hok. destruct Hok as [_ Hok].
      apply List.Forall_inv in Hok as Hu. destruct Hu as [_ Hu].
      rewrite join_cons.
      rewrite no_trail_app by (destruct (join ", " (u :: us)); discriminate).
      rewrite no_trail_app by (now apply join_nonempty).
      now apply IH.
Qed.

Lemma joined_is_no_placeholder t u us :
  mem (join ", " (t :: u :: us)) ["Response"; "Open-Ended Response"] = false.
Proof.
  assert (Hc : sall not_comma (join ", " (t :: u :: us)) = false).
  { rewrite join_cons, !sall_app.
    change (sall not_comma ", ") with false. cbn [andb].
    now rewrite andb_false_r. }
  cbn [mem existsb].
  destruct (String.eqb_spec (join ", " (t :: u :: us)) "Response") as [E|_];
    [rewrite E in Hc; discriminate|].
  destruct (String.eqb_spec (join ", " (t :: u :: us)) "Open-Ended Response") as [E|_];
    [rewrite E in Hc; discriminate|].
  reflexivity.
Qed.

(** The tokens of a merged row are its cell values. *)
Lemma merged_row_tokens q row :
  List.Forall plain (row_values q row) ->
  match merge_row q row with
  | Some text =>
      (if countable_cell text then split_multi_select_options (strip text) else [])
      = if is_placeholder (row_values q row) then [] else row_values q row
  | None => row_values q row = []
  end.
Proof.
  intros Hplain. unfold merge_row. fold (row_values q row).
  pose proof (row_values_ok q row) as Hok.
  destruct (row_values q row) as [|t ts] eqn:Hvalues; [reflexivity|].
  assert (Htok : List.Forall token_ok (t :: ts)).
  { apply List.Forall_forall. intros x Hx.
    rewrite List.Forall_forall in Hok, Hplain.
    destruct (Hok x Hx). split; [assumption|]. split; [assumption|]. now apply Hplain. }
  unfold countable_cell. rewrite (strip_join (t :: ts) Hok).
  assert (Hne : truthy (join ", " (t :: ts)) = true).
  { apply truthy_spec, join_nonempty. now apply List.Forall_inv in Hok as [_ ?]. }
  rewrite Hne. cbn [andb].
  destruct ts as [|u us].
  - change (join ", " [t]) with t. cbn [is_placeholder].
    destruct (mem t _); cbn [negb]; [reflexivity|].
    apply (split_join [t] Htok).
  - rewrite joined_is_no_placeholder. cbn [negb is_placeholder].
    apply (split_join (t :: u :: us) Htok).
Qed.

(** X14: for a multi-select question spread over several columns, whose
    cells hold no comma and no closing parenthesis before an opening one, the
    tokens that [process_multi_select] counts on the merged column are, row
    by row and in column order, the stripped non-empty cell values; a row
    whose only value is a placeholder text contributes none.  Splitting a
    text that joins such tokens with a comma and a blank gives the tokens
    back. *)
Theorem multi_select_tokens_are_cell_values
    (df : list (list pdcell)) (q : question_info) :
  (forall row, In row df -> List.Forall plain (row_values q row)) ->
  all_options (merge_unnamed_columns df q)
  = flat_map (fun row => if is_placeholder (row_values q row) then []
                         else row_values q row) df
  /\ forall row, In row df ->
       split_multi_select_options (join ", " (row_values q row)) = row_values q row.
Proof.
  intros Hplain. split.
  - unfold all_options, merge_unnamed_columns, dropna.
    induction df as [|row df IH]; [reflexivity|].
    cbn [map omap list_omap flat_map].
    pose proof (merged_row_tokens q row (Hplain row (or_introl eq_refl))) as Hrow.
    destruct (merge_row q row) as [text|]; cbn [id].
    + cbn [flat_map]. rewrite Hrow. f_equal.
      apply IH. intros; apply Hplain; now right.
    + rewrite Hrow. cbn [is_placeholder app].
      apply IH. intros; apply Hplain; now right.
  - intros row Hrow. apply split_join.
    apply List.Forall_forall. intros x Hx.
    pose proof (row_values_ok q row) as Hok.
    specialize (Hplain row Hrow). rewrite List.Forall_forall in Hok, Hplain.
    destruct (Hok x Hx). split; [assumption|]. split; [assumption|]. now apply Hplain.
Qed.

Definition colour_table : list (list pdcell) :=
  [ [Some "Response"; None; None];
    [Some " Red "; None; Some "Blue (light)"];
    [None; Some "Green"; None];
    [None; None; None] ].

Lemma multi_select_tokens_are_cell_values_witness :
  all_options (merge_unnamed_columns colour_table (mk_question_info 0 [1; 2]))
  = ["Red"; "Blue (light)"; "Green"].
Proof.
  destruct (multi_select_tokens_are_cell_values colour_table (mk_question_info 0 [1; 2]))
    as [H _].
  - intros row [<-|[<-|[<-|[<-|[]]]]]; vm_compute; repeat constructor.
  - rewrite H. reflexivity.
Defined.

End SplitProps.

(* ===================================================================== *)
(** * Properties of the Output sheet *)
(* ===================================================================== *)

Module DatabookProps.
Import PyStr PyStrFacts Re ReFacts Tabulation Cuts CutsProps Letters Bipolar Blocks
       BlocksProps Databook.

(** ** Where the writers write *)

Ltac elsewhere := intros E; injection E; intros; subst; lia.

Lemma write_texts_cell texts : forall ws row k r c,
  cell (write_texts ws row k texts) r c
  = if (r =? row) && (k <=? c) && (c <? k + length texts)
    then option_map VStr (texts !! (c - k))
    else cell ws r c.
Proof.
  induction texts as [|t rest IH]; intros ws row k r c; cbn [write_texts].
  - destruct (r =? row), (Nat.leb_spec k c), (Nat.ltb_spec c (k + length (@nil string)));
      simpl in *; try reflexivity; lia.
  - rewrite IH. cbn [length].
    destruct (Nat.eqb_spec r row) as [->|Hr]; cbn [andb].
    + destruct (Nat.leb_spec (S k) c), (Nat.ltb_spec c (S k + length rest)),
        (Nat.leb_spec k c), (Nat.ltb_spec c (k + S (length rest)));
        cbn [andb]; try lia;
        first [ apply cell_with_ne; elsewhere
              | replace c with k by lia; rewrite Nat.sub_diag; apply cell_with_eq
              | replace (c - k) with (S (c - S k)) by lia; reflexivity ].
    + apply cell_with_ne. elsewhere.
Qed.

Lemma write_texts_other texts ws row k r c :
  r <> row -> cell (write_texts ws row k texts) r c = cell ws r c.
Proof.
  intros H. rewrite write_texts_cell.
  destruct (Nat.eqb_spec r row); [contradiction | reflexivity].
Qed.

Lemma write_texts_first t texts ws row :
  cell (write_texts ws row 1 (t :: texts)) row 1 = Some (VStr t).
Proof.
  rewrite write_texts_cell, Nat.eqb_refl. cbn [length].
  destruct (Nat.leb_spec 1 1); [|lia].
  destruct (Nat.ltb_spec 1 (1 + S (length texts))); [|lia]. reflexivity.
Qed.

(** *** Bipolar rows *)

Lemma write_bipolar_row_cell ws row brow r c :
  r <> row \/ c = 1 ->
  cell (write_bipolar_row ws row brow) r c
  = if (r =? row) && (c =? 1) then Some (VStr (b_option brow)) else cell ws r c.
Proof.
  intros H. unfold write_bipolar_row.
  destruct (Nat.eqb_spec r row) as [->|Hr]; cbn [andb].
  - destruct H as [H| ->]; [contradiction|]. cbn [Nat.eqb].
    destruct (b_col_idx brow);
      rewrite !cell_with_ne by elsewhere; apply cell_with_eq.
  - destruct (b_col_idx brow); rewrite !cell_with_ne by elsewhere; reflexivity.
Qed.

Lemma write_bipolar_rows_spec rows : forall ws row,
  snd (write_bipolar_rows ws row rows) = row + length rows
  /\ (forall r c, r < row \/ row + length rows <= r ->
        cell (fst (write_bipolar_rows ws row rows)) r c = cell ws r c)
  /\ (forall i brow, rows !! i = Some brow ->
        cell (fst (write_bipolar_rows ws row rows)) (row + i) 1
        = Some (VStr (b_option brow))).
Proof.
  induction rows as [|brow rest IH]; intros ws row; cbn [write_bipolar_rows length].
  - split; [cbn; lia|]. split; [reflexivity|]. intros i b H. discriminate H.
  - destruct (IH (write_bipolar_row ws row brow) (row + 1)) as (Hrow & Hframe & Hcells).
    split; [rewrite Hrow; lia|]. split.
    + intros r c Hr. rewrite Hframe by lia.
      rewrite write_bipolar_row_cell by (left; lia).
      destruct (Nat.eqb_spec r row); [lia | reflexivity].
    + intros [|i] b Hb.
      * injection Hb as <-. rewrite Nat.add_0_r, Hframe by lia.
        rewrite write_bipolar_row_cell by now right.
        now rewrite Nat.eqb_refl.
      * replace (row + S i) with (row + 1 + i) by lia. now apply Hcells.
Qed.

(** *** Matrix rows *)

Lemma write_ratings_frame rank_labels : forall ws row hr k cm multi attribute r c,
  r <> row \/ c < k ->
  cell (write_ratings ws row hr k cm multi attribute rank_labels) r c = cell ws r c.
Proof.
  induction rank_labels as [|l rest IH]; intros ws row hr k cm multi attribute r c H;
    cbn [write_ratings]; [reflexivity|].
  rewrite IH by lia. apply cell_with_ne. elsewhere.
Qed.

Lemma write_rating_pcts_frame ws row n_col_idx num_ranks r c :
  r <> row \/ c <= n_col_idx ->
  cell (write_rating_pcts ws row n_col_idx num_ranks) r c = cell ws r c.
Proof.
  intros H. unfold write_rating_pcts. apply fold_frame. intros y ws' _.
  apply cell_with_ne. elsewhere.
Qed.

Lemma write_matrix_row_cell ws row hr rank_labels cm multi attribute r c :
  r <> row \/ c = 1 ->
  cell (write_matrix_row ws row hr rank_labels cm multi attribute) r c
  = if (r =? row) && (c =? 1) then Some (VStr attribute) else cell ws r c.
Proof.
  intros H. unfold write_matrix_row.
  rewrite write_rating_pcts_frame by lia.
  rewrite cell_with_ne by elsewhere.
  rewrite write_ratings_frame by lia.
  destruct (Nat.eqb_spec r row) as [->|Hr]; cbn [andb].
  - destruct H as [H| ->]; [contradiction|]. apply cell_with_eq.
  - apply cell_with_ne. elsewhere.
Qed.

Lemma write_matrix_rows_spec attributes : forall ws row hr rank_labels cm multi,
  snd (write_matrix_rows ws row hr rank_labels cm multi attributes)
  = row + length attributes
  /\ (forall r c, r < row \/ row + length attributes <= r ->
        cell (fst (write_matrix_rows ws row hr rank_labels cm multi attributes)) r c
        = cell ws r c)
  /\ (forall i attribute, attributes !! i = Some attribute ->
        cell (fst (write_matrix_rows ws row hr rank_labels cm multi attributes))
             (row + i) 1
        = Some (VStr attribute)).
Proof.
  induction attributes as [|a rest IH]; intros ws row hr rank_labels cm multi;
    cbn [write_matrix_rows length].
  - split; [cbn; lia|]. split; [reflexivity|]. intros i b H. discriminate H.
  - destruct (IH (write_matrix_row ws row hr rank_labels cm multi a) (row + 1)
                 hr rank_labels cm multi) as (Hrow & Hframe & Hcells).
    split; [rewrite Hrow; lia|]. split.
    + intros r c Hr. rewrite Hframe by lia.
      rewrite write_matrix_row_cell by (left; lia).
      destruct (Nat.eqb_spec r row); [lia | reflexivity].
    + intros [|i] b Hb.
      * injection Hb as <-. rewrite Nat.add_0_r, Hframe by lia.
        rewrite write_matrix_row_cell by now right.
        now rewrite Nat.eqb_refl.
      * replace (row + S i) with (row + 1 + i) by lia. now apply Hcells.
Qed.

(** *** Single and multiple rows *)

Lemma write_items_spec item_options : forall ws q multiple all_cols row n_row_ref idx,
  (forall r c, r < row + idx \/ row + idx + length item_options <= r ->
     cell (write_items ws q multiple all_cols row n_row_ref idx item_options) r c
     = cell ws r c)
  /\ (forall i opt, item_options !! i = Some opt ->
        cell (write_items ws q multiple all_cols row n_row_ref idx item_options)
             (row + idx + i) 1
        = Some (VStr opt)
        /\ cell (write_items ws q multiple all_cols row n_row_ref idx item_options)
                (row + idx + i) 2
           = Some (VStr (count_formula q multiple all_cols (idx + i) (row + idx + i) opt))).
Proof.
  induction item_options as [|opt rest IH]; intros ws q multiple all_cols row n_row_ref idx;
    cbn [write_items length].
  - split; [reflexivity|]. intros i o H. discriminate H.
  - match goal with
    | |- context [write_items ?w q multiple all_cols row n_row_ref (S idx) rest] =>
        destruct (IH w q multiple all_cols row n_row_ref (S idx)) as (Hframe & Hcells)
    end.
    split.
    + intros r c Hr. rewrite Hframe by lia.
      rewrite !cell_with_ne by elsewhere. reflexivity.
    + intros [|i] o Ho.
      * injection Ho as <-. rewrite !Nat.add_0_r.
        rewrite !Hframe by lia. split.
        -- rewrite !cell_with_ne by elsewhere. apply cell_with_eq.
        -- rewrite cell_with_ne by elsewhere. apply cell_with_eq.
      * replace (row + idx + S i) with (row + S idx + i) by lia.
        replace (idx + S i) with (S idx + i) by lia. now apply Hcells.
Qed.

(** The N formula of a single or multiple table *)
Definition n_formula (q : analysed) (first_opt last_opt : nat) : string :=
  if mem (question_type q) ["single"; "single-select"] then
    "=SUM(B" +:+ str_of_nat first_opt +:+ ":B" +:+ str_of_nat last_opt +:+ ")"
  else
    "=SUMPRODUCT((LEN('Raw Data'!$A$3:$A$8000)>0)*("
    +:+ join "+"
          (map (fun ci => "LEN('Raw Data'!" +:+ get_excel_column_letter (ci + 1) +:+ "3:"
                          +:+ get_excel_column_letter (ci + 1) +:+ "8000)")
               (raw_data_col_index q :: a_unnamed_cols q))
    +:+ ">0)*1)".

Definition is_multiple (q : analysed) : bool :=
  mem (question_type q) ["multiple"; "multi-select"; "multiple select"].

Lemma write_flat_spec ws row q item_options :
  let k := length item_options in
  snd (write_flat ws row q item_options) = row + k + 2
  /\ (forall r c, r < row \/ row + k + 2 <= r ->
        cell (fst (write_flat ws row q item_options)) r c = cell ws r c)
  /\ cell (fst (write_flat ws row q item_options)) row 1 = Some (VStr "Response Option")
  /\ (forall i opt, item_options !! i = Some opt ->
        cell (fst (write_flat ws row q item_options)) (row + 1 + i) 1 = Some (VStr opt)
        /\ cell (fst (write_flat ws row q item_options)) (row + 1 + i) 2
           = Some (VStr (count_formula q (is_multiple q)
                           (raw_data_col_index q :: a_unnamed_cols q) i (row + 1 + i) opt)))
  /\ cell (fst (write_flat ws row q item_options)) (row + 1 + k) 1 = Some (VStr "N")
  /\ cell (fst (write_flat ws row q item_options)) (row + 1 + k) 2
     = Some (VStr (n_formula q (row + 1) (row + k))).
Proof.
  cbn zeta. unfold write_flat. cbn [fst snd].
  set (k := length item_options).
  set (ws1 := write_texts ws row 1 ["Response Option"; "N"; "%"]).
  destruct (write_items_spec item_options ws1 q (is_multiple q)
              (raw_data_col_index q :: a_unnamed_cols q) (row + 1) (row + 1 + k) 0)
    as (Hframe & Hcells).
  fold (is_multiple q). fold k in Hframe |- *.
  set (ws2 := write_items ws1 q (is_multiple q) (raw_data_col_index q :: a_unnamed_cols q)
                (row + 1) (row + 1 + k) 0 item_options) in *.
  split; [lia|]. split; [|split; [|split; [|split]]].
  - intros r c Hr. rewrite !cell_with_ne by elsewhere.
    rewrite Hframe by lia. apply write_texts_other. lia.
  - rewrite !cell_with_ne by elsewhere. rewrite Hframe by lia.
    apply write_texts_first.
  - intros i opt Hopt. destruct (Hcells i opt Hopt) as [H1 H2].
    assert (i < k) by (now apply lookup_lt_Some in Hopt).
    rewrite !Nat.add_0_r in H1, H2. cbn [Nat.add] in H2.
    split; rewrite !cell_with_ne by elsewhere; assumption.
  - rewrite cell_with_ne by elsewhere. apply cell_with_eq.
  - rewrite cell_with_eq. unfold n_formula.
    replace (row + 1 + k - k) with (row + 1) by lia.
    replace (row + 1 + k - 1) with (row + k) by lia. reflexivity.
Qed.

Lemma write_bipolar_spec ws row rows :
  let k := length rows in
  snd (write_bipolar ws row rows) = row + 1 + k
  /\ (forall r c, r < row \/ row + 1 + k <= r ->
        cell (fst (write_bipolar ws row rows)) r c = cell ws r c)
  /\ cell (fst (write_bipolar ws row rows)) row 1 = Some (VStr "Response Option")
  /\ (forall i brow, rows !! i = Some brow ->
        cell (fst (write_bipolar ws row rows)) (row + 1 + i) 1
        = Some (VStr (b_option brow))).
Proof.
  cbn zeta. unfold write_bipolar.
  destruct (write_bipolar_rows_spec rows
              (write_texts ws row 1 (bipolar_headers rows)) (row + 1))
    as (Hrow & Hframe & Hcells).
  split; [exact Hrow|]. split; [|split].
  - intros r c Hr. rewrite Hframe by lia. apply write_texts_other. lia.
  - rewrite Hframe by lia. apply write_texts_first.
  - exact Hcells.
Qed.

Lemma write_matrix_spec ws row rank_labels attributes cm multi :
  let k := length attributes in
  snd (write_matrix ws row rank_labels attributes cm multi) = row + 1 + k
  /\ (forall r c, r < row \/ row + 1 + k <= r ->
        cell (fst (write_matrix ws row rank_labels attributes cm multi)) r c
        = cell ws r c)
  /\ cell (fst (write_matrix ws row rank_labels attributes cm multi)) row 1
     = Some (VStr "Response Option")
  /\ (forall i attribute, attributes !! i = Some attribute ->
        cell (fst (write_matrix ws row rank_labels attributes cm multi)) (row + 1 + i) 1
        = Some (VStr attribute))
  /\ (forall j t, (rank_labels ++ ["N"])%list !! j = Some t ->
        cell (fst (write_matrix ws row rank_labels attributes cm multi)) row (2 + j)
        = Some (VStr t)).
Proof.
  cbn zeta. unfold write_matrix.
  set (headers := ("Response Option" :: rank_labels ++ "N" :: rank_labels)%list).
  destruct (write_matrix_rows_spec attributes (write_texts ws row 1 headers) (row + 1)
              row rank_labels cm multi) as (Hrow & Hframe & Hcells).
  split; [exact Hrow|]. split; [|split; [|split]].
  - intros r c Hr. rewrite Hframe by lia. apply write_texts_other. lia.
  - rewrite Hframe by lia. apply write_texts_first.
  - exact Hcells.
  - intros j t Hj. rewrite Hframe by lia. rewrite write_texts_cell, Nat.eqb_refl.
    assert (Hlt : j < length rank_labels + 1).
    { apply lookup_lt_Some in Hj. now rewrite length_app in Hj. }
    assert (Hlen : length headers = 1 + length rank_labels + 1 + length rank_labels).
    { unfold headers. cbn [length]. rewrite length_app. cbn [length]. lia. }
    destruct (Nat.leb_spec 1 (2 + j)); [|lia].
    destruct (Nat.ltb_spec (2 + j) (1 + length headers)); [|lia]. cbn [andb].
    replace (2 + j - 1) with (S j) by lia. unfold headers.
    change (("Response Option" :: rank_labels ++ "N" :: rank_labels)%list !! S j)
      with ((rank_labels ++ "N" :: rank_labels)%list !! j).
    change ("N" :: rank_labels)%list with (["N"] ++ rank_labels)%list.
    rewrite app_assoc, lookup_app_l by (rewrite length_app; cbn [length]; lia).
    now rewrite Hj.
Qed.

(** ** The rows of a question *)

(** The labels in column A of the table of a question *)
Definition labels (q : analysed) : list string :=
  match data q with
  | FlatData item_options => item_options
  | MatrixData _ attributes _ _ => attributes
  | BipolarData rows => map b_option rows
  end.

Definition is_flat (q : analysed) : bool :=
  match data q with
  | FlatData _ => true
  | _ => false
  end.

Definition title_text (q : analysed) : string :=
  "Q" +:+ str_of_nat (question_number q) +:+ ". " +:+ question_text q.

Definition type_line (q : analysed) : string :=
  "Type: " +:+ title (question_type q) +:+ " | Base: ".

(** Column A of the rows written for a question *)
Definition first_column (q : analysed) : list string :=
  ([title_text q; type_line q; "Response Option"] ++ labels q
   ++ (if is_flat q then ["N"] else []))%list.

Definition written (q : analysed) : nat := length (first_column q).

(** The rows of a question, with the two rows left empty below it *)
Definition height (q : analysed) : nat := written q + 2.

Lemma write_question_spec ws r q :
  snd (write_question ws r q) = r + height q
  /\ (forall r' c, r' < r \/ r + written q <= r' ->
        cell (fst (write_question ws r q)) r' c = cell ws r' c)
  /\ (forall i t, first_column q !! i = Some t ->
        cell (fst (write_question ws r q)) (r + i) 1 = Some (VStr t))
  /\ match data q with
     | MatrixData rank_labels _ _ _ =>
         forall j t, (rank_labels ++ ["N"])%list !! j = Some t ->
           cell (fst (write_question ws r q)) (r + 2) (2 + j) = Some (VStr t)
     | _ => True
     end.
Proof.
  unfold write_question, height, written, first_column, labels, is_flat.
  set (ws1 := assign (assign (assign ws r 1 (Some (VStr (title_text q))))
                             (r + 1) 1 (Some (VStr (type_line q))))
                     (r + 1) 2 (Some (VStr (counta "A")))).
  fold (title_text q). fold (type_line q). fold ws1.
  assert (H0 : cell ws1 r 1 = Some (VStr (title_text q))).
  { unfold ws1. rewrite !cell_assign_ne by elsewhere. apply cell_assign_eq. }
  assert (H1 : cell ws1 (r + 1) 1 = Some (VStr (type_line q))).
  { unfold ws1. rewrite cell_assign_ne by elsewhere. apply cell_assign_eq. }
  assert (Hf : forall r' c, r' < r \/ r + 2 <= r' -> cell ws1 r' c = cell ws r' c).
  { intros r' c Hr. unfold ws1. rewrite !cell_assign_ne by elsewhere. reflexivity. }
  clearbody ws1.
  destruct (data q) as [item_options|rank_labels attributes cm multi|rows].
  - destruct (write_flat_spec ws1 (r + 1 + 1) q item_options)
      as (Hrow & Hframe & Hhdr & Hitems & Hn & _).
    destruct (write_flat ws1 (r + 1 + 1) q item_options) as [ws2 row2].
    cbn [fst snd] in *. subst row2.
    cbn [length app]. rewrite !length_app. cbn [length].
    split; [lia|]. split; [|split; [|exact I]].
    + intros r' c Hr. rewrite Hframe by lia. apply Hf. lia.
    + intros [|[|[|i]]] t Ht; cbn [lookup list_lookup app] in Ht.
      * injection Ht as <-. rewrite Nat.add_0_r, Hframe by lia. exact H0.
      * injection Ht as <-. rewrite Hframe by lia. exact H1.
      * injection Ht as <-. replace (r + 2) with (r + 1 + 1) by lia. exact Hhdr.
      * change ((item_options ++ ["N"])%list !! i = Some t) in Ht.
        replace (r + S (S (S i))) with (r + 1 + 1 + 1 + i) by lia.
        destruct (item_options !! i) as [opt|] eqn:Hopt.
        -- rewrite lookup_app_l in Ht by (now apply lookup_lt_Some in Hopt).
           rewrite Hopt in Ht. injection Ht as <-. now apply Hitems.
        -- apply lookup_ge_None in Hopt. rewrite lookup_app_r in Ht by assumption.
           destruct (i - length item_options) as [|d] eqn:Hd; [|discriminate].
           injection Ht as <-. replace i with (length item_options) by lia. exact Hn.
  - destruct (write_matrix_spec ws1 (r + 1 + 1) rank_labels attributes cm multi)
      as (Hrow & Hframe & Hhdr & Hitems & Hranks).
    destruct (write_matrix ws1 (r + 1 + 1) rank_labels attributes cm multi)
      as [ws2 row2].
    cbn [fst snd] in *. subst row2.
    cbn [length app]. rewrite !length_app. cbn [length].
    split; [lia|]. split; [|split].
    + intros r' c Hr. rewrite Hframe by lia. apply Hf. lia.
    + intros [|[|[|i]]] t Ht; cbn [lookup list_lookup app] in Ht.
      * injection Ht as <-. rewrite Nat.add_0_r, Hframe by lia. exact H0.
      * injection Ht as <-. rewrite Hframe by lia. exact H1.
      * injection Ht as <-. replace (r + 2) with (r + 1 + 1) by lia. exact Hhdr.
      * change ((attributes ++ [])%list !! i = Some t) in Ht. rewrite app_nil_r in Ht.
        replace (r + S (S (S i))) with (r + 1 + 1 + 1 + i) by lia. now apply Hitems.
    + intros j t Hj. replace (r + 2) with (r + 1 + 1) by lia. now apply Hranks.
  - destruct (write_bipolar_spec ws1 (r + 1 + 1) rows) as (Hrow & Hframe & Hhdr & Hitems).
    destruct (write_bipolar ws1 (r + 1 + 1) rows) as [ws2 row2].
    cbn [fst snd] in *. subst row2.
    cbn [length app]. rewrite !length_app, length_map. cbn [length].
    split; [lia|]. split; [|split; [|exact I]].
    + intros r' c Hr. rewrite Hframe by lia. apply Hf. lia.
    + intros [|[|[|i]]] t Ht; cbn [lookup list_lookup app] in Ht.
      * injection Ht as <-. rewrite Nat.add_0_r, Hframe by lia. exact H0.
      * injection Ht as <-. rewrite Hframe by lia. exact H1.
      * injection Ht as <-. replace (r + 2) with (r + 1 + 1) by lia. exact Hhdr.
      * change ((map b_option rows ++ [])%list !! i = Some t) in Ht.
        rewrite app_nil_r, list_lookup_fmap in Ht.
        destruct (rows !! i) as [brow|] eqn:Hb; [|discriminate].
        injection Ht as <-.
        replace (r + S (S (S i))) with (r + 1 + 1 + 1 + i) by lia. now apply Hitems.
Qed.

(** ** The layout of the sheet *)

(** The rows of question [q] start at row [r] of the sheet: its column A,
    the two empty rows below it, and the header cells of a matrix up to N *)
Definition holds (ws : sheet) (r : nat) (q : analysed) : Prop :=
  (forall i t, first_column q !! i = Some t -> cell ws (r + i) 1 = Some (VStr t))
  /\ (forall i, written q <= i < height q ->
        cell ws (r + i) 1 = None /\ cell ws (r + i) 2 = None)
  /\ match data q with
     | MatrixData rank_labels _ _ _ =>
         forall j t, (rank_labels ++ ["N"])%list !! j = Some t ->
           cell ws (r + 2) (2 + j) = Some (VStr t)
     | _ => True
     end.

(** The questions follow one another from row [r], and column A is empty
    below the last one *)
Fixpoint laid_out (ws : sheet) (r : nat) (qs : list analysed) : Prop :=
  match qs with
  | [] => forall r', r <= r' -> cell ws r' 1 = None
  | q :: rest => holds ws r q /\ laid_out ws (r + height q) rest
  end.

Lemma write_questions_laid_out qs : forall ws r,
  (forall r' c, r <= r' -> cell ws r' c = None) ->
  laid_out (fst (write_questions ws r qs)) r qs
  /\ forall r' c, r' < r -> cell (fst (write_questions ws r qs)) r' c = cell ws r' c.
Proof.
  induction qs as [|q rest IH]; intros ws r Hempty; cbn [write_questions laid_out].
  - split; [intros; now apply Hempty | reflexivity].
  - destruct (write_question_spec ws r q) as (Hrow & Hframe & Hcol & Hhdr).
    destruct (write_question ws r q) as [ws1 r1]. cbn [fst snd] in *. subst r1.
    destruct (IH ws1 (r + height q)) as [Hlaid Hbefore].
    { intros r' c Hr. rewrite Hframe by (unfold height in Hr; lia).
      apply Hempty. lia. }
    assert (Hlen : forall i t, first_column q !! i = Some t -> i < written q).
    { intros i t Hi. now apply lookup_lt_Some in Hi. }
    split; [split; [split; [|split]|exact Hlaid]|].
    + intros i t Hi. specialize (Hlen i t Hi).
      rewrite Hbefore by (unfold height; lia). now apply Hcol.
    + intros i Hi. rewrite !Hbefore by lia. rewrite !Hframe by lia.
      split; apply Hempty; lia.
    + assert (Hw : 3 <= written q).
      { unfold written, first_column. cbn [app length]. lia. }
      destruct (data q); try exact I.
      intros j t Hj. rewrite Hbefore by (unfold height; lia). now apply Hhdr.
    + intros r' c Hr. rewrite Hbefore by lia. apply Hframe. lia.
Qed.

(** The Output sheet holds the questions one below the other from row 6. *)
Lemma output_sheet_laid_out survey_name qs :
  laid_out (output_sheet survey_name qs) 6 qs.
Proof.
  unfold output_sheet. apply write_questions_laid_out.
  intros r' c Hr. rewrite !cell_assign_ne by elsewhere.
  unfold cell. apply lookup_empty.
Qed.

(** ** Finding the blocks of a laid-out sheet *)

Definition label_ok (flat : bool) (l : string) : Prop :=
  is_title (Some (VStr l)) = false /\ (if flat then l <> "N" else l <> "").

Definition rating_cols_of (q : analysed) : nat :=
  match data q with
  | MatrixData rank_labels _ _ _ => length rank_labels
  | BipolarData _ => 2
  | FlatData _ => 0
  end.

(** The block that [find_question_blocks] should record for the question
    whose title is in row [r] *)
Definition expected_block (q : analysed) (r : nat) : block :=
  let k := length (labels q) in
  mk_block (r + 2) (r + 3) (r + 2 + k) (if is_flat q then r + 3 + k else r + 2 + k)
           (question_type q) (a_is_matrix q) (a_is_bipolar q) (rating_cols_of q).

Fixpoint expected_blocks (r : nat) (qs : list analysed) : list block :=
  match qs with
  | [] => []
  | q :: rest => expected_block q r :: expected_blocks (r + height q) rest
  end.

(** The sheet reaches the N row of every single or multiple table, and the
    empty row below every matrix or bipolar table *)
Fixpoint fits (max_row r : nat) (qs : list analysed) : Prop :=
  match qs with
  | [] => True
  | q :: rest => r + 3 + length (labels q) <= max_row /\ fits max_row (r + height q) rest
  end.

Lemma strip_Q s : startswith (strip (String "Q" s)) "Q" = true.
Proof.
  unfold strip. cbn [lstrip]. change (py_isspace "Q") with false. cbn iota.
  destruct (rstrip_decomp (String "Q" s)) as (w & Hs & Hw & _).
  destruct (rstrip (String "Q" s)) as [|a t]; sapp.
  - rewrite <- Hs in Hw. discriminate Hw.
  - injection Hs as <- _. apply startswith_spec. now exists t.
Qed.

Lemma count_ratings_labels ws hr rank_labels : forall remaining col num,
  (forall j t, (rank_labels ++ ["N"])%list !! j = Some t ->
     cell ws hr (col + j) = Some (VStr t)) ->
  List.Forall (fun l => l <> "N") rank_labels ->
  length rank_labels < remaining ->
  count_ratings ws hr remaining col num = num + length rank_labels.
Proof.
  induction rank_labels as [|l rest IH]; intros remaining col num Hcells Hok Hlen;
    (destruct remaining as [|remaining]; [cbn [length] in Hlen; lia|]);
    cbn [count_ratings length].
  - rewrite <- (Nat.add_0_r col), (Hcells 0 "N" eq_refl). cbn. lia.
  - apply List.Forall_cons_iff in Hok. destruct Hok as [Hl Hok].
    rewrite <- (Nat.add_0_r col) at 1. rewrite (Hcells 0 l eq_refl).
    cbn [value_is]. destruct (String.eqb_spec l "N") as [E|_]; [contradiction|].
    rewrite IH; [lia| |assumption|cbn [length] in Hlen; lia].
    intros j t Hj. replace (S col + j) with (col + S j) by lia. now apply Hcells.
Qed.

Lemma scan_flat_labels ws lbls : forall cur remaining last,
  (forall i l, lbls !! i = Some l -> cell ws (cur + i) 1 = Some (VStr l)) ->
  cell ws (cur + length lbls) 1 = Some (VStr "N") ->
  List.Forall (label_ok true) lbls ->
  length lbls < remaining ->
  scan_block ws false false remaining cur last = Some (cur + length lbls).
Proof.
  induction lbls as [|l rest IH]; intros cur remaining last Hcells Hn Hok Hlen;
    (destruct remaining as [|remaining]; [cbn [length] in Hlen; lia|]);
    cbn [scan_block length] in *.
  - rewrite Nat.add_0_r in *. rewrite Hn. reflexivity.
  - apply List.Forall_cons_iff in Hok. destruct Hok as [[Ht Hl] Hok].
    pose proof (Hcells 0 l eq_refl) as Hc. rewrite Nat.add_0_r in Hc. rewrite Hc.
    cbn [value_is is_none andb negb]. rewrite Ht.
    destruct (String.eqb_spec l "N") as [E|_]; [contradiction|]. cbn [andb].
    replace (cur + S (length rest)) with (S cur + length rest) in * by lia.
    apply IH; [|assumption|assumption|lia].
    intros i l' Hi. replace (S cur + i) with (cur + S i) by lia. now apply Hcells.
Qed.

Lemma scan_ranked_labels ws is_matrix is_bipolar lbls :
  is_matrix || is_bipolar = true ->
  forall cur remaining last,
  (forall i l, lbls !! i = Some l -> cell ws (cur + i) 1 = Some (VStr l)) ->
  cell ws (cur + length lbls) 1 = None ->
  cell ws (cur + length lbls) 2 = None ->
  List.Forall (label_ok false) lbls ->
  length lbls < remaining ->
  scan_block ws is_matrix is_bipolar remaining cur last
  = truthy_row (match lbls with
                | [] => last
                | _ :: _ => Some (cur + length lbls - 1)
                end).
Proof.
  intros Hranked.
  assert (Hflat : forall v, v && negb is_matrix && negb is_bipolar = false).
  { intros v. destruct v, is_matrix, is_bipolar; try reflexivity; discriminate. }
  induction lbls as [|l rest IH]; intros cur remaining last Hcells Ha Hb Hok Hlen;
    (destruct remaining as [|remaining]; [cbn [length] in Hlen; lia|]);
    cbn [scan_block length] in *.
  - rewrite Nat.add_0_r in *. rewrite Hflat, Ha, Hb, Hranked. reflexivity.
  - apply List.Forall_cons_iff in Hok. destruct Hok as [[Ht Hl] Hok].
    pose proof (Hcells 0 l eq_refl) as Hc. rewrite Nat.add_0_r in Hc. rewrite Hc.
    rewrite Hflat. cbn [is_none andb]. rewrite Ht. cbn [is_text].
    apply truthy_spec in Hl. rewrite Hl.
    replace (cur + S (length rest)) with (S cur + length rest) in * by lia.
    rewrite IH; [|intros i l' Hi; replace (S cur + i) with (cur + S i) by lia;
                   now apply Hcells|assumption|assumption|assumption|lia].
    destruct rest as [|l2 rest]; cbn [length]; f_equal; f_equal; lia.
Qed.

(** What the finder needs of a question: its type is read back from the
    type line and tells the kind of its table; no label is a question title;
    no label of a single or multiple table is N; a matrix or bipolar table
    has at least one row and no empty label; no rank label of a matrix is N,
    and there are at most 198 of them *)
Definition findable (q : analysed) : Prop :=
  block_type (type_line q) = question_type q
  /\ contains "bipolar" (question_type q) = a_is_bipolar q
  /\ contains "matrix" (question_type q) = a_is_matrix q
  /\ List.Forall (label_ok (is_flat q)) (labels q)
  /\ (is_flat q = false -> labels q <> [])
  /\ match data q with
     | MatrixData rank_labels _ _ _ =>
         List.Forall (fun l => l <> "N") rank_labels /\ length rank_labels <= 198
     | _ => True
     end.

Lemma first_column_labels q i l :
  labels q !! i = Some l -> first_column q !! (3 + i) = Some l.
Proof.
  intros H. unfold first_column.
  rewrite lookup_app_r by (cbn [length]; lia). cbn [length].
  replace (3 + i - 3) with i by lia.
  rewrite lookup_app_l by (now apply lookup_lt_Some in H). exact H.
Qed.

Lemma first_column_N q :
  is_flat q = true -> first_column q !! (3 + length (labels q)) = Some "N".
Proof.
  intros H. unfold first_column. rewrite H.
  rewrite lookup_app_r by (cbn [length]; lia). cbn [length].
  replace (3 + length (labels q) - 3) with (length (labels q)) by lia.
  rewrite lookup_app_r by lia. now rewrite Nat.sub_diag.
Qed.

Lemma written_eq q :
  written q = 3 + length (labels q) + (if is_flat q then 1 else 0).
Proof.
  unfold written, first_column. rewrite !length_app. cbn [length].
  destruct (is_flat q); cbn [length]; lia.
Qed.

Lemma block_at_written ws max_row r q :
  holds ws r q -> findable q -> r + 3 + length (labels q) <= max_row ->
  block_at ws max_row r = Some (expected_block q r).
Proof.
  intros (Hcol & Hblank & Hhdr) (Htype & Hbi & Hm & Hlabels & Hne & Hranks) Hfit.
  unfold block_at.
  rewrite (Hcol 1 (type_line q) eq_refl). cbn [str_or_empty]. rewrite Htype, Hbi, Hm.
  rewrite (Hcol 2 "Response Option" eq_refl). cbn [value_is String.eqb Ascii.eqb Bool.eqb].
  assert (Hcells : forall i l, labels q !! i = Some l ->
            cell ws (r + 2 + 1 + i) 1 = Some (VStr l)).
  { intros i l Hi. replace (r + 2 + 1 + i) with (r + (3 + i)) by lia.
    apply Hcol. now apply first_column_labels. }
  assert (HN : is_flat q = true ->
            cell ws (r + 2 + 1 + length (labels q)) 1 = Some (VStr "N")).
  { intros Hflat. replace (r + 2 + 1 + length (labels q))
      with (r + (3 + length (labels q))) by lia.
    apply Hcol. now apply first_column_N. }
  assert (HB : is_flat q = false ->
            cell ws (r + 2 + 1 + length (labels q)) 1 = None
            /\ cell ws (r + 2 + 1 + length (labels q)) 2 = None).
  { intros Hflat. replace (r + 2 + 1 + length (labels q))
      with (r + (3 + length (labels q))) by lia.
    apply Hblank. unfold height. rewrite written_eq, Hflat. lia. }
  clear Hblank.
  unfold expected_block, a_is_matrix, a_is_bipolar, is_flat, rating_cols_of,
    first_column, labels, is_flat in *.
  destruct (data q) as [item_options|rank_labels attributes cm multi|rows].
  - rewrite (scan_flat_labels ws item_options (r + 2 + 1) _ None Hcells);
      [|now apply HN|assumption|lia].
    cbn [truthy_row]. replace (r + 2 + 1 + length item_options)
      with (S (r + 2 + length item_options)) by lia. cbn [truthy_row orb].
    do 2 f_equal; lia.
  - destruct Hranks as [Hno Hlen].
    rewrite (count_ratings_labels ws (r + 2) rank_labels 199 2 0 Hhdr Hno) by lia.
    destruct (HB eq_refl) as [Ha Hb].
    rewrite (scan_ranked_labels ws true false attributes eq_refl (r + 2 + 1) _ None
               Hcells Ha Hb Hlabels) by lia.
    specialize (Hne eq_refl). destruct attributes as [|a rest]; [congruence|].
    cbn [length]. replace (r + 2 + 1 + S (length rest) - 1)
      with (S (r + 2 + length rest)) by lia. cbn [truthy_row orb].
    do 2 f_equal; lia.
  - destruct (HB eq_refl) as [Ha Hb].
    rewrite (scan_ranked_labels ws false true (map b_option rows) eq_refl (r + 2 + 1)
               _ None Hcells Ha Hb Hlabels) by lia.
    specialize (Hne eq_refl). destruct (map b_option rows) as [|a rest]; [congruence|].
    cbn [length]. replace (r + 2 + 1 + S (length rest) - 1)
      with (S (r + 2 + length rest)) by lia. cbn [truthy_row orb].
    do 2 f_equal; lia.
Qed.

Lemma blocks_loop_tail ws max_row : forall fuel r blocks,
  (forall r', r <= r' -> cell ws r' 1 = None) ->
  0 < fuel -> max_row + 1 < r + fuel ->
  blocks_loop fuel ws max_row r blocks = Some blocks.
Proof.
  induction fuel as [|fuel IH]; intros r blocks Hempty Hpos Hfuel; [lia|].
  cbn [blocks_loop]. destruct (Nat.ltb_spec max_row r) as [_|Hin]; [reflexivity|].
  rewrite (Hempty r (le_n r)).
  apply IH; [intros; apply Hempty; lia | lia | lia].
Qed.

Lemma blocks_loop_laid_out ws max_row qs : forall fuel r blocks,
  laid_out ws r qs -> List.Forall findable qs -> fits max_row r qs ->
  0 < fuel -> max_row + 1 < r + fuel ->
  blocks_loop fuel ws max_row r blocks = Some (blocks ++ expected_blocks r qs)%list.
Proof.
  induction qs as [|q rest IH]; intros fuel r blocks Hlaid Hok Hfits Hpos Hfuel.
  - cbn [expected_blocks]. rewrite app_nil_r. now apply blocks_loop_tail.
  - destruct Hlaid as [Hq Hlaid]. destruct Hfits as [Hfit Hfits].
    apply List.Forall_cons_iff in Hok. destruct Hok as [Hfind Hok].
    destruct fuel as [|fuel]; [lia|]. cbn [blocks_loop expected_blocks].
    destruct (Nat.ltb_spec max_row r) as [Hend|_]; [lia|].
    pose proof Hq as (Hcol & _).
    assert (Htitle : cell ws r 1 = Some (VStr (title_text q))).
    { rewrite <- (Nat.add_0_r r) at 1. now apply Hcol. }
    rewrite Htitle. unfold title_text at 1. sapp. rewrite strip_Q.
    rewrite (block_at_written ws max_row r q Hq Hfind Hfit).
    assert (Hnext : n_row (expected_block q r) + 3 = r + height q).
    { unfold expected_block, height. rewrite written_eq. cbn [n_row].
      destruct (is_flat q); lia. }
    rewrite Hnext.
    rewrite (IH fuel (r + height q) (blocks ++ [expected_block q r])%list Hlaid Hok Hfits).
    + now rewrite <- app_assoc.
    + unfold height in *. rewrite written_eq in *. lia.
    + unfold height. rewrite written_eq. lia.
Qed.

(** ** Reading the type back from the type line *)

(** A character of a plain type: a small letter, a blank, a hyphen or a
    parenthesis *)
Definition type_char (a : ascii) : bool :=
  is_lower a || Ascii.eqb a " " || one_of "-()" a.

(** A plain type: not empty, stripped, made of such characters *)
Definition plain_type (t : string) : Prop :=
  t <> "" /\ strip t = t /\ sall type_char t = true.

(** The class of group 1 of the type pattern *)
Definition type_class (a : ascii) : bool :=
  is_upper a || is_lower a || py_isspace a || one_of "-()" a.

(** What [title] makes of one character *)
Definition title_char (prev_cased : bool) (c : ascii) : ascii :=
  if is_upper c || is_lower c
  then (if prev_cased then lower_char c else upper_char c)
  else c.

Lemma title_char_plain b c :
  type_char c = true ->
  type_class (title_char b c) = true
  /\ lower_char (title_char b c) = c
  /\ py_isspace (title_char b c) = py_isspace c.
Proof.
  destruct b, c as [[] [] [] [] [] [] [] []]; vm_compute; intros H;
    try discriminate H; repeat split.
Qed.

Lemma title_from_plain t : forall b,
  sall type_char t = true ->
  sall type_class (title_from b t) = true
  /\ lower (title_from b t) = t
  /\ no_lead (title_from b t) = no_lead t.
Proof.
  induction t as [|c t IH]; intros b Ht; [repeat split|].
  cbn [sall] in Ht. apply andb_true_iff in Ht. destruct Ht as [Hc Ht].
  pose proof (title_char_plain b c Hc) as H. unfold title_char in H.
  cbn [title_from]. revert H.
  destruct (is_upper c || is_lower c); intros (H1 & H2 & H3);
    [destruct (IH true Ht) as (I1 & I2 & _) | destruct (IH false Ht) as (I1 & I2 & _)];
    (split; [cbn [sall]; now rewrite H1, I1|]);
    (split; [change (lower (String ?x ?y)) with (String (lower_char x) (lower y));
             rewrite I2; f_equal; exact H2|]);
    cbn [no_lead]; f_equal; exact H3.
Qed.

Lemma lower_char_space c : py_isspace (lower_char c) = py_isspace c.
Proof. destruct c as [[] [] [] [] [] [] [] []]; reflexivity. Qed.

Lemma lower_app a b : lower (a +:+ b) = lower a +:+ lower b.
Proof. unfold lower. induction a as [|c a IH]; sapp; cbn [smap]; sapp; congruence. Qed.

Lemma lower_srev s : lower (srev s) = srev (lower s).
Proof.
  induction s as [|c s IH]; [reflexivity|].
  rewrite srev_cons, lower_app, IH. unfold lower at 2 3. cbn [smap].
  now rewrite srev_cons.
Qed.

Lemma lower_lstrip s : lower (lstrip s) = lstrip (lower s).
Proof.
  induction s as [|c s IH]; [reflexivity|].
  unfold lower at 2. cbn [lstrip smap]. rewrite lower_char_space.
  destruct (py_isspace c); [exact IH | reflexivity].
Qed.

Lemma lower_strip s : lower (strip s) = strip (lower s).
Proof.
  unfold strip, rstrip.
  now rewrite lower_srev, lower_lstrip, lower_srev, lower_lstrip.
Qed.

Lemma strip_app_blank t : t <> "" -> strip t = t -> strip (t +:+ " ") = t.
Proof.
  intros Hne Hs. destruct (strip_trimmed t) as [Hl Ht]. rewrite Hs in Hl, Ht.
  unfold strip. rewrite (lstrip_fixed (t +:+ " ")) by (now rewrite no_lead_app).
  unfold rstrip. rewrite srev_app. change (srev " ") with " ". sapp.
  cbn [lstrip]. change (py_isspace " ") with true. cbn iota.
  rewrite lstrip_fixed by exact Ht. apply srev_involutive.
Qed.

Lemma run_group_plus p n c a d rest :
  p a = true -> sall p d = true ->
  match rest with
  | EmptyString => True
  | String b _ => p b = false
  end ->
  exists l, run (Grp n (Plus p)) c (String a (d +:+ rest))
            = ((n, String a d) :: c, rest) :: l.
Proof.
  intros Ha Hd Hrest. cbn [run]. rewrite Ha.
  destruct (TemplateProps.star_rests_all p d rest Hd Hrest) as (others & ->).
  cbn [map fst snd].
  change (String a (d +:+ rest)) with (String a d +:+ rest).
  rewrite TemplateProps.consumed_app. eexists. reflexivity.
Qed.

(** The type of a question is read back from its type line. *)
Lemma block_type_line t :
  plain_type t -> block_type ("Type: " +:+ title t +:+ " | Base: ") = t.
Proof.
  intros (Hne & Hs & Hchars).
  destruct (title_from_plain t false Hchars) as (Hclass & Hlower & Hlead).
  fold (title t) in Hclass, Hlower, Hlead.
  destruct (strip_trimmed t) as [Hl _]. rewrite Hs in Hl. rewrite Hl in Hlead.
  destruct (title t) as [|a d] eqn:Htitle.
  { unfold lower in Hlower. cbn in Hlower. congruence. }
  cbn [no_lead] in Hlead. apply negb_true_iff in Hlead.
  cbn [sall] in Hclass. apply andb_true_iff in Hclass. destruct Hclass as [Ha Hd].
  assert (Hd' : sall type_class (d +:+ " ") = true).
  { rewrite sall_app, Hd. reflexivity. }
  destruct (run_group_plus type_class 1 [] a (d +:+ " ") "| Base: " Ha Hd' eq_refl)
    as (l1 & H1).
  assert (H2 : exists l, run (rseq [Star py_isspace; Chr (lit "|")]) [(1, String a (d +:+ " "))]
                             "| Base: "
                         = ([(1, String a (d +:+ " "))], " Base: ") :: l).
  { eexists. reflexivity. }
  destruct H2 as (l2 & H2).
  destruct (TemplateProps.run_seq_cons _ _ _ _ _ _ _ _ _ H1 H2) as (l3 & H3).
  assert (H4 : exists l, run (Star py_isspace) []
                             (String " " (String a ((d +:+ " ") +:+ "| Base: ")))
                         = ([], String a ((d +:+ " ") +:+ "| Base: ")) :: l).
  { cbn [run star_rests]. change (py_isspace " ") with true. cbn iota. rewrite Hlead.
    eexists. reflexivity. }
  destruct H4 as (l4 & H4).
  destruct (TemplateProps.run_seq_cons _ _ _ _ _ _ _ _ _ H4 H3) as (l5 & H5).
  assert (H6 : run (word "Type:") []
                 ("Type:" +:+ String " " (String a ((d +:+ " ") +:+ "| Base: ")))
               = [([], String " " (String a ((d +:+ " ") +:+ "| Base: ")))])
    by reflexivity.
  destruct (TemplateProps.run_seq_cons _ _ _ _ _ _ _ _ _ H6 H5) as (l6 & H6').
  assert (Htext : "Type: " +:+ String a d +:+ " | Base: "
                  = "Type:" +:+ String " " (String a ((d +:+ " ") +:+ "| Base: "))).
  { sapp. rewrite sapp_assoc. reflexivity. }
  unfold block_type, re_search. rewrite Htext.
  change TYPE_RE with (Seq (word "Type:")
                         (Seq (Star py_isspace)
                            (Seq (Grp 1 (Plus type_class))
                               (rseq [Star py_isspace; Chr (lit "|")])))).
  sapp. cbn [search_from]. sapp. rewrite H6'. cbn [head group Nat.eqb].
  change (String a (d +:+ " ")) with (String a d +:+ " ").
  rewrite lower_strip, lower_app, Hlower. change (lower " ") with " ".
  now apply strip_app_blank.
Qed.

(** ** From the analysis to the blocks *)

(** A question that the block search can recognise: its type is plain and
    tells the kind of its table; no label is a question title; no label of a
    single or multiple table is N; a matrix or bipolar table has at least one
    row and no empty label; no rank label of a matrix is N, and there are at
    most 198 of them *)
Definition well_formed (q : analysed) : Prop :=
  plain_type (question_type q)
  /\ contains "bipolar" (question_type q) = a_is_bipolar q
  /\ contains "matrix" (question_type q) = a_is_matrix q
  /\ List.Forall (label_ok (is_flat q)) (labels q)
  /\ (is_flat q = false -> labels q <> [])
  /\ match data q with
     | MatrixData rank_labels _ _ _ =>
         List.Forall (fun l => l <> "N") rank_labels /\ length rank_labels <= 198
     | _ => True
     end.

Lemma well_formed_findable q : well_formed q -> findable q.
Proof.
  intros (Htype & H). split; [|exact H]. unfold type_line. now apply block_type_line.
Qed.

(** X16: on the Output sheet that [create_databook] writes for well-formed
    questions, [find_question_blocks] records one block per question, in
    order, with the rows where the table was written: the header two rows
    below the title, the options from the next row on, the N row right after
    the options of a single or multiple table and on the last row of a matrix
    or bipolar table; the type, the kind and the number of rating columns are
    those of the question.  The sheet has to reach the N row of a single or
    multiple table and the empty row below a matrix or bipolar table. *)
Theorem databook_blocks_are_found
    (survey_name : string) (qs : list analysed) (max_row : nat) :
  List.Forall well_formed qs ->
  fits max_row 6 qs ->
  find_question_blocks (output_sheet survey_name qs) max_row
  = Some (expected_blocks 6 qs).
Proof.
  intros Hok Hfits. unfold find_question_blocks.
  apply (blocks_loop_laid_out _ max_row qs (S max_row) 6 []);
    [apply output_sheet_laid_out| |assumption|lia|lia].
  eapply List.Forall_impl; [|exact Hok]. apply well_formed_findable.
Qed.

Definition sample_questions : list analysed :=
  [ mk_analysed 1 "Do you own a car?" "single" (FlatData ["Yes"; "No"]) "B" 1 [];
    mk_analysed 2 "Rate the brands" "matrix"
      (MatrixData ["Good"; "Bad"] ["Brand A"]
         [mk_column_map 2 "Brand A" None] false) "C" 2 [];
    mk_analysed 3 "Which colours?" "multi-select" (FlatData ["Red"]) "D" 3 [4] ].

Lemma databook_blocks_are_found_witness :
  find_question_blocks (output_sheet "Survey" sample_questions) 24
  = Some [ mk_block 8 9 10 11 "single" false false 0;
           mk_block 16 17 17 17 "matrix" true false 2;
           mk_block 22 23 23 24 "multi-select" false false 0 ].
Proof.
  apply (databook_blocks_are_found "Survey" sample_questions 24).
  - repeat constructor; try discriminate; cbn; lia.
  - cbn. lia.
Defined.

End DatabookProps.

(* ===================================================================== *)
(** * Where a multi-select cell is split *)
(* ===================================================================== *)

Module SplitSpec.
Import PyStr PyStrFacts Re ReFacts Tabulation TabulationProps SplitProps.

(** A comma separates when the first parenthesis of the text after it, if
    any, is an opening one *)
Definition separates (rest : string) : bool := negb (next_paren_closes rest).

(** The pieces between the separating commas; [piece] holds the characters
    of the current piece, last one first *)
Fixpoint cut_at_commas (s piece : string) : list string :=
  match s with
  | EmptyString => [srev piece]
  | String a s' =>
      if Ascii.eqb a "," && separates s'
      then srev piece :: cut_at_commas s' ""
      else cut_at_commas s' (String a piece)
  end.

(** The claim's words: the pieces between the commas that are not inside
    parentheses, [depth] counting the parentheses that are open *)
Fixpoint cut_outside (s : string) (depth : nat) (piece : string) : list string :=
  match s with
  | EmptyString => [srev piece]
  | String a s' =>
      if Ascii.eqb a "," && (depth =? 0)
      then srev piece :: cut_outside s' depth ""
      else
        let depth' := if Ascii.eqb a "(" then S depth
                      else if Ascii.eqb a ")" then Nat.pred depth
                      else depth in
        cut_outside s' depth' (String a piece)
  end.

(** The parentheses of the text are balanced and not nested; [inside] tells
    whether one is open *)
Fixpoint simple_parens (s : string) (inside : bool) : bool :=
  match s with
  | EmptyString => negb inside
  | String a s' =>
      if Ascii.eqb a "(" then negb inside && simple_parens s' true
      else if Ascii.eqb a ")" then inside && simple_parens s' false
      else simple_parens s' inside
  end.

(** The stripped, non-empty pieces *)
Definition tokens_of (pieces : list string) : list string :=
  List.filter truthy (map strip pieces).

(** The first separating comma: the text before it and the text after it *)
Fixpoint find_separator (before s : string) : option (string * string) :=
  match s with
  | EmptyString => None
  | String a s' =>
      if Ascii.eqb a "," && separates s' then Some (srev before, s')
      else find_separator (String a before) s'
  end.

(** ** The pattern at one position *)

Lemma star_rests_head t : exists l, star_rests py_isspace t = lstrip t :: l.
Proof.
  induction t as [|a t (l & IH)]; cbn [star_rests lstrip]; [eauto|].
  destruct (py_isspace a); [|eauto]. rewrite IH. eexists. reflexivity.
Qed.

Lemma next_paren_closes_lstrip t :
  next_paren_closes (lstrip t) = next_paren_closes t.
Proof.
  destruct (lstrip_decomp t) as (w & Ht & Hw & _).
  rewrite Ht at 2. now rewrite next_paren_closes_blanks.
Qed.

(** At a comma the pattern matches exactly when the comma separates, and
    then it takes the comma and all the blanks after it. *)
Lemma run_split_head t :
  head (run SPLIT_RE [] (String "," t))
  = if separates t then Some ([], lstrip t) else None.
Proof.
  unfold separates. destruct (next_paren_closes t) eqn:Hc; cbn [negb].
  - destruct (run SPLIT_RE [] (String "," t)) as [|x l] eqn:Hrun; [reflexivity|].
    assert (Hne : run SPLIT_RE [] (String "," t) <> []) by (rewrite Hrun; discriminate).
    apply comma_splits in Hne. congruence.
  - assert (H1 : run (rseq [NotAhead (Seq (Star (none_of "()")) (Chr (lit ")")))]) []
                     (lstrip t) = [([], lstrip t)]).
    { assert (Hl : next_paren_closes (lstrip t) = false)
        by (now rewrite next_paren_closes_lstrip).
      pose proof (no_closing_ahead [] (lstrip t) Hl) as Hno.
      remember (Seq (Star (none_of "()")) (Chr (lit ")"))) as ahead.
      cbn [rseq run]. rewrite Hno. reflexivity. }
    assert (H2 : exists l, run (Star py_isspace) [] t = ([], lstrip t) :: l).
    { cbn [run]. destruct (star_rests_head t) as (l & ->). eexists. reflexivity. }
    destruct H2 as (l2 & H2).
    destruct (run_seq_first _ _ _ _ _ _ _ _ _ H2 H1) as (l3 & H3).
    assert (H0 : run (Chr (lit ",")) [] (String "," t) = [([], t)]) by reflexivity.
    destruct (run_seq_first _ _ _ _ _ _ _ _ _ H0 H3) as (l4 & H4).
    unfold SPLIT_RE. cbn [rseq] in *. rewrite H4. reflexivity.
Qed.

Lemma run_split_empty : run SPLIT_RE [] "" = [].
Proof. reflexivity. Qed.

Lemma not_comma_spec a : not_comma a = negb (Ascii.eqb a ",").
Proof. reflexivity. Qed.

(** ** The search and the split *)

Lemma search_from_separator s : forall before,
  search_from SPLIT_RE before s
  = match find_separator before s with
    | Some (pre, t) => Some (pre, [], lstrip t)
    | None => None
    end.
Proof.
  induction s as [|a s IH]; intros before; [reflexivity|].
  cbn [search_from find_separator].
  destruct (Ascii.eqb a ",") eqn:Ha.
  - apply Ascii.eqb_eq in Ha. subst a. rewrite run_split_head.
    destruct (separates s); cbn [andb]; [reflexivity | apply IH].
  - rewrite run_split_other by (unfold not_comma; now rewrite Ha).
    cbn [head andb]. apply IH.
Qed.

Lemma find_separator_shorter s : forall before pre t,
  find_separator before s = Some (pre, t) -> String.length t < String.length s.
Proof.
  induction s as [|a s IH]; intros before pre t; cbn [find_separator]; [discriminate|].
  destruct (Ascii.eqb a "," && separates s).
  - intros H; injection H as _ <-. simpl. lia.
  - intros H. apply IH in H. simpl. lia.
Qed.

Lemma split_fuel_step fuel s :
  split_fuel (S fuel) SPLIT_RE s
  = match find_separator "" s with
    | Some (pre, t) => pre :: split_fuel fuel SPLIT_RE (lstrip t)
    | None => [s]
    end.
Proof.
  cbn [split_fuel]. unfold re_search. rewrite search_from_separator.
  now destruct (find_separator "" s) as [[pre t]|].
Qed.

Lemma cut_at_commas_step s : forall piece,
  cut_at_commas s piece
  = match find_separator piece s with
    | Some (pre, t) => pre :: cut_at_commas t ""
    | None => [srev piece +:+ s]
    end.
Proof.
  induction s as [|a s IH]; intros piece; cbn [cut_at_commas find_separator].
  - now rewrite sapp_nil_r.
  - destruct (Ascii.eqb a "," && separates s); [reflexivity|].
    rewrite IH. destruct (find_separator (String a piece) s) as [[pre t]|];
      [reflexivity|].
    rewrite srev_cons, sapp_assoc. reflexivity.
Qed.

(** ** Blanks in front of a piece *)

Lemma lstrip_blanks w x : sall py_isspace w = true -> lstrip (w +:+ x) = lstrip x.
Proof.
  induction w as [|a w IH]; sapp; [reflexivity|]. cbn [sall lstrip].
  intros H. apply andb_true_iff in H as [Ha Hw]. rewrite Ha. now apply IH.
Qed.

Lemma strip_blanks w x : sall py_isspace w = true -> strip (w +:+ x) = strip x.
Proof. intros H. unfold strip. now rewrite lstrip_blanks. Qed.

Lemma blank_not_comma a : py_isspace a = true -> Ascii.eqb a "," = false.
Proof. destruct (Ascii.eqb a ",") eqn:E; [|reflexivity]. apply Ascii.eqb_eq in E. now subst. Qed.

Lemma find_separator_before s : forall before,
  find_separator before s
  = match find_separator "" s with
    | Some (pre, t) => Some (srev before +:+ pre, t)
    | None => None
    end.
Proof.
  induction s as [|a s IH]; intros before; cbn [find_separator]; [reflexivity|].
  destruct (Ascii.eqb a "," && separates s).
  - change (srev "") with "". now rewrite sapp_nil_r.
  - rewrite (IH (String a before)), (IH (String a "")).
    destruct (find_separator "" s) as [[pre t]|]; [|reflexivity].
    rewrite srev_cons, !sapp_assoc. reflexivity.
Qed.

(** The piece in progress only lengthens the first piece. *)
Lemma cut_at_commas_piece s piece :
  exists hd tl,
    cut_at_commas s "" = hd :: tl
    /\ cut_at_commas s piece = (srev piece +:+ hd) :: tl.
Proof.
  rewrite (cut_at_commas_step s piece), (cut_at_commas_step s "").
  rewrite (find_separator_before s piece).
  destruct (find_separator "" s) as [[pre t]|]; eexists _, _; split; reflexivity.
Qed.

Lemma cut_at_commas_blanks w : forall s piece,
  sall py_isspace w = true ->
  cut_at_commas (w +:+ s) piece = cut_at_commas s (srev w +:+ piece).
Proof.
  induction w as [|a w IH]; intros s piece Hw; sapp; [reflexivity|].
  cbn [sall] in Hw. apply andb_true_iff in Hw as [Ha Hw].
  cbn [cut_at_commas]. rewrite (blank_not_comma a Ha). cbn [andb].
  rewrite IH by assumption. now rewrite srev_cons, sapp_assoc.
Qed.

(** The blanks after a separating comma do not change the tokens. *)
Lemma tokens_lstrip t :
  tokens_of (cut_at_commas (lstrip t) "") = tokens_of (cut_at_commas t "").
Proof.
  destruct (lstrip_decomp t) as (w & Ht & Hw & _).
  rewrite Ht at 2. rewrite cut_at_commas_blanks by assumption.
  destruct (cut_at_commas_piece (lstrip t) (srev w +:+ "")) as (hd & tl & -> & ->).
  rewrite sapp_nil_r, srev_involutive. unfold tokens_of. cbn [map].
  now rewrite strip_blanks.
Qed.

Lemma lstrip_length t : String.length (lstrip t) <= String.length t.
Proof.
  induction t as [|a t IH]; cbn [lstrip]; [lia|].
  destruct (py_isspace a); simpl in *; lia.
Qed.

Lemma split_fuel_tokens fuel : forall s,
  String.length s <= fuel ->
  tokens_of (split_fuel fuel SPLIT_RE s) = tokens_of (cut_at_commas s "").
Proof.
  induction fuel as [|fuel IH]; intros s Hlen.
  - destruct s; [reflexivity | simpl in Hlen; lia].
  - rewrite split_fuel_step, cut_at_commas_step.
    destruct (find_separator "" s) as [[pre t]|] eqn:Hf; [|reflexivity].
    apply find_separator_shorter in Hf. pose proof (lstrip_length t).
    unfold tokens_of in *. cbn [map List.filter].
    rewrite IH by lia. fold (tokens_of (cut_at_commas (lstrip t) "")).
    rewrite tokens_lstrip. reflexivity.
Qed.

(** ** Parentheses that are balanced and not nested *)

Lemma simple_parens_next s : forall inside,
  simple_parens s inside = true -> next_paren_closes s = inside.
Proof.
  induction s as [|a s IH]; intros inside; cbn [simple_parens next_paren_closes].
  - now destruct inside.
  - destruct (Ascii.eqb a ")") eqn:Hc.
    + apply Ascii.eqb_eq in Hc. subst a. cbn. destruct inside; [reflexivity|discriminate].
    + destruct (Ascii.eqb a "(").
      * destruct inside; [discriminate | reflexivity].
      * apply IH.
Qed.

Lemma cut_simple s : forall inside piece,
  simple_parens s inside = true ->
  cut_at_commas s piece = cut_outside s (if inside then 1 else 0) piece.
Proof.
  induction s as [|a s IH]; intros inside piece; cbn [simple_parens cut_at_commas cut_outside];
    [reflexivity|].
  destruct (Ascii.eqb a "(") eqn:Ho.
  - apply Ascii.eqb_eq in Ho. subst a. cbn [Ascii.eqb Bool.eqb andb].
    change (Ascii.eqb "(" ",") with false. cbn [andb].
    intros H. apply andb_true_iff in H as [Hi H].
    destruct inside; [discriminate|]. apply (IH true _ H).
  - destruct (Ascii.eqb a ")") eqn:Hc.
    + apply Ascii.eqb_eq in Hc. subst a. change (Ascii.eqb ")" ",") with false.
      cbn [andb]. intros H. apply andb_true_iff in H as [Hi H].
      destruct inside; [|discriminate]. apply (IH false _ H).
    + intros H. unfold separates. rewrite (simple_parens_next s inside H).
      destruct (Ascii.eqb a ","); cbn [andb].
      * destruct inside; cbn [negb Nat.eqb].
        -- exact (IH true _ H).
        -- f_equal. exact (IH false _ H).
      * exact (IH inside _ H).
Qed.

(** C8, amended.  A cell is split at every comma whose following text
    reaches an opening parenthesis, or the end, before any closing one; the
    comma and the blanks after it are dropped, and the tokens are the pieces
    between these commas, stripped, without the empty ones.  When the
    parentheses of the cell are balanced and not nested these are the commas
    outside parentheses, so that a comma between a pair of parentheses stays
    in its token; the cell Red, Blue (Light, Dark), Green gives the three
    tokens Red, Blue (Light, Dark) and Green. *)
Theorem split_on_separating_commas (text : string) :
  split_multi_select_options text = tokens_of (cut_at_commas text "")
  /\ (simple_parens text false = true ->
      split_multi_select_options text = tokens_of (cut_outside text 0 ""))
  /\ split_multi_select_options "Red, Blue (Light, Dark), Green"
     = ["Red"; "Blue (Light, Dark)"; "Green"].
Proof.
  assert (H : split_multi_select_options text = tokens_of (cut_at_commas text "")).
  { unfold split_multi_select_options, re_split.
    now apply (split_fuel_tokens (String.length text) text). }
  split; [exact H|]. split; [|vm_compute; reflexivity].
  intros Hs. rewrite H. now rewrite (cut_simple text false "" Hs).
Qed.

Lemma split_on_separating_commas_witness :
  simple_parens "Small, Large (Red, Blue)" false = true
  /\ split_multi_select_options "Small, Large (Red, Blue)"
     = tokens_of (cut_outside "Small, Large (Red, Blue)" 0 "")
  /\ tokens_of (cut_outside "Small, Large (Red, Blue)" 0 "")
     = ["Small"; "Large (Red, Blue)"].
Proof.
  split; [reflexivity|]. split; [|vm_compute; reflexivity].
  apply (proj1 (proj2 (split_on_separating_commas "Small, Large (Red, Blue)"))).
  reflexivity.
Defined.

(** With nested parentheses a comma inside parentheses separates: the comma
    after Light is followed by an opening parenthesis, so the cell is cut
    there although the outer parenthesis is still open. *)
Lemma split_inside_nested_parentheses :
  split_multi_select_options "Blue (Light, (very) Dark), Green"
  = ["Blue (Light"; "(very) Dark)"; "Green"]
  /\ tokens_of (cut_outside "Blue (Light, (very) Dark), Green" 0 "")
     = ["Blue (Light, (very) Dark)"; "Green"]
  /\ split_multi_select_options "Blue (Light, (very) Dark), Green"
     <> tokens_of (cut_outside "Blue (Light, (very) Dark), Green" 0 "").
Proof. vm_compute. repeat split; discriminate. Qed.

End SplitSpec.

(* ===================================================================== *)
(** * The cut columns of a table that [create_databook] wrote *)
(* ===================================================================== *)

Module FormulaProps.
Import PyStr PyStrFacts Re ReFacts Tabulation Cuts CutsProps Letters Databook.

(** ** Column letters are never empty *)

Lemma letter_shape n :
  exists a d, get_excel_column_letter (S n) = String a d
              /\ is_upper a = true /\ sall is_upper d = true.
Proof.
  assert (Hu : sall is_upper (get_excel_column_letter (S n)) = true)
    by (apply LettersProps.column_letter_fuel_upper; reflexivity).
  assert (Hi : column_index (get_excel_column_letter (S n)) = S n).
  { unfold get_excel_column_letter.
    rewrite LettersProps.column_letter_fuel_index by lia. cbn. lia. }
  destruct (get_excel_column_letter (S n)) as [|a d]; [discriminate Hi|].
  cbn [sall] in Hu. apply andb_true_iff in Hu. destruct Hu. eauto.
Qed.

(** ** The pattern of the COUNTA rewrite on a literal text *)

Lemma run_word w : forall c s, run (word w) c (w +:+ s) = [(c, s)].
Proof.
  induction w as [|a w IH]; intros c s; sapp; [reflexivity|].
  cbn [word run]. unfold lit at 1. rewrite Ascii.eqb_refl.
  cbn [flat_map fst snd]. rewrite IH. reflexivity.
Qed.

Lemma run_word_seq w r c s c1 s1 l :
  run r c s = (c1, s1) :: l ->
  exists l', run (Seq (word w) r) c (w +:+ s) = (c1, s1) :: l'.
Proof.
  intros H. apply (TemplateProps.run_seq_cons (word w) r c (w +:+ s) c s [] (c1, s1) l).
  - apply run_word.
  - exact H.
Qed.

Lemma search_skip r before x s :
  run r [] (String x s) = [] ->
  search_from r before (String x s) = search_from r (String x before) s.
Proof. intros H. cbn [search_from]. rewrite H. reflexivity. Qed.

Lemma search_hit r before s c rest l :
  run r [] s = (c, rest) :: l ->
  search_from r before s = Some (srev before, c, rest).
Proof. intros H. destruct s; cbn [search_from]; rewrite H; reflexivity. Qed.

(** The pattern finds the column letters of a COUNTA formula as written by
    [create_databook], one character after the equals sign. *)
Lemma counta_search a d :
  is_upper a = true -> sall is_upper d = true ->
  exists pre c post,
    re_search COUNTA_RE (counta (String a d)) = Some (pre, c, post)
    /\ group 1 c = Some (String a d).
Proof.
  intros Ha Hd. set (L := String a d).
  assert (H5 : run (rseq [word "$8000)"]) [(2, L); (1, L)] "$8000)"
               = [([(2, L); (1, L)], "")]) by reflexivity.
  destruct (DatabookProps.run_group_plus is_upper 2 [(1, L)] a d "$8000)" Ha Hd eq_refl)
    as (l4 & H4).
  destruct (TemplateProps.run_seq_cons _ _ _ _ _ _ _ _ _ H4 H5) as (l4' & H45).
  destruct (run_word_seq "$3:$" _ _ _ _ _ _ H45) as (l3 & H345).
  destruct (DatabookProps.run_group_plus is_upper 1 [] a
              d ("$3:$" +:+ String a (d +:+ "$8000)")) Ha Hd eq_refl)
    as (l2 & H2).
  destruct (TemplateProps.run_seq_cons _ _ _ _ _ _ _ _ _ H2 H345) as (l2' & H2345).
  destruct (run_word_seq "COUNTA('Raw Data'!$" _ _ _ _ _ _ H2345) as (l1 & H1).
  assert (Hf : counta L
               = String "=" ("COUNTA('Raw Data'!$"
                             +:+ String a (d +:+ "$3:$" +:+ String a (d +:+ "$8000)")))).
  { unfold counta, raw_range, L. repeat (rewrite ?sapp_cons, ?sapp_nil_l, ?sapp_assoc). reflexivity. }
  rewrite Hf. unfold re_search.
  rewrite search_skip by reflexivity.
  unfold COUNTA_RE. cbn [rseq] in H1 |- *.
  rewrite (search_hit _ _ _ _ _ _ H1).
  eexists _, _, _. split; reflexivity.
Qed.

(** ** The count formulas of a single or multiple table *)

(** The raw-data column that item [idx] is counted in, when the question is
    a multiple one and has a column of that position *)
Definition option_column (q : analysed) (idx : nat) : option nat :=
  if DatabookProps.is_multiple q
  then (raw_data_col_index q :: a_unnamed_cols q) !! idx
  else None.

(** The letters of the column whose cells are compared with the option *)
Definition count_letter (q : analysed) (idx : nat) : string :=
  match option_column q idx with
  | Some col => get_excel_column_letter (col + 1)
  | None => raw_data_col_letter q
  end.

(** The letters of the column to the right of it, where the free text of
    an Other option is *)
Definition other_letter (q : analysed) (idx : nat) : string :=
  match option_column q idx with
  | Some col => get_excel_column_letter (col + 1 + 1)
  | None => get_excel_column_letter (raw_data_col_index q + 1 + 1)
  end.

(** The count of one option under one category of a cut *)
Definition cut_count (q : analysed) (idx current_row : nat) (opt letter ref : string)
  : string :=
  if is_other_option opt then
    "=COUNTIFS(" +:+ raw_range (other_letter q idx) +:+ "," +:+ quoted_text "<>" +:+ "),"
    +:+ raw_range letter +:+ "," +:+ ref +:+ ")"
  else
    "=COUNTIFS(" +:+ raw_range (count_letter q idx) +:+ ",A" +:+ str_of_nat current_row
    +:+ filter_args letter ref +:+ ")".

(** The N of a table under one category of a cut *)
Definition cut_total (q : analysed) (first_opt last_opt : nat)
    (n_col_letter letter ref : string) : string :=
  if mem (question_type q) ["single"; "single-select"] then
    "=SUM(" +:+ n_col_letter +:+ str_of_nat first_opt +:+ ":"
    +:+ n_col_letter +:+ str_of_nat last_opt +:+ ")"
  else
    "=SUMPRODUCT((LEN('Raw Data'!$A$3:$A$8000)>0)*("
    +:+ join "+"
          (map (fun ci => "LEN('Raw Data'!" +:+ get_excel_column_letter (ci + 1) +:+ "3:"
                          +:+ get_excel_column_letter (ci + 1) +:+ "8000)")
               (raw_data_col_index q :: a_unnamed_cols q))
    +:+ ">0)" +:+ filter_factor letter ref +:+ "*1)".

Lemma counta_rewrite n letter ref :
  flat_count_formula (counta (get_excel_column_letter (S n))) letter ref
  = "=COUNTIFS(" +:+ raw_range (get_excel_column_letter (S n)) +:+ ","
    +:+ quoted_text "<>" +:+ ")," +:+ raw_range letter +:+ "," +:+ ref +:+ ")".
Proof.
  destruct (letter_shape n) as (a & d & -> & Ha & Hd).
  destruct (counta_search a d Ha Hd) as (pre & c & post & Hs & Hg).
  unfold flat_count_formula.
  assert (Hc : startswith (upper (counta (String a d))) "=COUNTA" = true)
    by reflexivity.
  rewrite Hc, Hs, Hg. rewrite ?sapp_assoc. reflexivity.
Qed.

Lemma countifs_rewrite col crit letter ref :
  flat_count_formula ("=" +:+ countifs col crit) letter ref
  = "=COUNTIFS(" +:+ raw_range col +:+ "," +:+ crit +:+ filter_args letter ref +:+ ")".
Proof.
  unfold countifs.
  replace ("=" +:+ "COUNTIFS(" +:+ raw_range col +:+ "," +:+ crit +:+ ")")
    with ("=" +:+ ("COUNTIFS(" +:+ raw_range col +:+ "," +:+ crit) +:+ ")")
    by (rewrite ?sapp_assoc; reflexivity).
  rewrite flat_count_formula_plain by reflexivity.
  rewrite ?sapp_assoc. reflexivity.
Qed.

Lemma count_formula_cut q idx current_row opt letter ref :
  flat_count_formula
    (count_formula q (DatabookProps.is_multiple q)
       (raw_data_col_index q :: a_unnamed_cols q) idx current_row opt) letter ref
  = cut_count q idx current_row opt letter ref.
Proof.
  unfold count_formula, cut_count, count_letter, other_letter, option_column.
  destruct (if DatabookProps.is_multiple q
            then (raw_data_col_index q :: a_unnamed_cols q) !! idx
            else None) as [col|];
    destruct (is_other_option opt).
  - replace (col + 1 + 1) with (S (col + 1)) by lia. apply counta_rewrite.
  - rewrite countifs_rewrite. rewrite ?sapp_assoc. reflexivity.
  - replace (raw_data_col_index q + 1 + 1) with (S (raw_data_col_index q + 1)) by lia.
    apply counta_rewrite.
  - rewrite countifs_rewrite. rewrite ?sapp_assoc. reflexivity.
Qed.

Lemma count_formula_starts q m cols idx current_row opt :
  startswith (count_formula q m cols idx current_row opt) "=" = true.
Proof.
  unfold count_formula.
  destruct (if m then cols !! idx else None); destruct (is_other_option opt);
    reflexivity.
Qed.

(** ** The N formulas *)

Definition not_P (c : ascii) : bool := negb (Ascii.eqb c "P").

Lemma upper_app a b : upper (a +:+ b) = upper a +:+ upper b.
Proof. unfold upper. induction a as [|c a IH]; sapp; cbn [smap]; sapp; congruence. Qed.

Lemma digit_not_P c : is_digit c = true -> not_P (upper_char c) = true.
Proof. destruct c as [[] [] [] [] [] [] [] []]; vm_compute; congruence. Qed.

Lemma digits_not_P d : sall is_digit d = true -> sall not_P (upper d) = true.
Proof.
  induction d as [|c d IH]; [reflexivity|]. cbn [sall upper smap].
  intros H. apply andb_true_iff in H. destruct H as [Hc Hd].
  fold (upper d). now rewrite digit_not_P, IH.
Qed.

Lemma str_of_nat_not_P n : sall not_P (upper (str_of_nat n)) = true.
Proof.
  apply digits_not_P.
  destruct (TemplateProps.str_of_nat_digits n) as (a & d & -> & Ha & Hd).
  cbn [sall]. now rewrite Ha, Hd.
Qed.

Lemma contains_needs_P s : sall not_P s = true -> contains "SUMPRODUCT" s = false.
Proof.
  intros H. destruct (contains "SUMPRODUCT" s) eqn:Hc; [|reflexivity].
  apply contains_spec in Hc as (a & b & ->).
  rewrite !sall_app in H. apply andb_true_iff in H. destruct H as [_ H].
  apply andb_true_iff in H. destruct H as [H _]. discriminate H.
Qed.

Lemma total_rewrite q first_opt last_opt n_col_letter letter ref :
  (if contains "SUMPRODUCT" (upper (DatabookProps.n_formula q first_opt last_opt))
   then modify_multiple_select_n_formula
          (DatabookProps.n_formula q first_opt last_opt) letter ref
   else "=SUM(" +:+ n_col_letter +:+ str_of_nat first_opt +:+ ":"
        +:+ n_col_letter +:+ str_of_nat last_opt +:+ ")")
  = cut_total q first_opt last_opt n_col_letter letter ref.
Proof.
  unfold DatabookProps.n_formula, cut_total.
  destruct (mem (question_type q) ["single"; "single-select"]).
  - rewrite contains_needs_P; [reflexivity|].
    rewrite !upper_app, !sall_app, !str_of_nat_not_P. reflexivity.
  - set (parts := join "+" _).
    assert (Hc : contains "SUMPRODUCT"
                   (upper ("=SUMPRODUCT((LEN('Raw Data'!$A$3:$A$8000)>0)*("
                           +:+ parts +:+ ">0)*1)")) = true) by reflexivity.
    rewrite Hc.
    rewrite (modify_n_conforming _
               ("=SUMPRODUCT((LEN('Raw Data'!$A$3:$A$8000)>0)*(" +:+ parts +:+ ">0)")).
    + rewrite ?sapp_assoc. reflexivity.
    + rewrite strip_fixed; [reflexivity|reflexivity|].
      rewrite <- sapp_assoc. now rewrite no_trail_app by discriminate.
    + rewrite strip_fixed; [rewrite ?sapp_assoc; reflexivity|reflexivity|].
      rewrite <- sapp_assoc. now rewrite no_trail_app by discriminate.
Qed.

(** ** The cells of the cut columns *)

Lemma flat_totals_cell b cb ws i cat :
  2 < start_col cb ->
  categories cb !! i = Some cat ->
  cell (flat_totals b cb ws) (n_row b) (start_col cb + i)
  = Some (VStr
            (let n_col_letter := get_column_letter (start_col cb + i) in
             match cell ws (n_row b) 2 with
             | Some (VStr base_n_formula) =>
                 if contains "SUMPRODUCT" (upper base_n_formula) then
                   modify_multiple_select_n_formula base_n_formula (raw_col_letter cb)
                     (header_cell_ref (start_col cb + i) (header_row b))
                 else
                   "=SUM(" +:+ n_col_letter +:+ str_of_nat (first_option_row b) +:+ ":"
                   +:+ n_col_letter +:+ str_of_nat (last_option_row b) +:+ ")"
             | _ =>
                 "=SUM(" +:+ n_col_letter +:+ str_of_nat (first_option_row b) +:+ ":"
                 +:+ n_col_letter +:+ str_of_nat (last_option_row b) +:+ ")"
             end)).
Proof.
  intros Hs Hi. unfold flat_totals.
  destruct (enumerate_split _ _ _ Hi) as (l1 & l2 & -> & H1 & H2).
  rewrite fold_decided.
  - cbn [fst snd]. rewrite cell_assign_eq. rewrite fold_frame; [reflexivity|].
    intros y ws' _. apply cell_assign_ne. intros E; injection E; lia.
  - intros y ws' Hy. apply H1 in Hy. apply cell_assign_ne. intros E; injection E; lia.
  - intros y ws' Hy. apply H2 in Hy. apply cell_assign_ne. intros E; injection E; lia.
Qed.

(** X17: the cut step handles every formula that [create_databook] puts in
    a single or multiple table.  Take the table written at a row by
    [create_databook] and the block that describes it: header at that row,
    options on the rows below, N on the row after the last option.  Under
    each category of a cut placed right of column 2, the count of an option
    is the COUNTIFS of the base column with the range of the cut and the
    reference to the category header added before the closing parenthesis;
    the count of an Other option is the COUNTIFS that the COUNTA pattern
    produces, which closes its parenthesis right after the non-empty
    criterion and so carries the range of the cut outside of it; and N is
    the sum of the category column for a single question, and the base
    SUMPRODUCT with the filter factor inserted before its last factor for
    the other types. *)
Theorem cuts_of_a_written_table
    (ws : sheet) (row : nat) (q : analysed) (item_options : list string)
    (b : block) (cb : cut_block) (i : nat) (cat : string) :
  let k := length item_options in
  let table := fst (write_flat ws row q item_options) in
  let n_col := start_col cb + i in
  let ref := header_cell_ref n_col row in
  header_row b = row ->
  first_option_row b = row + 1 ->
  last_option_row b = row + k ->
  n_row b = row + 1 + k ->
  2 < start_col cb ->
  num_cat cb = length (categories cb) ->
  categories cb !! i = Some cat ->
  (forall idx opt, item_options !! idx = Some opt ->
     cell (flat_cut b table cb) (row + 1 + idx) n_col
     = Some (VStr (cut_count q idx (row + 1 + idx) opt (raw_col_letter cb) ref)))
  /\ cell (flat_cut b table cb) (row + 1 + k) n_col
     = Some (VStr (cut_total q (row + 1) (row + k) (get_column_letter n_col)
                     (raw_col_letter cb) ref)).
Proof.
  intros k table n_col ref Hh Hf Hl Hn Hs Hnum Hi. subst ref n_col.
  destruct (DatabookProps.write_flat_spec ws row q item_options)
    as (_ & _ & _ & Hitems & _ & HN).
  fold k in HN. fold table in Hitems, HN.
  split.
  - intros idx opt Hopt. destruct (Hitems idx opt Hopt) as [_ Hcell].
    assert (idx < k) by (now apply lookup_lt_Some in Hopt).
    rewrite (flat_count_cells b table cb (row + 1 + idx) i cat _ Hs Hnum
               ltac:(lia) ltac:(lia) Hi Hcell (count_formula_starts _ _ _ _ _ _)).
    rewrite count_formula_cut, Hh. reflexivity.
  - unfold flat_cut. rewrite <- Hn.
    rewrite (flat_totals_cell b cb _ i cat Hs Hi).
    rewrite fold_frame.
    + rewrite flat_headers_frame by (right; lia).
      rewrite Hn, HN, Hh, Hf, Hl. cbn zeta. rewrite total_rewrite. reflexivity.
    + intros y ws' Hy. apply flat_row_frame. right. lia.
Qed.

(** A multiple question in raw column 3 with one more column, written at
    row 8, and a cut on raw column C laid out from column 6 *)
Definition colours : analysed :=
  mk_analysed 3 "Which colours?" "multi-select"
    (FlatData ["Red"; "Other (please specify)"]) "D" 3 [4].

Definition colours_block : block := mk_block 8 9 10 11 "multi-select" false false 0.

Definition gender_cut : cut_block := mk_cut_block 2 "C" ["Male"; "Female"] 2 6 9 4.

Lemma cuts_of_a_written_table_witness :
  cell (flat_cut colours_block
          (fst (write_flat ∅ 8 colours ["Red"; "Other (please specify)"])) gender_cut) 9 7
  = Some (VStr "=COUNTIFS('Raw Data'!$D$3:$D$8000,A9, 'Raw Data'!$C$3:$C$8000,$G$8)")
  /\ cell (flat_cut colours_block
             (fst (write_flat ∅ 8 colours ["Red"; "Other (please specify)"])) gender_cut)
          11 7
     = Some (VStr (cut_total colours 9 10 "G" "C" "$G$8")).
Proof.
  destruct (cuts_of_a_written_table ∅ 8 colours ["Red"; "Other (please specify)"]
              colours_block gender_cut 1 "Female")
    as [Hcount Htotal]; try reflexivity; [cbn; lia|].
  split.
  - exact (Hcount 0 "Red" eq_refl).
  - exact Htotal.
Defined.

End FormulaProps.
